(** * invoice_qr_scanner: the scan pipeline of [models/invoice_scan_record.py]

    A shallow embedding of the DGI verification-page pipeline (identifier
    extraction, text extraction, the two fetch paths, duplicate detection and
    the scan orchestrator), of the actions and statistics built on the scan
    records, and of the endpoints of [controllers/mobile_api.py] that scan,
    check, report, retry, mark, list and count them, with the properties
    stated about them.

    Python strings are lists of Unicode code points; dictionaries built key by
    key are [gmap string value]; code that raises lives in an error monad and
    code that also touches the record store in a state-and-error monad. *)

From Stdlib Require Import ZArith NArith QArith Lia List Bool String Ascii DecimalString.
From stdpp Require Import base option list gmap strings.
Import ListNotations.

Set Warnings "-register-all".
Local Open Scope N_scope.

(** ** Python strings *)

(** A [str] is a sequence of code points. *)
Definition pystr := list N.

Definition cp (a : ascii) : N := N_of_ascii a.

(** Source literals are written as UTF-8 text; [py] decodes them into code
    points (one, two and three byte sequences are all the literals need). *)
Fixpoint utf8_decode (bs : list N) : pystr :=
  match bs with
  | [] => []
  | b :: rest =>
      if b <? 128 then b :: utf8_decode rest
      else if b <? 224 then
        match rest with
        | b1 :: rest' => ((b - 192) * 64 + (b1 - 128)) :: utf8_decode rest'
        | [] => [b]
        end
      else
        match rest with
        | b1 :: b2 :: rest' =>
            ((b - 224) * 4096 + (b1 - 128) * 64 + (b2 - 128)) :: utf8_decode rest'
        | _ => [b]
        end
  end.

Definition py (s : string) : pystr :=
  utf8_decode (List.map cp (list_ascii_of_string s)).

Definition pystr_eqb (a b : pystr) : bool := bool_decide (a = b).

(** [needle in hay] for strings. *)
Fixpoint starts_with (needle hay : pystr) : bool :=
  match needle, hay with
  | [], _ => true
  | n :: needle', h :: hay' => (n =? h) && starts_with needle' hay'
  | _ :: _, [] => false
  end.

Fixpoint contains (needle hay : pystr) : bool :=
  starts_with needle hay ||
  match hay with
  | [] => false
  | _ :: hay' => contains needle hay'
  end.

(** [s[a:b]] for [0 <= a <= b]. *)
Definition slice (s : pystr) (a b : nat) : pystr := take (b - a) (drop a s).

(** [s.replace(c, '')] for a one-character [c]. *)
Definition remove_char (c : N) (s : pystr) : pystr :=
  List.filter (fun x => negb (x =? c)) s.

Definition in_range (lo hi c : N) : bool := (lo <=? c) && (c <=? hi).

(** *** Character tables of the runtime (Unicode 14) *)

(** [str.isspace], which is also the regex class [\s] and what [str.strip]
    removes. *)
Definition is_space (c : N) : bool :=
  in_range 9 13 c || in_range 28 32 c || (c =? 133) || (c =? 160)
  || (c =? 5760) || in_range 8192 8202 c || (c =? 8232) || (c =? 8233)
  || (c =? 8239) || (c =? 8287) || (c =? 12288).

(** The zero of every block of decimal digits (category Nd); each block is
    ten consecutive code points, zero to nine. *)
Definition decimal_zeros : list N :=
  [ 0x30; 0x660; 0x6f0; 0x7c0; 0x966; 0x9e6; 0xa66; 0xae6; 0xb66; 0xbe6;
    0xc66; 0xce6; 0xd66; 0xde6; 0xe50; 0xed0; 0xf20; 0x1040; 0x1090; 0x17e0;
    0x1810; 0x1946; 0x19d0; 0x1a80; 0x1a90; 0x1b50; 0x1bb0; 0x1c40; 0x1c50;
    0xa620; 0xa8d0; 0xa900; 0xa9d0; 0xa9f0; 0xaa50; 0xabf0; 0xff10; 0x104a0;
    0x10d30; 0x11066; 0x110f0; 0x11136; 0x111d0; 0x112f0; 0x11450; 0x114d0;
    0x11650; 0x116c0; 0x11730; 0x118e0; 0x11950; 0x11c50; 0x11d50; 0x11da0;
    0x16a60; 0x16ac0; 0x16b50; 0x1d7ce; 0x1d7d8; 0x1d7e2; 0x1d7ec; 0x1d7f6;
    0x1e140; 0x1e2f0; 0x1e950; 0x1fbf0 ].

(** The decimal value of a digit, [None] for any other character. *)
Definition digit_value (c : N) : option N :=
  match List.find (fun z => in_range z (z + 9) c) decimal_zeros with
  | Some z => Some (c - z)
  | None => None
  end.

(** The regex class [\d]. *)
Definition is_digit (c : N) : bool :=
  match digit_value c with Some _ => true | None => false end.

Definition is_ascii_digit (c : N) : bool := in_range 48 57 c.

(** Case folding as the regex engine applies it under [re.IGNORECASE]: the
    ASCII letters, and the four other letters that fold onto one of them. *)
Definition ci_fold (c : N) : N :=
  if in_range 65 90 c then c + 32
  else if (c =? 0x130) || (c =? 0x131) then 105
  else if c =? 0x17f then 115
  else if c =? 0x212a then 107
  else c.

(** A literal character of a pattern compiled with [re.IGNORECASE]. *)
Definition lit (l : ascii) (c : N) : bool := ci_fold (cp l) =? ci_fold c.

(** [[A-Z]] under [re.IGNORECASE]. *)
Definition is_letter_ci (c : N) : bool := in_range 97 122 (ci_fold c).

(** [[0-9a-f]] under [re.IGNORECASE]. *)
Definition is_hex_ci (c : N) : bool :=
  is_ascii_digit c || in_range 97 102 (ci_fold c).

(** [str.lower] on the ASCII letters; every string it is applied to in this
    development is matched by a pattern of ASCII characters. *)
Definition lower_char (c : N) : N := if in_range 65 90 c then c + 32 else c.
Definition lower (s : pystr) : pystr := List.map lower_char s.

Fixpoint lstrip_by (p : N -> bool) (s : pystr) : pystr :=
  match s with
  | c :: s' => if p c then lstrip_by p s' else s
  | [] => []
  end.

Definition strip_by (p : N -> bool) (s : pystr) : pystr :=
  rev (lstrip_by p (rev (lstrip_by p s))).

(** [str.strip()]. *)
Definition strip (s : pystr) : pystr := strip_by is_space s.

(** The whitespace [float] ignores around a literal: the separators
    [0x1c]-[0x1f] are not part of it. *)
Definition is_float_space (c : N) : bool := is_space c && negb (in_range 28 31 c).

(** ** Exceptions *)

Inductive exn_kind :=
| ValueError | TypeError | ImportError | RequestException
| UserError | IntegrityError | PlaywrightError | OtherException.

(** An instance of a subclass of [Exception]; [message] is [str(e)]. *)
Record exn := Exn { kind : exn_kind; message : pystr }.

Inductive result (A : Type) :=
| Ok (a : A)
| Raise (e : exn).
Arguments Ok {A} a.
Arguments Raise {A} e.

Definition rbind {A B} (r : result A) (f : A -> result B) : result B :=
  match r with
  | Ok a => f a
  | Raise e => Raise e
  end.

#[global] Instance result_ret : MRet result := fun _ a => Ok a.
#[global] Instance result_bind : MBind result := fun _ _ f r => rbind r f.

Definition is_ok {A} (r : result A) : bool :=
  match r with
  | Ok _ => true
  | Raise _ => false
  end.

(** [try: body except Exception as e: handler(e)]. *)
Definition try_except {A} (body : result A) (handler : exn -> result A) : result A :=
  match body with
  | Ok a => Ok a
  | Raise e => handler e
  end.

(** ** The regex engine

    The patterns of the source are sequences of single characters, character
    classes under [*], [+], [+?] and [?], and capture groups around them.
    [re_match] is the backtracking matcher on such sequences: alternatives
    are tried in the order of the engine, greedy repetitions longest first,
    lazy ones shortest first. *)
Module Re.

Inductive atom :=
| Chr (p : N -> bool)
| Rep (greedy : bool) (lo : nat) (p : N -> bool)
| Opt (p : N -> bool)
| Open (g : nat)
| Close (g : nat).

Definition regex := list atom.

(** Positions where groups opened and closed, latest first. *)
Inductive mark := MOpen (g pos : nat) | MClose (g pos : nat).
Definition marks := list mark.

Definition cont := nat -> pystr -> marks -> option (nat * marks).

Fixpoint rep (k : cont) (greedy : bool) (lo : nat) (p : N -> bool)
    (pos : nat) (s : pystr) (ms : marks) {struct s} : option (nat * marks) :=
  match lo with
  | S lo' =>
      match s with
      | c :: s' => if p c then rep k greedy lo' p (S pos) s' ms else None
      | [] => None
      end
  | O =>
      if greedy then
        match s with
        | c :: s' =>
            if p c then
              match rep k greedy O p (S pos) s' ms with
              | Some r => Some r
              | None => k pos s ms
              end
            else k pos s ms
        | [] => k pos s ms
        end
      else
        match k pos s ms with
        | Some r => Some r
        | None =>
            match s with
            | c :: s' => if p c then rep k greedy O p (S pos) s' ms else None
            | [] => None
            end
        end
  end.

Fixpoint re_match (r : regex) (pos : nat) (s : pystr) (ms : marks)
    {struct r} : option (nat * marks) :=
  match r with
  | [] => Some (pos, ms)
  | Chr p :: r' =>
      match s with
      | c :: s' => if p c then re_match r' (S pos) s' ms else None
      | [] => None
      end
  | Rep greedy lo p :: r' => rep (re_match r') greedy lo p pos s ms
  | Opt p :: r' =>
      match s with
      | c :: s' =>
          if p c then
            match re_match r' (S pos) s' ms with
            | Some r => Some r
            | None => re_match r' pos s ms
            end
          else re_match r' pos s ms
      | [] => re_match r' pos s ms
      end
  | Open g :: r' => re_match r' pos s (MOpen g pos :: ms)
  | Close g :: r' => re_match r' pos s (MClose g pos :: ms)
  end.

(** A match object: where the match starts and ends, and the group marks. *)
Record match_obj := Match { m_start : nat; m_end : nat; m_marks : marks }.

(** Leftmost match at or after [pos]; [s] is the text from [pos] on. *)
Fixpoint search_from (r : regex) (pos : nat) (s : pystr) : option match_obj :=
  match re_match r pos s [] with
  | Some (e, ms) => Some (Match pos e ms)
  | None =>
      match s with
      | [] => None
      | _ :: s' => search_from r (S pos) s'
      end
  end.

(** [re.search(pattern, text)]. *)
Definition search (r : regex) (text : pystr) : option match_obj :=
  search_from r O text.

Fixpoint find_open (g : nat) (ms : marks) : option nat :=
  match ms with
  | MOpen g' p :: ms' => if Nat.eqb g g' then Some p else find_open g ms'
  | _ :: ms' => find_open g ms'
  | [] => None
  end.

Fixpoint find_close (g : nat) (ms : marks) : option nat :=
  match ms with
  | MClose g' p :: ms' => if Nat.eqb g g' then Some p else find_close g ms'
  | _ :: ms' => find_close g ms'
  | [] => None
  end.

(** [match.group(g)] on the text that was searched; group 0 is the whole
    match. Every group of the patterns below takes part in every match. *)
Definition group (text : pystr) (m : match_obj) (g : nat) : pystr :=
  match g with
  | O => slice text (m_start m) (m_end m)
  | _ =>
      match find_open g (m_marks m), find_close g (m_marks m) with
      | Some a, Some b => slice text a b
      | _, _ => []
      end
  end.

(** A literal word, matched case-insensitively. *)
Definition word (w : string) : regex :=
  List.map (fun a => Chr (lit a)) (list_ascii_of_string w).

Definition times (n : nat) (p : N -> bool) : regex := repeat (Chr p) n.

End Re.

(** ** Identifier extractor *)

(** [[0-9a-f]{8}-[0-9a-f]{4}-[0-9a-f]{4}-[0-9a-f]{4}-[0-9a-f]{12}], compiled
    with [re.IGNORECASE]. *)
Definition uuid_pattern : Re.regex :=
  Re.times 8 is_hex_ci ++ Re.word "-" ++ Re.times 4 is_hex_ci ++ Re.word "-"
  ++ Re.times 4 is_hex_ci ++ Re.word "-" ++ Re.times 4 is_hex_ci
  ++ Re.word "-" ++ Re.times 12 is_hex_ci.

(** [extract_uuid_from_url]; [None] is Python's [None]. *)
Definition extract_uuid_from_url (url : pystr) : option pystr :=
  match Re.search uuid_pattern url with
  | Some m => Some (lower (Re.group url m 0))
  | None => None
  end.

(** ** Values *)

(** A [float]: a finite double is the rational it denotes. *)
Inductive pyfloat :=
| Finite (q : Q)
| Infinity (negative : bool)
| NaN.

Definition float_of_Z (n : Z) : pyfloat := Finite (inject_Z n).

(** The double nearest to a natural number (ties to even), as [float] gives
    it for a string of decimal digits. *)
Definition nearest_double (n : Z) : pyfloat :=
  let bits := (Z.log2 n + 1)%Z in
  if (bits <=? 53)%Z then float_of_Z n
  else
    let k := (bits - 53)%Z in
    let q := Z.shiftr n k in
    let r := Z.land n (Z.ones k) in
    let half := Z.shiftl 1 (k - 1) in
    let q' := if (half <? r)%Z || ((r =? half)%Z && Z.odd q) then (q + 1)%Z else q in
    let v := Z.shiftl q' k in
    if (2 ^ 1024 <=? v)%Z then Infinity false else float_of_Z v.

(** [datetime.date]. *)
Record date := Date { year : N; month : N; day : N }.

(** What [response.json()] decodes to. A [JDict] lists the items of the
    dictionary, one per key. *)
Inductive json :=
| JNull
| JBool (b : bool)
| JInt (n : Z)
| JFloat (f : pyfloat)
| JStr (s : pystr)
| JList (l : list json)
| JDict (items : list (pystr * json)).

(** The values held by the dictionaries of the pipeline. *)
Inductive value :=
| VBool (b : bool)
| VInt (n : Z)
| VFloat (f : pyfloat)
| VStr (s : pystr)
| VDate (d : date)
| VJson (j : json).

Definition float_truthy (f : pyfloat) : bool :=
  match f with
  | Finite q => negb (Qnum q =? 0)%Z
  | _ => true
  end.

Definition json_truthy (j : json) : bool :=
  match j with
  | JNull => false
  | JBool b => b
  | JInt n => negb (n =? 0)%Z
  | JFloat f => float_truthy f
  | JStr s => match s with [] => false | _ => true end
  | JList l => match l with [] => false | _ => true end
  | JDict d => match d with [] => false | _ => true end
  end.

(** Truth value of [d.get(key)]: a missing key gives [None], which is false. *)
Definition truthy (v : option value) : bool :=
  match v with
  | None => false
  | Some (VBool b) => b
  | Some (VInt n) => negb (n =? 0)%Z
  | Some (VFloat f) => float_truthy f
  | Some (VStr s) => match s with [] => false | _ => true end
  | Some (VDate _) => true
  | Some (VJson j) => json_truthy j
  end.

(** ** The runtime's string functions

    Conversions whose full definition belongs to the interpreter are
    parameters of the development: [float] on literals other than strings of
    digits, [str.upper], [str] of a decoded JSON value, and [repr] of a
    string. *)
Record runtime := Runtime {
  float_literal : pystr -> result pyfloat;
  str_upper : pystr -> pystr;
  str_of_json : json -> pystr;
  str_repr : pystr -> pystr;
}.

Fixpoint digits_value (acc : Z) (s : pystr) : Z :=
  match s with
  | [] => acc
  | c :: s' =>
      digits_value (10 * acc + Z.of_N (default 0%N (digit_value c)))%Z s'
  end.

(** The [ValueError] of [float(s)]: the message ends with [repr(s)]. *)
Definition float_error (rt : runtime) (s : pystr) : exn :=
  Exn ValueError (py "could not convert string to float: " ++ str_repr rt s).

(** [float(s)]: surrounding whitespace is ignored; a string of decimal digits
    is that number; a string of digits and whitespace that is not of this
    form is rejected; anything else is the runtime's. *)
Definition py_float (rt : runtime) (s : pystr) : result pyfloat :=
  let t := strip_by is_float_space s in
  if forallb is_digit t then
    match t with
    | [] => Raise (float_error rt s)
    | _ => Ok (nearest_double (digits_value 0 t))
    end
  else if forallb (fun c => is_digit c || is_space c) t then Raise (float_error rt s)
  else float_literal rt s.

(** *** [datetime.strptime(s, '%d/%m/%Y').date()]

    On the strings the date pattern below captures: two digits, a slash, two
    digits, a slash, four digits. The day is [3[0-1]|[1-2]\d|0[1-9]], the
    month [1[0-2]|0[1-9]], the year [\d\d\d\d]; the one-character
    alternatives of the format cannot apply to two digits before a slash. *)
Definition strptime_day (a b : N) : option N :=
  if (a =? 51) && in_range 48 49 b then Some (30 + (b - 48))
  else if in_range 49 50 a then
    match digit_value b with
    | Some v => Some ((a - 48) * 10 + v)
    | None => None
    end
  else if (a =? 48) && in_range 49 57 b then Some (b - 48)
  else None.

Definition strptime_month (a b : N) : option N :=
  if (a =? 49) && in_range 48 50 b then Some (10 + (b - 48))
  else if (a =? 48) && in_range 49 57 b then Some (b - 48)
  else None.

Definition strptime_year (a b c d : N) : option N :=
  match digit_value a, digit_value b, digit_value c, digit_value d with
  | Some x, Some y, Some z, Some w => Some (x * 1000 + y * 100 + z * 10 + w)
  | _, _, _, _ => None
  end.

Definition is_leap (y : N) : bool :=
  (y mod 4 =? 0) && (negb (y mod 100 =? 0) || (y mod 400 =? 0)).

Definition days_in_month (y m : N) : N :=
  if m =? 2 then (if is_leap y then 29 else 28)
  else if (m =? 4) || (m =? 6) || (m =? 9) || (m =? 11) then 30
  else 31.

Definition strptime_mismatch (s : pystr) : exn :=
  Exn ValueError
    (py "time data '" ++ s ++ py "' does not match format '%d/%m/%Y'").

Definition strptime_dmy (s : pystr) : result date :=
  match s with
  | [d1; d2; s1; m1; m2; s2; y1; y2; y3; y4] =>
      if (s1 =? 47) && (s2 =? 47) then
        match strptime_day d1 d2, strptime_month m1 m2, strptime_year y1 y2 y3 y4 with
        | Some d, Some m, Some y =>
            if y =? 0 then Raise (Exn ValueError (py "year 0 is out of range"))
            else if d <=? days_in_month y m then Ok (Date y m d)
            else Raise (Exn ValueError (py "day is out of range for month"))
        | _, _, _ => Raise (strptime_mismatch s)
        end
      else Raise (strptime_mismatch s)
  | _ => Raise (strptime_mismatch s)
  end.

(** ** Content extractor *)

(** The bounds of the raw captures, in characters. *)
Definition text_limit : nat := 3000.
Definition html_limit : nat := 5000.

Definition is_newline (c : N) : bool := c =? 10.

(** [[A-Z0-9]], [[A-Z0-9\s\-\.&\']], [[A-Z0-9\-]] and [[\d\s]], the first
    three under [re.IGNORECASE]. *)
Definition alnum_ci (c : N) : bool := is_letter_ci c || is_ascii_digit c.
Definition name_class (c : N) : bool :=
  alnum_ci c || is_space c || (c =? 45) || (c =? 46) || (c =? 38) || (c =? 39).
Definition verif_class (c : N) : bool := alnum_ci c || (c =? 45).
Definition digit_or_space (c : N) : bool := is_digit c || is_space c.

(** [\s*\n*\s*], which follows every section label. *)
Definition label_gap : Re.regex :=
  [Re.Rep true 0 is_space; Re.Rep true 0 is_newline; Re.Rep true 0 is_space].

(** [LABEL:\s*\n*\s*([A-Z0-9\s\-\.&\']+?)\s*-\s*([A-Z0-9]+)] *)
Definition party_pattern (label : string) : Re.regex :=
  Re.word label ++ label_gap
  ++ [Re.Open 1; Re.Rep false 1 name_class; Re.Close 1;
      Re.Rep true 0 is_space; Re.Chr (lit "-"); Re.Rep true 0 is_space;
      Re.Open 2; Re.Rep true 1 alnum_ci; Re.Close 2].

Definition supplier_pattern : Re.regex := party_pattern "FOURNISSEUR:".
Definition client_pattern : Re.regex := party_pattern "CLIENT:".

(** [NUMERO DE FACTURE:\s*\n*\s*([A-Z0-9]+)] *)
Definition invoice_pattern : Re.regex :=
  Re.word "NUMERO DE FACTURE:" ++ label_gap
  ++ [Re.Open 1; Re.Rep true 1 alnum_ci; Re.Close 1].

(** [DATE DE FACTURATION:\s*\n*\s*(\d{2}/\d{2}/\d{4})] *)
Definition date_pattern : Re.regex :=
  Re.word "DATE DE FACTURATION:" ++ label_gap
  ++ [Re.Open 1] ++ Re.times 2 is_digit ++ Re.word "/" ++ Re.times 2 is_digit
  ++ Re.word "/" ++ Re.times 4 is_digit ++ [Re.Close 1].

(** [ID VERIFICATION:\s*\n*\s*([A-Z0-9\-]+)] *)
Definition verif_pattern : Re.regex :=
  Re.word "ID VERIFICATION:" ++ label_gap
  ++ [Re.Open 1; Re.Rep true 1 verif_class; Re.Close 1].

(** [MONTANT TTC:\s*\n*\s*([\d\s]+)\s*(?:F?CFA)] *)
Definition amount_pattern : Re.regex :=
  Re.word "MONTANT TTC:" ++ label_gap
  ++ [Re.Open 1; Re.Rep true 1 digit_or_space; Re.Close 1;
      Re.Rep true 0 is_space; Re.Opt (lit "F")] ++ Re.word "CFA".

Definition nbsp : N := 160.

(** [_extract_dgi_data_from_text(text_content, raw_html)]. *)
Definition _extract_dgi_data_from_text (rt : runtime)
    (text_content raw_html : pystr) : result (gmap string value) :=
  let data : gmap string value :=
    <["success" := VBool true]>
      (<["text_content" := VStr (take text_limit text_content)]>
         (<["raw_html" := VStr (match raw_html with
                                | [] => []
                                | _ => take html_limit raw_html
                                end)]> ∅)) in
  let data :=
    match Re.search supplier_pattern text_content with
    | Some m =>
        <["supplier_code_dgi" := VStr (strip (Re.group text_content m 2))]>
          (<["supplier_name" := VStr (strip (Re.group text_content m 1))]> data)
    | None => data
    end in
  let data :=
    match Re.search client_pattern text_content with
    | Some m =>
        <["customer_code_dgi" := VStr (strip (Re.group text_content m 2))]>
          (<["customer_name" := VStr (strip (Re.group text_content m 1))]> data)
    | None => data
    end in
  let data :=
    match Re.search invoice_pattern text_content with
    | Some m => <["invoice_number_dgi" := VStr (strip (Re.group text_content m 1))]> data
    | None => data
    end in
  data ←
    match Re.search date_pattern text_content with
    | Some m =>
        let date_str := Re.group text_content m 1 in
        d ← strptime_dmy date_str;
        mret (<["invoice_date" := VDate d]> data)
    | None => mret data
    end;
  let data :=
    match Re.search verif_pattern text_content with
    | Some m => <["verification_id" := VStr (strip (Re.group text_content m 1))]> data
    | None => data
    end in
  data ←
    match Re.search amount_pattern text_content with
    | Some m =>
        let amount_str :=
          strip (remove_char nbsp (remove_char 32 (Re.group text_content m 1))) in
        f ← py_float rt amount_str;
        mret (<["amount_ttc" := VFloat f]> data)
    | None => mret data
    end;
  mret data.

(** A runtime that knows ASCII only, for evaluating the pipeline on concrete
    inputs: [upper] maps the ASCII letters, [float] accepts digit strings
    alone, [str] of a JSON value is left empty, and [repr] escapes the
    backslash, the quote and the ASCII control characters. *)
Definition upper_char (c : N) : N := if in_range 97 122 c then c - 32 else c.

Definition hex_digit (n : N) : N := if n <? 10 then 48 + n else 87 + n.

(** One character of [repr(s)] between the quotes [quote]. *)
Definition repr_char (quote : N) (c : N) : pystr :=
  if c =? 92 then [92; 92]
  else if c =? quote then [92; quote]
  else if c =? 9 then [92; 116]
  else if c =? 10 then [92; 110]
  else if c =? 13 then [92; 114]
  else if (c <? 32) || (c =? 127) then [92; 120; hex_digit (c / 16); hex_digit (c mod 16)]
  else [c].

(** [repr(s)]: between double quotes when [s] holds a single quote and no
    double quote, between single quotes otherwise. *)
Definition ascii_repr (s : pystr) : pystr :=
  let quote := if existsb (N.eqb 39) s && negb (existsb (N.eqb 34) s) then 34 else 39 in
  [quote] ++ concat (List.map (repr_char quote) s) ++ [quote].

Definition ascii_runtime : runtime :=
  {| float_literal := fun s =>
       Raise (Exn ValueError (py "could not convert string to float: " ++ ascii_repr s));
     str_upper := List.map upper_char;
     str_of_json := fun _ => [];
     str_repr := ascii_repr |}.

Definition nl : string := String (ascii_of_nat 10) EmptyString.

Definition sample_dgi_content : pystr :=
  py ("VERIFICATION DE FACTURE" ++ nl ++ nl ++
      "FOURNISSEUR:" ++ nl ++ "SOCIETE ABC SARL - 2502298K" ++ nl ++ nl ++
      "CLIENT:" ++ nl ++ "ICP SA - 1234567M" ++ nl ++ nl ++
      "NUMERO DE FACTURE:" ++ nl ++ "FAC2024001234" ++ nl ++ nl ++
      "DATE DE FACTURATION:" ++ nl ++ "15/01/2024" ++ nl ++ nl ++
      "ID VERIFICATION:" ++ nl ++ "VER-2024-001234" ++ nl ++ nl ++
      "MONTANT TTC:" ++ nl ++ "1 677 566 FCFA" ++ nl).

Definition field (k : string) (r : result (gmap string value)) : option value :=
  match r with
  | Ok d => d !! k
  | Raise _ => None
  end.

(** ** Page fetcher, fast path *)

(** What [requests.get] returns: [json_body] is the outcome of
    [response.json()], which raises [ValueError] on a malformed body. *)
Record response := Response {
  status_code : Z;
  json_body : result json;
  text : pystr;
}.

(** The HTTP transport and the HTML parser. [requests_get n url] is the
    outcome of the [n]-th request of a run (counted from zero): a response or
    the exception raised (a timeout and a connection error are
    [RequestException]s). [soup_get_text html] is
    [BeautifulSoup(html, 'html.parser').get_text(separator='\n')]. *)
Record transport := Transport {
  requests_get : nat -> pystr -> result response;
  soup_get_text : pystr -> result pystr;
}.

Fixpoint json_get (key : pystr) (items : list (pystr * json)) : option json :=
  match items with
  | [] => None
  | (k, v) :: items' => if pystr_eqb k key then Some v else json_get key items'
  end.

(** [for key in keys: if key in json_data: data[field] = conv(json_data[key])] *)
Fixpoint copy_keys (conv : json -> result value) (field : string)
    (keys : list pystr) (items : list (pystr * json))
    (data : gmap string value) : result (gmap string value) :=
  match keys with
  | [] => mret data
  | key :: keys' =>
      match json_get key items with
      | Some v =>
          x ← conv v;
          copy_keys conv field keys' items (<[field := x]> data)
      | None => copy_keys conv field keys' items data
      end
  end.

Definition api_urls (uuid : pystr) : list pystr :=
  [ py "https://www.services.fne.dgi.gouv.ci/api/verification/" ++ uuid;
    py "https://www.services.fne.dgi.gouv.ci/api/v1/verification/" ++ uuid ].

(** The body of the inner [try] of the direct-API loop: [Ok (Some data)] is
    [return data], [Ok None] falls through to the next iteration. *)
Definition try_api (rt : runtime) (net : transport) (n : nat) (api_url : pystr)
    : result (option (gmap string value)) :=
  resp ← requests_get net n api_url;
  if (status_code resp =? 200)%Z then
    json_data ← json_body resp;
    match json_data with
    | JDict ((_ :: _) as items) =>
        let data : gmap string value :=
          <["text_content" := VStr (take text_limit (str_of_json rt json_data))]>
            (<["raw_html" := VStr []]> (<["success" := VBool true]> ∅)) in
        data ← copy_keys (fun v => mret (VJson v)) "supplier_name"
                 [py "supplier_name"; py "fournisseur"; py "supplierName"] items data;
        data ← copy_keys
                 (fun v => f ← py_float rt (remove_char 32 (str_of_json rt v));
                           mret (VFloat f))
                 "amount_ttc"
                 [py "amount_ttc"; py "montantTtc"; py "montant_ttc"; py "totalAmount"]
                 items data;
        data ← copy_keys (fun v => mret (VJson v)) "invoice_number_dgi"
                 [py "invoice_number"; py "invoiceNumber"; py "numero_facture"] items data;
        if truthy (data !! "supplier_name") || truthy (data !! "amount_ttc")
        then mret (Some data)
        else mret None
    | _ => mret None
    end
  else mret None.

(** [except (requests.exceptions.RequestException, ValueError): continue] *)
Definition inner_except_catches (e : exn) : bool :=
  match kind e with
  | RequestException | ValueError => true
  | _ => false
  end.

Fixpoint api_loop (rt : runtime) (net : transport) (n : nat) (urls : list pystr)
    : result (option (gmap string value)) :=
  match urls with
  | [] => mret None
  | api_url :: urls' =>
      match try_api rt net n api_url with
      | Ok (Some data) => Ok (Some data)
      | Ok None => api_loop rt net (S n) urls'
      | Raise e =>
          if inner_except_catches e then api_loop rt net (S n) urls' else Raise e
      end
  end.

Definition has_markers (rt : runtime) (text_content : pystr) : bool :=
  contains (py "FOURNISSEUR") (str_upper rt text_content)
  || contains (py "NUMERO DE FACTURE") (str_upper rt text_content).

(** The body of the outer [try] of [_fetch_dgi_with_requests]. *)
Definition fetch_with_requests_body (rt : runtime) (net : transport) (url : pystr)
    : result (option (gmap string value)) :=
  let uuid := extract_uuid_from_url url in
  direct ←
    match uuid with
    | Some ((_ :: _) as u) => api_loop rt net 0 (api_urls u)
    | _ => mret None
    end;
  match direct with
  | Some data => mret (Some data)
  | None =>
      let sent := match uuid with Some (_ :: _) => 2%nat | _ => 0%nat end in
      resp ← requests_get net sent url;
      if (status_code resp =? 200)%Z then
        text_content ← soup_get_text net (text resp);
        if has_markers rt text_content then
          data ← _extract_dgi_data_from_text rt text_content (text resp);
          mret (Some data)
        else mret None
      else mret None
  end.

(** [_fetch_dgi_with_requests(url)]: the body above under
    [except Exception: return None]. *)
Definition _fetch_dgi_with_requests (rt : runtime) (net : transport) (url : pystr)
    : result (option (gmap string value)) :=
  try_except (fetch_with_requests_body rt net url) (fun _ => mret None).

(** ** Page fetcher, render path *)

Inductive launch_event :=
| Launch (attempt : nat)
| Sleep (seconds : nat).

(** The loop [for attempt in range(1, max_retries + 1)] from [attempt] on,
    with [remaining] iterations left; the events are the launches attempted
    and the [time.sleep] calls, in order. After the loop, [raise last_error];
    raising [None] is a [TypeError]. *)
Fixpoint launch_attempts {B} (launch : nat -> result B)
    (max_retries attempt remaining : nat) (last_error : option exn)
    : list launch_event * result B :=
  match remaining with
  | O =>
      ([], match last_error with
           | Some e => Raise e
           | None => Raise (Exn TypeError (py "exceptions must derive from BaseException"))
           end)
  | S remaining' =>
      match launch attempt with
      | Ok browser => ([Launch attempt], Ok browser)
      | Raise e =>
          let waits :=
            if (attempt <? max_retries)%nat then [Sleep (attempt * 3)] else [] in
          let '(events, r) :=
            launch_attempts launch max_retries (S attempt) remaining' (Some e) in
          (Launch attempt :: waits ++ events, r)
      end
  end.

(** [_launch_playwright_browser(playwright_instance, max_retries)];
    [launch attempt] is the outcome of [chromium.launch] at that attempt. *)
Definition _launch_playwright_browser {B} (launch : nat -> result B)
    (max_retries : nat) : list launch_event * result B :=
  launch_attempts launch max_retries 1 max_retries None.

Definition default_max_retries : nat := 3.

(** The browser automation library. Closing the context and the browser
    swallows every exception and is not represented. *)
Record playwright := Playwright {
  import_sync_playwright : result unit;
  sync_playwright_enter : result unit;
  chromium_launch : nat -> result unit;
  new_context : result unit;
  new_page : result unit;
  goto : pystr -> result unit;
  wait_for_timeout : nat -> result unit;
  inner_text : nat -> result pystr;
  page_content : result pystr;
}.

(** [for attempt in range(max_attempts)]: wait, read the body text, stop as
    soon as a marker shows. *)
Fixpoint poll_body (rt : runtime) (pw : playwright) (attempt remaining : nat)
    (text_content : pystr) : result pystr :=
  match remaining with
  | O => mret text_content
  | S remaining' =>
      _ ← wait_for_timeout pw attempt;
      text_content ← inner_text pw attempt;
      if has_markers rt text_content then mret text_content
      else poll_body rt pw (S attempt) remaining' text_content
  end.

(** The browser session of [fetch_invoice_data_from_dgi]: what it reads, the
    body text last captured and the first characters of the markup. *)
Definition render_page (rt : runtime) (pw : playwright) (url : pystr)
    : result (pystr * pystr) :=
  _ ← import_sync_playwright pw;
  _ ← sync_playwright_enter pw;
  browser ← snd (_launch_playwright_browser (chromium_launch pw) 3);
  context ← new_context pw;
  page ← new_page pw;
  _ ← goto pw url;
  text_content ← poll_body rt pw 0 15 [];
  raw_html ← page_content pw;
  mret (text_content, take html_limit raw_html).

(** The [try] block of [fetch_invoice_data_from_dgi]: the session, then the
    extraction. *)
Definition render_path (rt : runtime) (pw : playwright) (url : pystr)
    : result (gmap string value) :=
  rendered ← render_page rt pw url;
  _extract_dgi_data_from_text rt (fst rendered) (snd rendered).

Definition failure (error : pystr) : gmap string value :=
  <["error" := VStr error]> (<["success" := VBool false]> ∅).

Definition crash_diagnostic (error_msg : pystr) : pystr :=
  py "Erreur: Le navigateur Chromium a crashé sur le serveur. Causes possibles: mémoire insuffisante, /dev/shm trop petit (Docker: ajouter --shm-size=256m), ou binaire Chromium corrompu (réinstaller: playwright install chromium). Détail: "
  ++ error_msg.

(** The [except ImportError] and [except Exception] clauses of
    [fetch_invoice_data_from_dgi]. *)
Definition render_handler (e : exn) : result (gmap string value) :=
  match kind e with
  | ImportError => mret (failure (py "Playwright non installé sur le serveur"))
  | _ =>
      let error_msg := message e in
      if contains (py "Target page, context or browser has been closed") error_msg
         || contains (py "SIGTRAP") error_msg
      then mret (failure (crash_diagnostic error_msg))
      else mret (failure (py "Erreur: " ++ error_msg))
  end.

(** [if requests_result and requests_result.get('success')]: a dictionary
    with a true [success] entry (such a dictionary is not empty). *)
Definition usable (requests_result : option (gmap string value)) : bool :=
  match requests_result with
  | Some data => truthy (data !! "success")
  | None => false
  end.

(** [fetch_invoice_data_from_dgi(url)]. *)
Definition fetch_invoice_data_from_dgi (rt : runtime) (net : transport)
    (pw : playwright) (url : pystr) : result (gmap string value) :=
  requests_result ← _fetch_dgi_with_requests rt net url;
  match requests_result with
  | Some data =>
      if usable requests_result then mret data
      else try_except (render_path rt pw url) render_handler
  | None => try_except (render_path rt pw url) render_handler
  end.

(** ** The record store *)

(** The [state] selection: ['draft'], ['done'], ['processed'], ['error']. *)
Inductive scan_state := Draft | Done | Processed | Error.

#[global] Instance scan_state_eq_dec : EqDecision scan_state.
Proof. solve_decision. Defined.

(** The fields of an [account.move] the pipeline reads back. *)
Record invoice := Invoice {
  inv_id : Z;
  inv_name : pystr;
  inv_state : pystr;
  amount_total : pyfloat;
  partner_name : pystr;
}.

(** An [invoice.scan.record]. The fields filled from the DGI dictionary hold
    what [dgi_data.get] gave, [None] when the key was missing. *)
Record scan_record := ScanRecord {
  rec_id : Z;
  reference : pystr;
  qr_uuid : pystr;
  qr_url : pystr;
  supplier_name : option value;
  supplier_code_dgi : option value;
  customer_name : option value;
  customer_code_dgi : option value;
  invoice_number_dgi : option value;
  invoice_date : option value;
  verification_id : option value;
  amount_ttc : value;
  raw_html : option value;
  invoice_id : option invoice;
  partner_id : option Z;
  state : scan_state;
  error_message : option value;
  duplicate_count : Z;
  last_duplicate_attempt : option Z;
  last_duplicate_user_id : option Z;
  scanned_by : Z;
  scan_date : Z;
  company_id : Z;
}.

(** What a call can observe of its surroundings: the acting user and company
    of the environment, the clock, the reference sequence and user names. *)
Record context := Context {
  env_user : Z;
  env_company : Z;
  now : Z;
  next_by_code : nat -> option pystr;
  user_name : Z -> pystr;
}.

(** The accounting collaborator behind [_create_invoice]: finding or creating
    the supplier, then journal, expense account, invoice, line and posting. *)
Record accounting := Accounting {
  get_or_create_supplier : scan_record -> result Z;
  post_invoice : scan_record -> Z -> result invoice;
}.

(** Calls to the collaborators, recorded in the order they are made. *)
Inductive event :=
| EFetch (url : pystr)
| EInvoice (record_id : Z).

(** The store: the records, newest first (the order of a search), the next
    identifier, the reference sequence, the posted messages and the calls
    made so far (latest first). *)
Record world := World {
  records : list scan_record;
  next_id : Z;
  sequence : nat;
  chatter : list (Z * pystr);
  events : list event;
}.

(** Code that reads and writes the store and may raise. *)
Definition M (A : Type) : Type := world -> result A * world.

#[global] Instance M_ret : MRet M := fun _ a w => (Ok a, w).
#[global] Instance M_bind : MBind M := fun _ _ f m w =>
  match m w with
  | (Ok a, w') => f a w'
  | (Raise e, w') => (Raise e, w')
  end.

Definition lift {A} (r : result A) : M A := fun w => (r, w).
Definition raise {A} (e : exn) : M A := fun w => (Raise e, w).

(** [try: body except Exception as e: handler(e)] on the store. *)
Definition try_M {A} (body : M A) (handler : exn -> M A) : M A := fun w =>
  match body w with
  | (Ok a, w') => (Ok a, w')
  | (Raise e, w') => handler e w'
  end.

Definition log (ev : event) : M unit := fun w =>
  (Ok tt, World (records w) (next_id w) (sequence w) (chatter w) (ev :: events w)).

Definition find_record (rid : Z) (l : list scan_record) : option scan_record :=
  List.find (fun r => (rec_id r =? rid)%Z) l.

Definition lookup_record (rid : Z) (w : world) : option scan_record :=
  find_record rid (records w).

(** Reading the fields of the one record [rid] ([ensure_one]). *)
Definition read (rid : Z) : M scan_record := fun w =>
  match lookup_record rid w with
  | Some r => (Ok r, w)
  | None => (Raise (Exn ValueError (py "Expected singleton: invoice.scan.record()")), w)
  end.

(** [record.write(...)]: [f] sets the written fields. *)
Definition write (rid : Z) (f : scan_record -> scan_record) : M unit := fun w =>
  (Ok tt,
   World (List.map (fun r => if (rec_id r =? rid)%Z then f r else r) (records w))
         (next_id w) (sequence w) (chatter w) (events w)).

Definition message_post (rid : Z) (body : pystr) : M unit := fun w =>
  (Ok tt, World (records w) (next_id w) (sequence w) ((rid, body) :: chatter w) (events w)).

(** The constraint [unique(qr_uuid, company_id)] of [_sql_constraints]. *)
Definition violates_qr_uuid_unique (vals : scan_record) (w : world) : bool :=
  existsb (fun r => pystr_eqb (qr_uuid r) (qr_uuid vals)
                    && (company_id r =? company_id vals)%Z) (records w).

(** [create(vals)]: the reference is drawn from the sequence, then the row is
    inserted under the constraints of the table. [vals] carries the given
    fields and the defaults of the others. *)
Definition create (cx : context) (vals : scan_record) : M scan_record := fun w =>
  let ref := match next_by_code cx (sequence w) with
             | Some ((_ :: _) as s) => s
             | _ => py "/"
             end in
  let w1 := World (records w) (next_id w) (S (sequence w)) (chatter w) (events w) in
  if violates_qr_uuid_unique vals w then
    (Raise (Exn IntegrityError
              (py "duplicate key value violates unique constraint invoice_scan_record_qr_uuid_unique")),
     w1)
  else
    let r := ScanRecord (next_id w) ref (qr_uuid vals) (qr_url vals)
               (supplier_name vals) (supplier_code_dgi vals) (customer_name vals)
               (customer_code_dgi vals) (invoice_number_dgi vals) (invoice_date vals)
               (verification_id vals) (amount_ttc vals) (raw_html vals)
               (invoice_id vals) (partner_id vals) (state vals) (error_message vals)
               (duplicate_count vals) (last_duplicate_attempt vals)
               (last_duplicate_user_id vals) (scanned_by vals) (scan_date vals)
               (company_id vals) in
    (Ok r, World (r :: records w) (next_id w + 1)%Z (S (sequence w)) (chatter w) (events w)).

(** ** Duplicate detector *)

Definition is_successful (s : scan_state) : bool :=
  match s with
  | Done | Processed => true
  | Draft | Error => false
  end.

(** [check_duplicate(qr_uuid)]: the first record of the search, if any. *)
Definition check_duplicate (cx : context) (uuid : pystr) (w : world)
    : option scan_record :=
  List.find (fun r => pystr_eqb (qr_uuid r) uuid
                      && is_successful (state r)
                      && (company_id r =? env_company cx)%Z) (records w).

(** ** Scan orchestrator *)

(** [str(n)] for an integer. *)
Definition str_of_Z (n : Z) : pystr := py (NilZero.string_of_int (Z.to_int n)).

(** [user_id or self.env.user.id] *)
Definition acting_user (cx : context) (user_id : option Z) : Z :=
  match user_id with
  | Some u => if (u =? 0)%Z then env_user cx else u
  | None => env_user cx
  end.

(** [v or d] on a field value. *)
Definition value_or (v : option value) (d : value) : value :=
  match v with
  | Some x => if truthy v then x else d
  | None => d
  end.

(** The [existing_record] entry of a [DUPLICATE] result. *)
Record existing_record := ExistingRecord {
  ex_id : Z;
  ex_reference : pystr;
  ex_supplier_name : value;
  ex_supplier_code_dgi : value;
  ex_invoice_number_dgi : value;
  ex_amount_ttc : value;
  ex_invoice_id : option Z;
  ex_invoice_name : option pystr;
  ex_scan_date : Z;
  ex_scanned_by : pystr;
  ex_duplicate_count : Z;
  ex_last_duplicate_attempt : option Z;
}.

Definition snapshot (cx : context) (existing : scan_record) : existing_record :=
  {| ex_id := rec_id existing;
     ex_reference := reference existing;
     ex_supplier_name := value_or (supplier_name existing) (VStr []);
     ex_supplier_code_dgi := value_or (supplier_code_dgi existing) (VStr []);
     ex_invoice_number_dgi := value_or (invoice_number_dgi existing) (VStr []);
     ex_amount_ttc := value_or (Some (amount_ttc existing)) (VInt 0);
     ex_invoice_id := inv_id <$> invoice_id existing;
     ex_invoice_name := inv_name <$> invoice_id existing;
     ex_scan_date := scan_date existing;
     ex_scanned_by := user_name cx (scanned_by existing);
     ex_duplicate_count := duplicate_count existing;
     ex_last_duplicate_attempt := last_duplicate_attempt existing |}.

(** The dictionary [process_qr_scan] returns, by outcome. *)
Inductive scan_result :=
| InvalidUrl
| Duplicate (count : Z) (existing : existing_record)
| DgiError (error : option value) (record_id : Z)
| InvoiceError (error : pystr) (record_id : Z)
| Created (record_id : Z) (record_reference : pystr) (inv : invoice).

Definition success (r : scan_result) : bool :=
  match r with
  | Created _ _ _ => true
  | _ => false
  end.

Definition error_code (r : scan_result) : option string :=
  match r with
  | InvalidUrl => Some "INVALID_URL"%string
  | Duplicate _ _ => Some "DUPLICATE"%string
  | DgiError _ _ => Some "DGI_ERROR"%string
  | InvoiceError _ _ => Some "INVOICE_ERROR"%string
  | Created _ _ _ => None
  end.

Definition set_duplicate (count : Z) (at_ : Z) (by_ : Z) (r : scan_record) : scan_record :=
  ScanRecord (rec_id r) (reference r) (qr_uuid r) (qr_url r) (supplier_name r)
    (supplier_code_dgi r) (customer_name r) (customer_code_dgi r)
    (invoice_number_dgi r) (invoice_date r) (verification_id r) (amount_ttc r)
    (raw_html r) (invoice_id r) (partner_id r) (state r) (error_message r)
    count (Some at_) (Some by_) (scanned_by r) (scan_date r) (company_id r).

Definition set_partner (partner : Z) (r : scan_record) : scan_record :=
  ScanRecord (rec_id r) (reference r) (qr_uuid r) (qr_url r) (supplier_name r)
    (supplier_code_dgi r) (customer_name r) (customer_code_dgi r)
    (invoice_number_dgi r) (invoice_date r) (verification_id r) (amount_ttc r)
    (raw_html r) (invoice_id r) (Some partner) (state r) (error_message r)
    (duplicate_count r) (last_duplicate_attempt r) (last_duplicate_user_id r)
    (scanned_by r) (scan_date r) (company_id r).

Definition set_invoice_done (i : invoice) (r : scan_record) : scan_record :=
  ScanRecord (rec_id r) (reference r) (qr_uuid r) (qr_url r) (supplier_name r)
    (supplier_code_dgi r) (customer_name r) (customer_code_dgi r)
    (invoice_number_dgi r) (invoice_date r) (verification_id r) (amount_ttc r)
    (raw_html r) (Some i) (partner_id r) Done (error_message r)
    (duplicate_count r) (last_duplicate_attempt r) (last_duplicate_user_id r)
    (scanned_by r) (scan_date r) (company_id r).

Definition set_error_message (msg : pystr) (r : scan_record) : scan_record :=
  ScanRecord (rec_id r) (reference r) (qr_uuid r) (qr_url r) (supplier_name r)
    (supplier_code_dgi r) (customer_name r) (customer_code_dgi r)
    (invoice_number_dgi r) (invoice_date r) (verification_id r) (amount_ttc r)
    (raw_html r) (invoice_id r) (partner_id r) (state r) (Some (VStr msg))
    (duplicate_count r) (last_duplicate_attempt r) (last_duplicate_user_id r)
    (scanned_by r) (scan_date r) (company_id r).

Definition set_error (msg : pystr) (r : scan_record) : scan_record :=
  ScanRecord (rec_id r) (reference r) (qr_uuid r) (qr_url r) (supplier_name r)
    (supplier_code_dgi r) (customer_name r) (customer_code_dgi r)
    (invoice_number_dgi r) (invoice_date r) (verification_id r) (amount_ttc r)
    (raw_html r) (invoice_id r) (partner_id r) Error (Some (VStr msg))
    (duplicate_count r) (last_duplicate_attempt r) (last_duplicate_user_id r)
    (scanned_by r) (scan_date r) (company_id r).

(** The values given to [create] for a failed fetch; the fields that are not
    given take their defaults. *)
Definition error_vals (cx : context) (uuid url : pystr) (user_id : option Z)
    (dgi_data : gmap string value) : scan_record :=
  {| rec_id := 0; reference := py "/"; qr_uuid := uuid; qr_url := url;
     supplier_name := None; supplier_code_dgi := None; customer_name := None;
     customer_code_dgi := None; invoice_number_dgi := None; invoice_date := None;
     verification_id := None; amount_ttc := VFloat (float_of_Z 0); raw_html := None;
     invoice_id := None; partner_id := None; state := Error;
     error_message := Some (default (VStr (py "Erreur inconnue")) (dgi_data !! "error"));
     duplicate_count := 0; last_duplicate_attempt := None;
     last_duplicate_user_id := None;
     scanned_by := acting_user cx user_id; scan_date := now cx;
     company_id := env_company cx |}.

(** [record_vals] of [process_qr_scan]. *)
Definition record_vals (cx : context) (uuid url : pystr) (user_id : option Z)
    (dgi_data : gmap string value) : scan_record :=
  {| rec_id := 0; reference := py "/"; qr_uuid := uuid; qr_url := url;
     supplier_name := dgi_data !! "supplier_name";
     supplier_code_dgi := dgi_data !! "supplier_code_dgi";
     customer_name := dgi_data !! "customer_name";
     customer_code_dgi := dgi_data !! "customer_code_dgi";
     invoice_number_dgi := dgi_data !! "invoice_number_dgi";
     invoice_date := dgi_data !! "invoice_date";
     verification_id := dgi_data !! "verification_id";
     amount_ttc := default (VInt 0) (dgi_data !! "amount_ttc");
     raw_html := dgi_data !! "raw_html";
     invoice_id := None; partner_id := None; state := Draft;
     error_message := None;
     duplicate_count := 0; last_duplicate_attempt := None;
     last_duplicate_user_id := None;
     scanned_by := acting_user cx user_id; scan_date := now cx;
     company_id := env_company cx |}.

(** [_create_invoice()] on the record [rid]. *)
Definition _create_invoice (acc : accounting) (rid : Z) : M invoice :=
  self ← read rid;
  match invoice_id self with
  | Some _ => raise (Exn UserError (py "Une facture existe déjà pour ce scan."))
  | None =>
      _ ← log (EInvoice rid);
      partner ← lift (get_or_create_supplier acc self);
      _ ← write rid (set_partner partner);
      self ← read rid;
      inv ← lift (post_invoice acc self partner);
      _ ← write rid (set_invoice_done inv);
      mret inv
  end.

(** The [try] around invoice creation at the end of [process_qr_scan]. *)
Definition create_invoice_or_error (acc : accounting) (record : scan_record)
    : M scan_result :=
  try_M
    (inv ← _create_invoice acc (rec_id record);
     mret (Created (rec_id record) (reference record) inv))
    (fun e =>
       _ ← write (rec_id record) (set_error (message e));
       mret (InvoiceError (py "Erreur lors de la création de la facture: " ++ message e)
                          (rec_id record))).

(** [process_qr_scan(qr_url, user_id)]. *)
Definition process_qr_scan (rt : runtime) (net : transport) (pw : playwright)
    (acc : accounting) (cx : context) (qr_url : pystr) (user_id : option Z)
    : M scan_result :=
  match extract_uuid_from_url qr_url with
  | Some ((_ :: _) as uuid) =>
      fun w =>
        match check_duplicate cx uuid w with
        | Some existing =>
            (_ ← write (rec_id existing)
                   (set_duplicate (duplicate_count existing + 1) (now cx)
                                  (acting_user cx user_id));
             existing ← read (rec_id existing);
             _ ← message_post (rec_id existing)
                   (py "Tentative de scan doublon #" ++ str_of_Z (duplicate_count existing)
                    ++ py " par " ++ user_name cx (acting_user cx user_id));
             mret (Duplicate (duplicate_count existing) (snapshot cx existing))) w
        | None =>
            (_ ← log (EFetch qr_url);
             dgi_data ← lift (fetch_invoice_data_from_dgi rt net pw qr_url);
             if negb (truthy (dgi_data !! "success")) then
               record ← create cx (error_vals cx uuid qr_url user_id dgi_data);
               mret (DgiError (dgi_data !! "error") (rec_id record))
             else
               record ← create cx (record_vals cx uuid qr_url user_id dgi_data);
               create_invoice_or_error acc record) w
        end
  | _ => mret InvalidUrl
  end.

(** [action_retry_create_invoice()] on the record [rid]; [Ok tt] is the
    method returning [None]. *)
Definition action_retry_create_invoice (acc : accounting) (rid : Z) : M unit :=
  self ← read rid;
  if bool_decide (state self = Error) && negb (bool_decide (is_Some (invoice_id self))) then
    try_M
      (_ ← _create_invoice acc rid; mret tt)
      (fun e =>
         _ ← write rid (set_error_message (message e));
         raise (Exn UserError (py "Erreur: " ++ message e)))
  else mret tt.

(** The replies of the API layer: [api_error(code, message, status)] and
    [api_response] with the created invoice. *)
Inductive api_reply :=
| ApiError (code : string) (msg : pystr) (status : Z)
| ApiSuccess (record : scan_record) (inv : invoice).

Definition state_name (s : scan_state) : pystr :=
  match s with
  | Draft => py "draft"
  | Done => py "done"
  | Processed => py "processed"
  | Error => py "error"
  end.

(** [retry_error(record_id)] of the mobile API, once the caller is
    authenticated. *)
Definition retry_error (acc : accounting) (record_id : Z) : M api_reply := fun w =>
  match lookup_record record_id w with
  | None => (Ok (ApiError "NOT_FOUND" (py "Enregistrement non trouvé") 404), w)
  | Some record =>
      if negb (bool_decide (state record = Error)) then
        (Ok (ApiError "INVALID_STATE"
               (py "L'enregistrement n'est pas en erreur (état: "
                ++ state_name (state record) ++ py ")") 400), w)
      else if bool_decide (is_Some (invoice_id record)) then
        (Ok (ApiError "ALREADY_PROCESSED" (py "Une facture existe déjà pour ce scan") 400), w)
      else
        try_M
          (inv ← _create_invoice acc record_id;
           record ← read record_id;
           mret (ApiSuccess record inv))
          (fun e =>
             _ ← write record_id
                   (set_error_message (py "Nouvelle tentative échouée: " ++ message e));
             mret (ApiError "RETRY_FAILED"
                     (py "Échec de la nouvelle tentative: " ++ message e) 400)) w
  end.

(** ** Searches *)

(** [search(domain)] in the order of the model, newest first, and
    [search_count(domain)]. *)
Definition search (domain : scan_record -> bool) (w : world) : list scan_record :=
  List.filter domain (records w).

Definition search_count (domain : scan_record -> bool) (w : world) : Z :=
  Z.of_nat (length (search domain w)).

(** The leaf [('company_id', '=', company.id)] of a domain. *)
Definition in_company (cx : context) (r : scan_record) : bool :=
  (company_id r =? env_company cx)%Z.

Definition state_is (s : scan_state) (r : scan_record) : bool :=
  bool_decide (state r = s).

(** ** Scan history *)

(** The [pagination] entry of a listing. *)
Record pagination := Pagination {
  page : Z;
  limit : Z;
  total_count : Z;
  total_pages : Z;
  has_next : bool;
  has_previous : bool;
}.

(** The domain of [get_history]: the company, and the state when a non-empty
    one is asked for. *)
Definition history_domain (cx : context) (state_arg : option pystr) (r : scan_record)
    : bool :=
  in_company cx r &&
  match state_arg with
  | Some ((_ :: _) as s) => pystr_eqb (state_name (state r)) s
  | _ => true
  end.

(** [get_history] of the mobile API, once the caller is authenticated.
    [page_arg] and [limit_arg] are the integers [int(data.get('page', 1))] and
    [int(data.get('limit', 20))], and [state_arg] is [data.get('state')]. The
    reply carries the records of the page, each formatted by
    [_format_scan_record], and the pagination. *)
Definition get_history (cx : context) (page_arg limit_arg : Z)
    (state_arg : option pystr) (w : world) : list scan_record * pagination :=
  let page := Z.max 1 page_arg in
  let limit := Z.min 100 (Z.max 1 limit_arg) in
  let domain := history_domain cx state_arg in
  let total_count := search_count domain w in
  let offset := ((page - 1) * limit)%Z in
  let records := take (Z.to_nat limit) (drop (Z.to_nat offset) (search domain w)) in
  (records,
   {| page := page; limit := limit; total_count := total_count;
      total_pages := ((total_count + limit - 1) / limit)%Z;
      has_next := (offset + limit <? total_count)%Z;
      has_previous := (1 <? page)%Z |}).

(** ** Statistics *)

(** [sum(xs)]: the items are added to [0] from the left, with the [+] of the
    interpreter. *)
Definition py_sum (add : value -> value -> value) (xs : list value) : value :=
  fold_left add xs (VInt 0).

Definition sum_Z (xs : list Z) : Z := fold_left Z.add xs 0%Z.

(** The reply of [get_stats]. *)
Record stats := Stats {
  total_scans : Z;
  successful_scans : Z;
  processed_scans : Z;
  unprocessed_scans : Z;
  error_scans : Z;
  duplicate_attempts : Z;
  records_with_duplicates : Z;
  total_amount : value;
  stats_currency : pystr;
}.

(** [get_stats] of the mobile API, once the caller is authenticated; [add] is
    the addition of amounts. *)
Definition get_stats (add : value -> value -> value) (cx : context) (w : world)
    : stats :=
  let successful_scans :=
    search_count (fun r => in_company cx r && is_successful (state r)) w in
  let processed_scans :=
    search_count (fun r => in_company cx r && state_is Processed r) w in
  let unprocessed_scans :=
    search_count (fun r => in_company cx r && state_is Done r) w in
  let error_scans :=
    search_count (fun r => in_company cx r && state_is Error r) w in
  let records_with_duplicates :=
    search (fun r => in_company cx r && (0 <? duplicate_count r)%Z) w in
  let total_duplicate_attempts :=
    sum_Z (List.map duplicate_count records_with_duplicates) in
  let total_scans := (successful_scans + total_duplicate_attempts + error_scans)%Z in
  let records := search (fun r => in_company cx r && is_successful (state r)) w in
  let total_amount := py_sum add (List.map amount_ttc records) in
  {| total_scans := total_scans;
     successful_scans := successful_scans;
     processed_scans := processed_scans;
     unprocessed_scans := unprocessed_scans;
     error_scans := error_scans;
     duplicate_attempts := total_duplicate_attempts;
     records_with_duplicates := Z.of_nat (length records_with_duplicates);
     total_amount := total_amount;
     stats_currency := py "XOF" |}.

(** ** Scanning, checking and reporting from the application *)

Definition dgi_host : pystr := py "services.fne.dgi.gouv.ci".

(** The [error] entry of the dictionary [process_qr_scan] returns. *)
Definition error_text (r : scan_result) : option value :=
  match r with
  | InvalidUrl => Some (VStr (py "URL invalide - Impossible d'extraire l'UUID"))
  | Duplicate _ _ => Some (VStr (py "Cette facture a déjà été scannée"))
  | DgiError error _ => error
  | InvoiceError error _ => Some (VStr error)
  | Created _ _ _ => None
  end.

(** The replies of [scan_qr_code]: [api_response(result)], or
    [api_error(code, message, status, data)] where [data], when given, holds
    the existing record and its duplicate count. *)
Inductive scan_reply :=
| ScanResponse (result : scan_result)
| ScanError (code : string) (msg : option value) (status : Z)
            (data : option (existing_record * Z)).

(** [scan_qr_code] of the mobile API for the authenticated [user];
    [qr_url_arg] is the string [data.get('qr_url', '')]. *)
Definition scan_qr_code (rt : runtime) (net : transport) (pw : playwright)
    (acc : accounting) (cx : context) (user : Z) (qr_url_arg : pystr)
    : M scan_reply :=
  let qr_url := strip qr_url_arg in
  match qr_url with
  | [] => mret (ScanError "VALIDATION_ERROR" (Some (VStr (py "URL du QR-code requise")))
                          400 None)
  | _ :: _ =>
      if negb (contains dgi_host qr_url) then
        mret (ScanError "INVALID_URL"
                (Some (VStr (py "URL non reconnue. Seules les factures DGI sont supportées.")))
                400 None)
      else
        result ← process_qr_scan rt net pw acc cx qr_url (Some user);
        if success result then mret (ScanResponse result)
        else
          let error_data :=
            match result with
            | Duplicate count existing => Some (existing, count)
            | _ => None
            end in
          mret (ScanError (default "INVOICE_ERROR"%string (error_code result))
                          (error_text result) 400 error_data)
  end.

(** The replies of [check_qr_code]; [CheckExists existing] carries the
    record that [_format_scan_record] formats. *)
Inductive check_reply :=
| CheckError (code : string) (msg : pystr) (status : Z)
| CheckExists (existing : scan_record)
| CheckNew (qr_uuid : pystr).

(** [check_qr_code] of the mobile API, once the caller is authenticated. *)
Definition check_qr_code (cx : context) (qr_url_arg : pystr) (w : world) : check_reply :=
  let qr_url := strip qr_url_arg in
  match qr_url with
  | [] => CheckError "VALIDATION_ERROR" (py "URL du QR-code requise") 400
  | _ :: _ =>
      match extract_uuid_from_url qr_url with
      | Some ((_ :: _) as uuid) =>
          match check_duplicate cx uuid w with
          | Some existing => CheckExists existing
          | None => CheckNew uuid
          end
      | _ => CheckError "INVALID_URL" (py "URL invalide - UUID non trouvé") 400
      end
  end.

(** The replies of [report_duplicate]. *)
Inductive report_reply :=
| ReportError (code : string) (msg : pystr) (status : Z)
| Reported (count : Z) (record : scan_record) (last_duplicate_user : pystr).

(** [report_duplicate] of the mobile API for the authenticated [user]. *)
Definition report_duplicate (cx : context) (user : Z) (qr_url_arg : pystr)
    : M report_reply := fun w =>
  let qr_url := strip qr_url_arg in
  match qr_url with
  | [] => (Ok (ReportError "VALIDATION_ERROR" (py "URL du QR-code requise") 400), w)
  | _ :: _ =>
      match extract_uuid_from_url qr_url with
      | Some ((_ :: _) as uuid) =>
          match check_duplicate cx uuid w with
          | None => (Ok (ReportError "NOT_FOUND" (py "Enregistrement non trouvé") 404), w)
          | Some existing =>
              (_ ← write (rec_id existing)
                     (set_duplicate (duplicate_count existing + 1) (now cx) user);
               existing ← read (rec_id existing);
               _ ← message_post (rec_id existing)
                     (py "Tentative de scan doublon #"
                      ++ str_of_Z (duplicate_count existing)
                      ++ py " signalée par " ++ user_name cx user
                      ++ py " (depuis le cache local)");
               mret (Reported (duplicate_count existing) existing (user_name cx user))) w
          end
      | _ => (Ok (ReportError "INVALID_URL" (py "URL invalide - UUID non trouvé") 400), w)
      end
  end.

(** ** Marking scans as processed *)

(** The columns [processed_by] and [processed_date] of a record. The scan
    pipeline neither reads nor writes them; they are kept beside the records,
    by record identifier, and a record without an entry has both empty. *)
Record processing := Processing {
  processed_by : Z;
  processed_date : Z;
}.

Record desk := Desk {
  store : world;
  processed : gmap Z processing;
}.

Definition set_state (s : scan_state) (r : scan_record) : scan_record :=
  ScanRecord (rec_id r) (reference r) (qr_uuid r) (qr_url r) (supplier_name r)
    (supplier_code_dgi r) (customer_name r) (customer_code_dgi r)
    (invoice_number_dgi r) (invoice_date r) (verification_id r) (amount_ttc r)
    (raw_html r) (invoice_id r) (partner_id r) s (error_message r)
    (duplicate_count r) (last_duplicate_attempt r) (last_duplicate_user_id r)
    (scanned_by r) (scan_date r) (company_id r).

(** The replies of the two marking endpoints; [Marked] carries the message
    and the record as [_format_scan_record] reads it after the write. *)
Inductive mark_reply :=
| MarkError (code : string) (msg : pystr) (status : Z)
| Marked (msg : pystr) (record : scan_record) (by_at : option processing).

(** [mark_processed(record_id)] of the mobile API for the authenticated
    [user]. *)
Definition mark_processed (cx : context) (user : Z) (record_id : Z) (d : desk)
    : mark_reply * desk :=
  match lookup_record record_id (store d) with
  | None => (MarkError "NOT_FOUND" (py "Enregistrement non trouvé") 404, d)
  | Some record =>
      if negb (state_is Done record) then
        (MarkError "INVALID_STATE"
           (py "Seuls les scans avec facture créée peuvent être marqués comme traités (état actuel: "
            ++ state_name (state record) ++ py ")") 400, d)
      else
        let w1 := snd (write record_id (set_state Processed) (store d)) in
        let by_at := Processing user (now cx) in
        let w2 := snd (message_post record_id
                         (py "Scan marqué comme traité par " ++ user_name cx user
                          ++ py " (depuis l'application mobile)") w1) in
        (Marked (py "Scan marqué comme traité") (set_state Processed record) (Some by_at),
         Desk w2 (<[record_id := by_at]> (processed d)))
  end.

(** [mark_unprocessed(record_id)] of the mobile API for the authenticated
    [user]. *)
Definition mark_unprocessed (cx : context) (user : Z) (record_id : Z) (d : desk)
    : mark_reply * desk :=
  match lookup_record record_id (store d) with
  | None => (MarkError "NOT_FOUND" (py "Enregistrement non trouvé") 404, d)
  | Some record =>
      if negb (state_is Processed record) then
        (MarkError "INVALID_STATE"
           (py "Seuls les scans traités peuvent être remis à 'Facture créée' (état actuel: "
            ++ state_name (state record) ++ py ")") 400, d)
      else
        let w1 := snd (write record_id (set_state Done) (store d)) in
        let w2 := snd (message_post record_id
                         (py "Scan remis à 'Facture créée' par " ++ user_name cx user
                          ++ py " (depuis l'application mobile)") w1) in
        (Marked (py "Scan remis à l'état non traité") (set_state Done record) None,
         Desk w2 (delete record_id (processed d)))
  end.

(** Reading a field of each record of a recordset, in its order; a record
    that is not in the table fails the read. *)
Fixpoint browse (self : list Z) (w : world) : result (list scan_record) :=
  match self with
  | [] => Ok []
  | rid :: rest =>
      match lookup_record rid w with
      | None => Raise (Exn OtherException (py "Record does not exist or has been deleted."))
      | Some r => rs ← browse rest w; Ok (r :: rs)
      end
  end.

(** [records.write(...)] on a recordset. *)
Definition write_all (rids : list Z) (f : scan_record -> scan_record) (w : world) : world :=
  World (List.map (fun r => if bool_decide (rec_id r ∈ rids) then f r else r) (records w))
        (next_id w) (sequence w) (chatter w) (events w).

(** [for record in records: record.message_post(body=...)]. *)
Definition post_all (rids : list Z) (body : pystr) (w : world) : world :=
  fold_left (fun w rid => snd (message_post rid body w)) rids w.

(** [action_mark_processed()] on the recordset [self]. *)
Definition action_mark_processed (cx : context) (self : list Z) (d : desk)
    : result bool * desk :=
  match browse self (store d) with
  | Raise e => (Raise e, d)
  | Ok rs =>
      match List.filter (state_is Done) rs with
      | [] => (Raise (Exn UserError
                        (py "Seuls les scans avec facture créée peuvent être marqués comme traités.")),
               d)
      | (_ :: _) as records =>
          let rids := List.map rec_id records in
          let w1 := write_all rids (set_state Processed) (store d) in
          let by_at := Processing (env_user cx) (now cx) in
          let w2 := post_all rids (py "Scan marqué comme traité par "
                                   ++ user_name cx (env_user cx)) w1 in
          (Ok true,
           Desk w2 (fold_left (fun p rid => <[rid := by_at]> p) rids (processed d)))
      end
  end.

(** [action_mark_unprocessed()] on the recordset [self]. *)
Definition action_mark_unprocessed (cx : context) (self : list Z) (d : desk)
    : result bool * desk :=
  match browse self (store d) with
  | Raise e => (Raise e, d)
  | Ok rs =>
      match List.filter (state_is Processed) rs with
      | [] => (Raise (Exn UserError
                        (py "Seuls les scans traités peuvent être remis à l'état 'Facture créée'.")),
               d)
      | (_ :: _) as records =>
          let rids := List.map rec_id records in
          let w1 := write_all rids (set_state Done) (store d) in
          let w2 := post_all rids (py "Scan remis à 'Facture créée' par "
                                   ++ user_name cx (env_user cx)) w1 in
          (Ok true,
           Desk w2 (fold_left (fun p rid => delete rid p) rids (processed d)))
      end
  end.

(** ** API tokens *)

(** The columns of [invoice.scanner.api.token] that the controller reads and
    writes once a token exists. *)
Record api_token := ApiToken {
  token_id : Z;
  token_user : Z;
  token_hash : pystr;
  expires_at : Z;
  is_active : bool;
  last_used : option Z;
}.

Definition set_last_used (at_ : Z) (t : api_token) : api_token :=
  ApiToken (token_id t) (token_user t) (token_hash t) (expires_at t) (is_active t)
           (Some at_).

Definition set_inactive (t : api_token) : api_token :=
  ApiToken (token_id t) (token_user t) (token_hash t) (expires_at t) false (last_used t).

(** [_verify_api_token(token)]: the user of the token, or [None] for
    [False]. [sha256] is [hashlib.sha256(...).hexdigest()] and [active] the
    [active] flag of a user; the tokens are in the order of a search. *)
Definition _verify_api_token (sha256 : pystr -> pystr) (active : Z -> bool)
    (cx : context) (token : pystr) (tokens : list api_token)
    : option Z * list api_token :=
  let hash := sha256 token in
  match List.find (fun t => pystr_eqb (token_hash t) hash
                            && (now cx <? expires_at t)%Z && is_active t) tokens with
  | Some token_record =>
      if active (token_user token_record) then
        (Some (token_user token_record),
         List.map (fun t => if (token_id t =? token_id token_record)%Z
                            then set_last_used (now cx) t else t) tokens)
      else (None, tokens)
  | None => (None, tokens)
  end.

Definition bearer : pystr := py "Bearer ".

(** What [require_auth] decides before the endpoint runs: the two refusals
    with status 401, or the user the endpoint runs for. *)
Inductive auth_result :=
| AuthRequired
| AuthInvalid
| AuthUser (user : Z).

Definition require_auth (sha256 : pystr -> pystr) (active : Z -> bool)
    (cx : context) (auth_header : pystr) (tokens : list api_token)
    : auth_result * list api_token :=
  if negb (starts_with bearer auth_header) then (AuthRequired, tokens)
  else
    match _verify_api_token sha256 active cx (drop 7 auth_header) tokens with
    | (Some user, tokens') => (AuthUser user, tokens')
    | (None, tokens') => (AuthInvalid, tokens')
    end.

(** [logout]: every token with the hash of the bearer token is made
    inactive; the reply is the same with or without a bearer token. *)
Definition logout (sha256 : pystr -> pystr) (auth_header : pystr)
    (tokens : list api_token) : list api_token :=
  if starts_with bearer auth_header then
    let hash := sha256 (drop 7 auth_header) in
    List.map (fun t => if pystr_eqb (token_hash t) hash then set_inactive t else t) tokens
  else tokens.

(** ** Retrying in bulk *)

(** One entry of [results]: the record, and the invoice or the error. *)
Inductive bulk_item :=
| BulkCreated (record_id : Z) (record_reference : pystr) (invoice_id : Z)
              (invoice_name : pystr)
| BulkFailed (record_id : Z) (record_reference : pystr) (error : pystr).

Definition item_record (i : bulk_item) : Z :=
  match i with
  | BulkCreated rid _ _ _ => rid
  | BulkFailed rid _ _ => rid
  end.

Definition item_success (i : bulk_item) : bool :=
  match i with
  | BulkCreated _ _ _ _ => true
  | BulkFailed _ _ _ => false
  end.

(** The body of the loop of [bulk_retry_errors] on one record; nothing the
    module writes changes a reference, which is read from the record as
    found. *)
Definition retry_one (acc : accounting) (record : scan_record) : M bulk_item :=
  try_M
    (invoice ← _create_invoice acc (rec_id record);
     mret (BulkCreated (rec_id record) (reference record) (inv_id invoice)
                       (inv_name invoice)))
    (fun e =>
       _ ← write (rec_id record)
             (set_error_message (py "Tentative groupée échouée: " ++ message e));
       mret (BulkFailed (rec_id record) (reference record) (message e))).

Fixpoint retry_each (acc : accounting) (records : list scan_record)
    : M (list bulk_item) :=
  match records with
  | [] => mret []
  | record :: rest =>
      item ← retry_one acc record;
      items ← retry_each acc rest;
      mret (item :: items)
  end.

Record bulk_summary := BulkSummary {
  total_processed : Z;
  successful : Z;
  failed : Z;
}.

(** The domain of [bulk_retry_errors]: error records of the company without
    invoice, among [record_ids] when some are given. *)
Definition bulk_retry_domain (cx : context) (record_ids : list Z) (r : scan_record)
    : bool :=
  in_company cx r && state_is Error r && negb (bool_decide (is_Some (invoice_id r)))
  && match record_ids with
     | [] => true
     | _ :: _ => bool_decide (rec_id r ∈ record_ids)
     end.

(** [bulk_retry_errors] of the mobile API, once the caller is authenticated.
    [record_ids] is the list [data.get('record_ids', [])], [max_records_arg]
    the integer [int(data.get('max_records', 10))], and [by_scan_date] the
    sort of the database for [order='scan_date asc'], which places records of
    equal date as it pleases. *)
Definition bulk_retry_errors (by_scan_date : list scan_record -> list scan_record)
    (acc : accounting) (cx : context) (record_ids : list Z) (max_records_arg : Z)
    : M (list bulk_item * bulk_summary) := fun w =>
  let max_records := Z.min 50 (Z.max 1 max_records_arg) in
  let records :=
    take (Z.to_nat max_records)
         (by_scan_date (search (bulk_retry_domain cx record_ids) w)) in
  (results ← retry_each acc records;
   let successful := Z.of_nat (length (List.filter item_success results)) in
   mret (results,
         {| total_processed := Z.of_nat (length results);
            successful := successful;
            failed := (Z.of_nat (length results) - successful)%Z |})) w.

(** ** Synchronising scans made offline *)

(** One entry of [results]: the refusal of an empty URL, or the dictionary of
    [process_qr_scan] with the URL and the time of the scan added. *)
Inductive sync_item :=
| SyncMissing (qr_url : pystr)
| SyncResult (qr_url : pystr) (scanned_at : json) (result : scan_result).

Definition sync_success (i : sync_item) : bool :=
  match i with
  | SyncMissing _ => false
  | SyncResult _ _ result => success result
  end.

Definition sync_duplicate (i : sync_item) : bool :=
  match i with
  | SyncMissing _ => false
  | SyncResult _ _ result => bool_decide (error_code result = Some "DUPLICATE"%string)
  end.

(** The loop of [sync_offline_scans]; a scan is the pair of
    [scan.get('qr_url', '')] and [scan.get('scanned_at')]. *)
Fixpoint sync_each (rt : runtime) (net : transport) (pw : playwright)
    (acc : accounting) (cx : context) (user : Z) (scans : list (pystr * json))
    : M (list sync_item) :=
  match scans with
  | [] => mret []
  | (qr_url_arg, scanned_at) :: rest =>
      match strip qr_url_arg with
      | [] =>
          items ← sync_each rt net pw acc cx user rest;
          mret (SyncMissing [] :: items)
      | (_ :: _) as qr_url =>
          result ← process_qr_scan rt net pw acc cx qr_url (Some user);
          items ← sync_each rt net pw acc cx user rest;
          mret (SyncResult qr_url scanned_at result :: items)
      end
  end.

Record sync_summary := SyncSummary {
  sync_total : Z;
  sync_successful : Z;
  sync_duplicates : Z;
  sync_errors : Z;
}.

Inductive sync_reply :=
| SyncError (code : string) (msg : pystr) (status : Z)
| Synced (results : list sync_item) (summary : sync_summary).

(** [sync_offline_scans] of the mobile API for the authenticated [user]. *)
Definition sync_offline_scans (rt : runtime) (net : transport) (pw : playwright)
    (acc : accounting) (cx : context) (user : Z) (scans : list (pystr * json))
    : M sync_reply :=
  match scans with
  | [] => mret (SyncError "VALIDATION_ERROR" (py "Liste de scans vide") 400)
  | _ :: _ =>
      if (50 <? length scans)%nat then
        mret (SyncError "LIMIT_EXCEEDED" (py "Maximum 50 scans par synchronisation") 400)
      else
        results ← sync_each rt net pw acc cx user scans;
        let successful := Z.of_nat (length (List.filter sync_success results)) in
        let duplicates := Z.of_nat (length (List.filter sync_duplicate results)) in
        mret (Synced results
                {| sync_total := Z.of_nat (length results);
                   sync_successful := successful;
                   sync_duplicates := duplicates;
                   sync_errors := (Z.of_nat (length results) - successful - duplicates)%Z |})
  end.

(** ** Dashboard *)

(** Dates are counted in days and datetimes in seconds, from the same
    origin. What the dashboard takes from its surroundings: the date of the
    day, the label [day.strftime('%d/%m')] of a date, and the rows of the
    query on suppliers for a company and a starting datetime (the query may
    fail). *)
Record calendar := Calendar {
  today : Z;
  day_label : Z -> pystr;
  top_suppliers_rows : Z -> Z -> result (list (pystr * Z));
}.

(** [datetime.combine(day, datetime.min.time())], and
    [datetime.combine(day, datetime.max.time())] to the second, as
    [fields.Datetime.to_string] writes it. *)
Definition day_start (day : Z) : Z := (day * 86400)%Z.
Definition day_end (day : Z) : Z := (day * 86400 + 86399)%Z.

Inductive period := PDay | PWeek | PMonth | PYear.

(** The period asked for; anything but the four names is a month. *)
Definition period_of (arg : pystr) : period :=
  if pystr_eqb arg (py "day") then PDay
  else if pystr_eqb arg (py "week") then PWeek
  else if pystr_eqb arg (py "year") then PYear
  else PMonth.

Definition period_days (p : period) : Z :=
  match p with
  | PDay => 0
  | PWeek => 7
  | PMonth => 30
  | PYear => 365
  end%Z.

(** The seven figures of [stats] and of [all_time_stats]. *)
Record dash_figures := DashFigures {
  ds_total_scans : Z;
  ds_successful_scans : Z;
  ds_processed_scans : Z;
  ds_duplicate_attempts : Z;
  ds_records_with_duplicates : Z;
  ds_error_scans : Z;
  ds_total_amount : value;
}.

(** The figures over the records of the company that [within] lets
    through. *)
Definition dash_figures_of (add : value -> value -> value) (cx : context)
    (within : scan_record -> bool) (w : world) : dash_figures :=
  let base r := in_company cx r && within r in
  let done_scans := search_count (fun r => base r && is_successful (state r)) w in
  let processed_scans := search_count (fun r => base r && state_is Processed r) w in
  let error_scans := search_count (fun r => base r && state_is Error r) w in
  let records_with_duplicates :=
    search (fun r => base r && (0 <? duplicate_count r)%Z) w in
  let duplicate_attempts := sum_Z (List.map duplicate_count records_with_duplicates) in
  let total_scans := (done_scans + duplicate_attempts + error_scans)%Z in
  let successful_records := search (fun r => base r && is_successful (state r)) w in
  {| ds_total_scans := total_scans;
     ds_successful_scans := done_scans;
     ds_processed_scans := processed_scans;
     ds_duplicate_attempts := duplicate_attempts;
     ds_records_with_duplicates := Z.of_nat (length records_with_duplicates);
     ds_error_scans := error_scans;
     ds_total_amount := py_sum add (List.map amount_ttc successful_records) |}.

(** One of [recent_scans]. *)
Record recent_scan := RecentScan {
  recent_id : Z;
  recent_reference : pystr;
  nom_fournisseur : value;
  montant_ttc : value;
  recent_state : pystr;
  recent_duplicate_count : Z;
}.

Definition recent_scan_of (r : scan_record) : recent_scan :=
  {| recent_id := rec_id r;
     recent_reference := reference r;
     nom_fournisseur := value_or (supplier_name r) (VStr (py "N/A"));
     montant_ttc := value_or (Some (amount_ttc r)) (VInt 0);
     recent_state := match state r with
                     | Processed => py "processed"
                     | Done => py "verified"
                     | Error => py "error"
                     | Draft => py "pending"
                     end;
     recent_duplicate_count := duplicate_count r |}.

Record chart := Chart {
  chart_labels : list pystr;
  chart_scans : list Z;
  chart_verified : list Z;
}.

Definition month_labels : list pystr :=
  List.map py [ "Jan"; "Fév"; "Mar"; "Avr"; "Mai"; "Jun"; "Jul"; "Aoû"; "Sep"; "Oct";
                "Nov"; "Déc" ]%string.

(** The days of the chart of a week or a month: [today - days], ..., [today]. *)
Definition chart_days (cal : calendar) (days : nat) : list Z :=
  List.map (fun i => (today cal - Z.of_nat i)%Z) (rev (seq 0 (S days))).

Definition on_day (day : Z) (r : scan_record) : bool :=
  (day_start day <=? scan_date r)%Z && (scan_date r <=? day_end day)%Z.

Record dashboard := Dashboard {
  dash_stats : dash_figures;
  dash_all_time_stats : dash_figures;
  dash_recent_scans : list recent_scan;
  dash_top_suppliers : list (pystr * Z);
  dash_chart : chart;
}.

(** [get_dashboard_stats(date_start, date_end, period)]; the two dates are
    not read. *)
Definition get_dashboard_stats (add : value -> value -> value) (cal : calendar)
    (cx : context) (period_arg : pystr) (w : world) : dashboard :=
  let period := period_of period_arg in
  let date_from := (today cal - period_days period)%Z in
  let date_from_dt := day_start date_from in
  let in_period r := (date_from_dt <=? scan_date r)%Z in
  let stats := dash_figures_of add cx in_period w in
  let all_time := dash_figures_of add cx (fun _ => true) w in
  let recent_scans := take 5 (search (in_company cx) w) in
  let top_suppliers :=
    match top_suppliers_rows cal (env_company cx) date_from_dt with
    | Ok rows => List.map (fun row => (match fst row with
                                       | [] => py "Non défini"
                                       | _ :: _ => fst row
                                       end, snd row)) rows
    | Raise _ => []
    end in
  let daily (days : nat) :=
    let ds := chart_days cal days in
    {| chart_labels := List.map (day_label cal) ds;
       chart_scans :=
         List.map (fun day => search_count (fun r => in_company cx r && on_day day r) w) ds;
       chart_verified :=
         List.map (fun day => search_count (fun r => in_company cx r && on_day day r
                                                     && state_is Done r) w) ds |} in
  {| dash_stats := stats;
     dash_all_time_stats := all_time;
     dash_recent_scans := List.map recent_scan_of recent_scans;
     dash_top_suppliers := top_suppliers;
     dash_chart :=
       match period with
       | PWeek => daily 7%nat
       | PMonth => daily 30%nat
       | PDay => {| chart_labels := [py "Aujourd'hui"];
                    chart_scans := [ds_total_scans stats];
                    chart_verified := [ds_successful_scans stats] |}
       | PYear => {| chart_labels := month_labels;
                     chart_scans := repeat 0%Z 12;
                     chart_verified := repeat 0%Z 12 |}
       end |}.

(** * Vocabulary of the properties, and concrete scenarios *)

(** ** The identifier, as the specification words it *)

(** A hexadecimal digit in either case, as the specification words it. *)
Definition is_hex (c : N) : bool :=
  in_range 48 57 c || in_range 97 102 c || in_range 65 70 c.

(** [s] starts with one character of each class of [ps], in order. *)
Fixpoint prefix_in (ps : list (N -> bool)) (s : pystr) : bool :=
  match ps, s with
  | [], _ => true
  | p :: ps', c :: s' => p c && prefix_in ps' s'
  | _ :: _, [] => false
  end.

(** Five groups of 8, 4, 4, 4 and 12 hexadecimal digits, joined by hyphens. *)
Definition uuid_shape : list (N -> bool) :=
  let hyphen := fun c => c =? 45 in
  repeat is_hex 8 ++ [hyphen] ++ repeat is_hex 4 ++ [hyphen] ++ repeat is_hex 4
  ++ [hyphen] ++ repeat is_hex 4 ++ [hyphen] ++ repeat is_hex 12.

Definition is_uuid (u : pystr) : bool :=
  (length u =? 36)%nat && prefix_in uuid_shape u.

Definition contains_uuid (url : pystr) : Prop :=
  exists pre u post, url = pre ++ u ++ post /\ is_uuid u = true.

Definition uuid_pattern_classes : list (N -> bool) :=
  repeat is_hex_ci 8 ++ [lit "-"] ++ repeat is_hex_ci 4 ++ [lit "-"]
  ++ repeat is_hex_ci 4 ++ [lit "-"] ++ repeat is_hex_ci 4 ++ [lit "-"]
  ++ repeat is_hex_ci 12.

Definition spec_url : pystr := py "https://x/019BD62C-467E-7000-82AC-45C8389C7F05".

(** ** Transports *)

(** A transport on which every request times out. *)
Definition dead_transport : transport :=
  {| requests_get := fun _ _ => Raise (Exn RequestException (py "Read timed out."));
     soup_get_text := fun html => Ok html |}.

(** A transport that answers 200 to everything with a body that is not JSON
    and with the given page. *)
Definition page_transport (page : pystr) : transport :=
  {| requests_get := fun _ _ =>
       Ok (Response 200 (Raise (Exn ValueError (py "Expecting value"))) page);
     soup_get_text := fun html => Ok html |}.

(** ** Launch schedules *)

Definition is_launch (ev : launch_event) : bool :=
  match ev with
  | Launch _ => true
  | Sleep _ => false
  end.

Definition launches (evs : list launch_event) : nat :=
  length (List.filter is_launch evs).

(** Attempts [from], [from + 1], ... fail [n] times in a row, each followed
    by a wait of three seconds times its number. *)
Fixpoint failed_attempts (from n : nat) : list launch_event :=
  match n with
  | O => []
  | S n' => Launch from :: Sleep (from * 3) :: failed_attempts (S from) n'
  end.

(** The events of a run whose last launch is attempt [k]. *)
Definition launch_schedule (k : nat) : list launch_event :=
  failed_attempts 1 (k - 1) ++ [Launch k].

Definition fails {B} (r : result B) : Prop := exists e, r = Raise e.

(** A browser that crashes at the first two launches and starts at the
    third. *)
Definition third_time_lucky (attempt : nat) : result unit :=
  if (attempt <? 3)%nat then Raise (Exn PlaywrightError (py "SIGTRAP")) else Ok tt.

(** ** Shapes of text *)

(** The next character, if any, is not in the class. *)
Definition stops (p : N -> bool) (s : pystr) : Prop :=
  match s with
  | [] => True
  | c :: _ => p c = false
  end.

(** No position of [s] holds a character of [p] followed by one of [q]. *)
Fixpoint no_pair (p q : N -> bool) (s : pystr) : bool :=
  match s with
  | [] => true
  | c :: s' =>
      negb (p c && match s' with d :: _ => q d | [] => false end) && no_pair p q s'
  end.

(** ** Written amounts *)

(** The characters of a written amount: an ASCII digit, a space or a
    non-breaking space. *)
Definition amount_char (c : N) : bool :=
  is_ascii_digit c || (c =? 32) || (c =? nbsp).

(** The characters between the label and the amount: a space or a newline. *)
Definition gap_char (c : N) : bool := (c =? 32) || (c =? 10).

Definition plain (c : N) : bool := amount_char c || gap_char c.

(** The text of an amount section: the label, a gap, the written amount
    starting with the digit [d0], and the unit. *)
Definition amount_text (ws : pystr) (d0 : N) (rest unit : pystr) : pystr :=
  py "MONTANT TTC:" ++ ws ++ d0 :: rest ++ unit.

Definition is_unit (unit : pystr) : Prop := unit = py "FCFA" \/ unit = py "CFA".

(** The number an amount is written as: its ASCII digits, read in base ten. *)
Definition written_number (amount : pystr) : Z :=
  digits_value 0 (List.filter is_ascii_digit amount).

(** A written amount: the gap after the label, the first digit, the rest of
    the amount and the unit. It is well formed when the gap is made of spaces
    and newlines, the amount of ASCII digits, spaces and non-breaking spaces,
    and the unit is one of the two spellings. *)
Record writing := Writing {
  gap : pystr;
  first_digit : N;
  more : pystr;
  currency : pystr;
}.

Definition well_formed (a : writing) : Prop :=
  forallb gap_char (gap a) = true /\ is_ascii_digit (first_digit a) = true /\
  forallb amount_char (more a) = true /\ is_unit (currency a).

Definition text_of (a : writing) : pystr :=
  amount_text (gap a) (first_digit a) (more a) (currency a).

Definition digits_of (a : writing) : pystr :=
  List.filter is_ascii_digit (first_digit a :: more a).

Definition spaced : writing := Writing (py " ") 49 (py " 677 566 ") (py "FCFA").
Definition unbroken : writing :=
  Writing (py " ") 49 ([nbsp] ++ py "677" ++ [nbsp] ++ py "566 ") (py "CFA").
Definition solid : writing := Writing (py " ") 49 (py "677566 ") (py "FCFA").

(** ** A page with an impossible date *)

Definition invalid_date_page : pystr :=
  py ("FOURNISSEUR:" ++ nl ++ "SOCIETE ABC SARL - 2502298K" ++ nl ++
      "DATE DE FACTURATION:" ++ nl ++ "99/99/2024" ++ nl ++
      "MONTANT TTC:" ++ nl ++ "1 677 566 FCFA").

(** ** Well-formed stores *)

(** Record identifiers are primary keys, and every one was handed out. *)
Definition store_ok (w : world) : Prop :=
  NoDup (List.map rec_id (records w)) /\
  Forall (fun r => (rec_id r < next_id w)%Z) (records w).

Definition ids (w : world) : list Z := List.map rec_id (records w).

(** ** A concrete deployment, for evaluating scenarios *)

Definition cx0 : context :=
  {| env_user := 2; env_company := 1; now := 1700000000;
     next_by_code := fun n => Some (py "SCAN/" ++ str_of_Z (Z.of_nat (S n)));
     user_name := fun _ => py "Scanner" |}.

Definition sample_invoice : invoice :=
  Invoice 100 (py "BILL/2024/0001") (py "posted") (float_of_Z 1677566)
          (py "SOCIETE ABC SARL").

Definition good_accounting : accounting :=
  {| get_or_create_supplier := fun _ => Ok 7%Z;
     post_invoice := fun _ _ => Ok sample_invoice |}.

Definition no_journal : exn := Exn UserError (py "Aucun journal d'achats configuré").

Definition failing_accounting : accounting :=
  {| get_or_create_supplier := fun _ => Ok 7%Z;
     post_invoice := fun _ _ => Raise no_journal |}.

(** A server on which the browser automation library is not installed. *)
Definition no_browser : playwright :=
  let missing {A} : result A := Raise (Exn ImportError (py "No module named 'playwright'")) in
  {| import_sync_playwright := missing; sync_playwright_enter := missing;
     chromium_launch := fun _ => missing; new_context := missing;
     new_page := missing; goto := fun _ => missing;
     wait_for_timeout := fun _ => missing; inner_text := fun _ => missing;
     page_content := missing |}.

Definition sample_url : pystr :=
  py "https://www.services.fne.dgi.gouv.ci/fr/verification/019bd62c-467e-7000-82ac-45c8389c7f05".
Definition sample_uuid : pystr := py "019bd62c-467e-7000-82ac-45c8389c7f05".

(** The verification page is served rendered. *)
Definition sample_net : transport := page_transport sample_dgi_content.

Definition w_empty : world := World [] 1 0 [] [].

(** The store after a first, successful scan of the sample URL. *)
Definition w_scanned : world :=
  Eval vm_compute in
    snd (process_qr_scan ascii_runtime sample_net no_browser good_accounting cx0
           sample_url (Some 5%Z) w_empty).

(** The exception of [_create_invoice] on a record that has its invoice. *)
Definition already_invoiced : exn :=
  Exn UserError (py "Une facture existe déjà pour ce scan.").

(** What the fetch of the sample URL gives when the page is served rendered. *)
Definition sample_data : gmap string value :=
  match fetch_invoice_data_from_dgi ascii_runtime sample_net no_browser sample_url with
  | Ok d => d
  | Raise _ => ∅
  end.

(** The store after a first scan of the sample URL on which every request
    times out and no browser is available. *)
Definition w_failed : world :=
  Eval vm_compute in
    snd (process_qr_scan ascii_runtime dead_transport no_browser good_accounting cx0
           sample_url (Some 5%Z) w_empty).

(** The store after a scan of the sample URL whose invoice creation fails
    for want of a journal. *)
Definition w_invoice_failed : world :=
  Eval vm_compute in
    snd (process_qr_scan ascii_runtime sample_net no_browser failing_accounting cx0
           sample_url (Some 5%Z) w_empty).

(** A browser that renders a page on which the invoice never shows. *)
Definition blank_browser : playwright :=
  {| import_sync_playwright := Ok tt; sync_playwright_enter := Ok tt;
     chromium_launch := fun _ => Ok tt; new_context := Ok tt; new_page := Ok tt;
     goto := fun _ => Ok tt; wait_for_timeout := fun _ => Ok tt;
     inner_text := fun _ => Ok (py "Chargement...");
     page_content := Ok (py "<html><body>Chargement...</body></html>") |}.

(** A browser that renders the page with the impossible date. *)
Definition invalid_date_html : pystr := py "<html><body>99/99/2024</body></html>".
Definition invalid_date_browser : playwright :=
  {| import_sync_playwright := Ok tt; sync_playwright_enter := Ok tt;
     chromium_launch := fun _ => Ok tt; new_context := Ok tt; new_page := Ok tt;
     goto := fun _ => Ok tt; wait_for_timeout := fun _ => Ok tt;
     inner_text := fun _ => Ok invalid_date_page;
     page_content := Ok invalid_date_html |}.

(** What that browser reads: the body text of the last poll and the markup. *)
Definition blank_text : pystr := py "Chargement...".
Definition blank_html : pystr := py "<html><body>Chargement...</body></html>".

(** What the extractor gives on it. *)
Definition blank_data : gmap string value :=
  match _extract_dgi_data_from_text ascii_runtime blank_text blank_html with
  | Ok d => d
  | Raise _ => ∅
  end.

(** ** Counting scan actions *)

(** What one record adds to the [total_scans] of its company: one when it is
    done or processed, one when it is in error, and its duplicate attempts. *)
Definition scan_weight (cx : context) (r : scan_record) : Z :=
  if in_company cx r then
    ((if is_successful (state r) then 1 else 0)
     + (if (0 <? duplicate_count r)%Z then duplicate_count r else 0)
     + (if state_is Error r then 1 else 0))%Z
  else 0%Z.

Definition tally (cx : context) (l : list scan_record) : Z :=
  sum_Z (List.map (scan_weight cx) l).

(** Counters only go up from zero. *)
Definition counts_ok (w : world) : Prop :=
  Forall (fun r => (0 <= duplicate_count r)%Z) (records w).

(** The counting figures of the statistics, and what one record adds to
    each: successful, processed, unprocessed and error scans, records with
    duplicates, duplicate attempts. *)
Definition figures (s : stats) : list Z :=
  [ successful_scans s; processed_scans s; unprocessed_scans s; error_scans s;
    records_with_duplicates s; duplicate_attempts s ].

Definition one_if (b : bool) : Z := if b then 1%Z else 0%Z.

Definition record_figures (cx : context) (r : scan_record) : list Z :=
  let dup := (0 <? duplicate_count r)%Z in
  List.map (fun x => if in_company cx r then x else 0%Z)
    [ one_if (is_successful (state r)); one_if (state_is Processed r);
      one_if (state_is Done r); one_if (state_is Error r); one_if dup;
      if dup then duplicate_count r else 0%Z ].

Definition add_each (a b : list Z) : list Z := zip_with Z.add a b.
Definition sub_each (a b : list Z) : list Z := zip_with Z.sub a b.

(** ** Recordsets *)

(** The records of the recordset [self] that are in state [s]: those an
    action on the records of that state applies to. *)
Definition selected_in (s : scan_state) (self : list Z) (r : scan_record) : bool :=
  bool_decide (rec_id r ∈ self) && state_is s r.

(** ** Operations of the module, as steps on the store *)

(** One call of an operation that writes the records, with any arguments
    and whatever the collaborators do; the marking endpoints act on the
    records of their desk. *)
Inductive step : world -> world -> Prop :=
| step_scan rt net pw acc cx url user_id w :
    step w (snd (process_qr_scan rt net pw acc cx url user_id w))
| step_scan_api rt net pw acc cx user url w :
    step w (snd (scan_qr_code rt net pw acc cx user url w))
| step_report cx user url w :
    step w (snd (report_duplicate cx user url w))
| step_retry_api acc rid w :
    step w (snd (retry_error acc rid w))
| step_retry acc rid w :
    step w (snd (action_retry_create_invoice acc rid w))
| step_mark cx user rid d :
    step (store d) (store (snd (mark_processed cx user rid d)))
| step_unmark cx user rid d :
    step (store d) (store (snd (mark_unprocessed cx user rid d))).

(** Any number of such calls, one after the other. *)
Inductive steps : world -> world -> Prop :=
| steps_none w : steps w w
| steps_more w w1 w2 : steps w w1 -> step w1 w2 -> steps w w2.

(** [r'] is [r] after some writes: same identity, and still successful if
    [r] was. *)
Definition keeps (r r' : scan_record) : Prop :=
  rec_id r' = rec_id r /\ qr_uuid r' = qr_uuid r /\ company_id r' = company_id r /\
  (is_successful (state r) = true -> is_successful (state r') = true).

Definition grows (w w' : world) : Prop :=
  forall r, In r (records w) -> exists r', In r' (records w') /\ keeps r r'.

(** The operations that create no record leave the identifiers and the next
    identifier as they are. *)
Definition same_frame (w w' : world) : Prop :=
  ids w' = ids w /\ next_id w' = next_id w.

(** ** The deployment, seen from the application *)

(** Addition of amounts that are whole numbers of francs. *)
Definition add_francs (a b : value) : value :=
  match a, b with
  | VInt x, VInt y => VInt (x + y)
  | VInt x, VFloat (Finite q) => VFloat (Finite (inject_Z x + q))
  | VFloat (Finite p), VInt y => VFloat (Finite (p + inject_Z y))
  | VFloat (Finite p), VFloat (Finite q) => VFloat (Finite (p + q))
  | _, _ => VFloat NaN
  end.

(** The desk after the first scan: nothing is processed yet. *)
Definition d_scanned : desk := Desk w_scanned ∅.

(** The record of the first scan. *)
Definition scanned_record : scan_record :=
  Eval vm_compute in hd (error_vals cx0 [] [] None ∅) (records w_scanned).

(** The oldest record first: the order of [scan_date asc] on a store whose
    records were scanned one after the other. *)
Definition oldest_first (l : list scan_record) : list scan_record := rev l.

(** A transport that answers like the sample one for the two API URLs of
    the sample identifier and for the sample URL, and refuses every other
    request. *)
Definition dgi_only_net : transport :=
  {| requests_get := fun n u =>
       if existsb (pystr_eqb u) (api_urls sample_uuid ++ [sample_url])
       then requests_get sample_net n u
       else Raise (Exn RequestException (py "Connection refused"));
     soup_get_text := soup_get_text sample_net |}.

(** A batch that holds the sample URL twice. *)
Definition sample_batch : list (pystr * json) :=
  [ (sample_url, JNull); (sample_url, JNull) ].

(** ** Tactics *)

(** Case analysis on the comparisons of a goal, innermost first. *)
Ltac no_if t :=
  lazymatch t with
  | context [if _ then _ else _] => fail
  | _ => idtac
  end.

Ltac bool_to_prop :=
  repeat match goal with
         | |- context [N.eqb ?a ?b] =>
             no_if a; no_if b; destruct (N.eqb_spec a b); cbn [andb orb negb]
         | |- context [N.leb ?a ?b] =>
             no_if a; no_if b; destruct (N.leb_spec a b); cbn [andb orb negb]
         end;
  try reflexivity; try lia.

(** * Properties *)

(** ** The model on the examples of the tests and of the specification *)

Example extract_uuid_upper :
  extract_uuid_from_url (py "https://x/019BD62C-467E-7000-82AC-45C8389C7F05")
  = Some (py "019bd62c-467e-7000-82ac-45c8389c7f05").
Proof. vm_compute. reflexivity. Qed.

Example extract_uuid_google : extract_uuid_from_url (py "https://google.com") = None.
Proof. vm_compute. reflexivity. Qed.

Example sample_fields :
  let r := _extract_dgi_data_from_text ascii_runtime sample_dgi_content [] in
  field "supplier_name" r = Some (VStr (py "SOCIETE ABC SARL")) /\
  field "supplier_code_dgi" r = Some (VStr (py "2502298K")) /\
  field "customer_name" r = Some (VStr (py "ICP SA")) /\
  field "customer_code_dgi" r = Some (VStr (py "1234567M")) /\
  field "invoice_number_dgi" r = Some (VStr (py "FAC2024001234")) /\
  field "invoice_date" r = Some (VDate (Date 2024 1 15)) /\
  field "verification_id" r = Some (VStr (py "VER-2024-001234")) /\
  field "amount_ttc" r = Some (VFloat (float_of_Z 1677566)) /\
  field "success" r = Some (VBool true).
Proof. vm_compute. repeat split. Qed.

Example py_decodes_utf8 : py "déjà" = [100; 233; 106; 224].
Proof. reflexivity. Qed.

(** ** Character classes *)

Lemma is_hex_ci_is_hex c : is_hex_ci c = is_hex c.
Proof.
  unfold is_hex_ci, is_hex, is_ascii_digit, ci_fold, in_range.
  destruct (N.leb_spec 65 c), (N.leb_spec c 90); cbn [andb orb negb]; bool_to_prop.
Qed.

Lemma lit_hyphen c : lit "-" c = (c =? 45).
Proof.
  unfold lit. change (ci_fold (cp "-")) with 45.
  unfold ci_fold, in_range.
  destruct (N.leb_spec 65 c), (N.leb_spec c 90); cbn [andb orb negb]; bool_to_prop.
Qed.

Lemma lower_char_not_upper c : in_range 65 90 (lower_char c) = false.
Proof.
  unfold lower_char, in_range.
  destruct (N.leb_spec 65 c), (N.leb_spec c 90); cbn [andb orb negb]; bool_to_prop.
Qed.

(** ** Matching a sequence of single characters *)

Lemma re_match_chars ps pos s ms :
  Re.re_match (List.map Re.Chr ps) pos s ms
  = if prefix_in ps s then Some ((pos + length ps)%nat, ms) else None.
Proof.
  revert pos s. induction ps as [|p ps IH]; intros pos s; simpl.
  - f_equal. f_equal. lia.
  - destruct s as [|c s]; [reflexivity|].
    destruct (p c); simpl; [|reflexivity].
    rewrite IH. destruct (prefix_in ps s); [|reflexivity].
    f_equal. f_equal. lia.
Qed.

Lemma prefix_in_app ps s :
  prefix_in ps s = true ->
  exists u post, s = u ++ post /\ length u = length ps /\ prefix_in ps u = true.
Proof.
  revert s. induction ps as [|p ps IH]; intros s H; simpl in *.
  - exists [], s. auto.
  - destruct s as [|c s]; [discriminate|].
    apply andb_true_iff in H as [Hc Hs].
    destruct (IH _ Hs) as (u & post & -> & Hl & Hu).
    exists (c :: u), post. simpl. rewrite Hc, Hu, Hl. auto.
Qed.

Lemma prefix_in_longer ps u post :
  prefix_in ps u = true -> prefix_in ps (u ++ post) = true.
Proof.
  revert u. induction ps as [|p ps IH]; intros u H; simpl in *; [reflexivity|].
  destruct u as [|c u]; [discriminate|]. simpl.
  apply andb_true_iff in H as [Hc Hs]. rewrite Hc. simpl. auto.
Qed.

(** The leftmost match of a sequence of single characters: where it starts,
    and that no earlier position matches. *)
Lemma search_from_chars ps pos s :
  match Re.search_from (List.map Re.Chr ps) pos s with
  | Some m =>
      exists pre rest,
        s = pre ++ rest /\ prefix_in ps rest = true /\
        Re.m_start m = (pos + length pre)%nat /\
        Re.m_end m = (pos + length pre + length ps)%nat /\
        (forall pre2 rest2, s = pre2 ++ rest2 -> prefix_in ps rest2 = true ->
                            (length pre <= length pre2)%nat)
  | None => forall pre rest, s = pre ++ rest -> prefix_in ps rest = false
  end.
Proof.
  revert pos. induction s as [|c s IH]; intros pos.
  - simpl. rewrite re_match_chars.
    destruct (prefix_in ps []) eqn:E.
    + exists [], []. simpl. repeat split; auto; try lia.
    + intros pre rest H. symmetry in H. apply app_eq_nil in H as [-> ->]. exact E.
  - simpl. rewrite re_match_chars.
    destruct (prefix_in ps (c :: s)) eqn:E.
    + exists [], (c :: s). simpl. repeat split; auto; try lia.
    + specialize (IH (S pos)).
      destruct (Re.search_from (List.map Re.Chr ps) (S pos) s) as [m|].
      * destruct IH as (pre & rest & -> & Hm & Hs & He & Hmin).
        exists (c :: pre), rest. simpl. repeat split; auto; try lia.
        intros pre2 rest2 H2 Hp2.
        destruct pre2 as [|c2 pre2]; simpl in H2.
        -- subst rest2. simpl in Hp2. congruence.
        -- injection H2 as -> H2. simpl. specialize (Hmin _ _ H2 Hp2). lia.
      * intros pre rest H.
        destruct pre as [|c2 pre]; simpl in H.
        -- subst rest. exact E.
        -- injection H as -> H. eauto.
Qed.

(** ** The identifier, as the specification words it *)

Lemma prefix_in_ext ps qs s :
  Forall2 (fun p q => forall c, p c = q c) ps qs -> prefix_in ps s = prefix_in qs s.
Proof.
  intros H. revert s. induction H as [|p q ps qs Hpq _ IH]; intros s; simpl.
  - reflexivity.
  - destruct s as [|c s]; [reflexivity|]. rewrite Hpq, IH. reflexivity.
Qed.

Lemma uuid_pattern_chars : uuid_pattern = List.map Re.Chr uuid_pattern_classes.
Proof. reflexivity. Qed.

Lemma uuid_pattern_shape s : prefix_in uuid_pattern_classes s = prefix_in uuid_shape s.
Proof.
  apply prefix_in_ext. unfold uuid_pattern_classes, uuid_shape. simpl.
  repeat constructor; intros c; try apply is_hex_ci_is_hex; apply lit_hyphen.
Qed.

Lemma slice_middle (pre u post : pystr) :
  slice (pre ++ u ++ post) (length pre) (length pre + length u) = u.
Proof.
  unfold slice. rewrite drop_app_length.
  replace (length pre + length u - length pre)%nat with (length u) by lia.
  apply take_app_length.
Qed.

(** What [extract_uuid_from_url] returns, in both cases. *)
Lemma extract_uuid_cases url :
  match extract_uuid_from_url url with
  | Some v =>
      exists pre u post,
        url = pre ++ u ++ post /\ is_uuid u = true /\ v = lower u /\
        (forall pre2 u2 post2, url = pre2 ++ u2 ++ post2 -> is_uuid u2 = true ->
                               (length pre <= length pre2)%nat)
  | None => forall pre u post, url = pre ++ u ++ post -> is_uuid u = false
  end.
Proof.
  unfold extract_uuid_from_url, Re.search. rewrite uuid_pattern_chars.
  pose proof (search_from_chars uuid_pattern_classes 0 url) as H.
  destruct (Re.search_from (List.map Re.Chr uuid_pattern_classes) 0 url) as [m|].
  - destruct H as (pre & rest & Hurl & Hp & Hs & He & Hmin).
    destruct (prefix_in_app _ _ Hp) as (u & post & -> & Hl & Hu).
    exists pre, u, post. repeat split.
    + exact Hurl.
    + unfold is_uuid. rewrite <- uuid_pattern_shape, Hu, Hl. reflexivity.
    + simpl Re.group. rewrite Hs, He, Hurl. simpl.
      change (length uuid_pattern_classes) with 36%nat.
      change 36%nat with (length uuid_pattern_classes). rewrite <- Hl.
      rewrite slice_middle. reflexivity.
    + intros pre2 u2 post2 H2 Hu2. apply (Hmin pre2 (u2 ++ post2) H2).
      rewrite uuid_pattern_shape. apply prefix_in_longer.
      unfold is_uuid in Hu2. apply andb_true_iff in Hu2 as [_ Hu2]. exact Hu2.
  - intros pre u post Hurl. specialize (H pre (u ++ post) Hurl).
    rewrite uuid_pattern_shape in H. unfold is_uuid.
    destruct (prefix_in uuid_shape u) eqn:E; [|apply andb_false_r].
    apply (prefix_in_longer _ _ post) in E. congruence.
Qed.

(** C4. [extract_uuid_from_url]: when the string contains a substring of the
    shape 8-4-4-4-12 hexadecimal digits, in any letter case, the result is
    the leftmost such substring in lower case (no upper-case letter is left);
    when it contains none, the result is [None]. The function is total: it
    returns for every string. *)
Theorem extract_uuid_from_url_spec (url : pystr) :
  (contains_uuid url ->
   exists pre u post,
     url = pre ++ u ++ post /\ is_uuid u = true /\
     (forall pre2 u2 post2, url = pre2 ++ u2 ++ post2 -> is_uuid u2 = true ->
                            (length pre <= length pre2)%nat) /\
     extract_uuid_from_url url = Some (lower u) /\
     Forall (fun c => in_range 65 90 c = false) (lower u))
  /\ (~ contains_uuid url -> extract_uuid_from_url url = None).
Proof.
  pose proof (extract_uuid_cases url) as H. split.
  - intros (pre0 & u0 & post0 & Hurl0 & Hu0).
    destruct (extract_uuid_from_url url) as [v|].
    + destruct H as (pre & u & post & Hurl & Hu & -> & Hmin).
      exists pre, u, post. repeat split; auto.
      unfold lower. clear. induction u as [|c u IH]; simpl; constructor; auto.
      apply lower_char_not_upper.
    + rewrite (H _ _ _ Hurl0) in Hu0. discriminate.
  - intros Hno. destruct (extract_uuid_from_url url) as [v|]; [|reflexivity].
    destruct H as (pre & u & post & Hurl & Hu & _). exfalso. apply Hno.
    exists pre, u, post. auto.
Qed.

Lemma extract_uuid_from_url_spec_witness :
  contains_uuid spec_url /\
  extract_uuid_from_url spec_url = Some (py "019bd62c-467e-7000-82ac-45c8389c7f05") /\
  ~ contains_uuid (py "x") /\ extract_uuid_from_url (py "x") = None.
Proof.
  assert (Hc : contains_uuid spec_url).
  { exists (py "https://x/"), (py "019BD62C-467E-7000-82AC-45C8389C7F05"), [].
    split; reflexivity. }
  assert (Hn : ~ contains_uuid (py "x")).
  { intros (pre & u & post & H & Hu).
    assert (Hl : length (py "x") = (length pre + (length u + length post))%nat)
      by (rewrite H, !length_app; reflexivity).
    unfold is_uuid in Hu. apply andb_true_iff in Hu as [Hu _].
    apply Nat.eqb_eq in Hu. simpl in Hl. lia. }
  split; [exact Hc|]. split.
  - vm_compute. reflexivity.
  - split; [exact Hn|]. exact (proj2 (extract_uuid_from_url_spec (py "x")) Hn).
Defined.

(** ** The success marker *)

Lemma extract_success_marker rt text_content html data :
  _extract_dgi_data_from_text rt text_content html = Ok data ->
  data !! "success" = Some (VBool true).
Proof.
  unfold _extract_dgi_data_from_text. intros H.
  repeat match type of H with
         | context [Re.search ?r ?t] => destruct (Re.search r t)
         end;
    repeat match type of H with
           | context [strptime_dmy ?s] => destruct (strptime_dmy s)
           | context [py_float ?r ?s] => destruct (py_float r s)
           end;
    cbv [mbind mret result_bind result_ret rbind] in H;
    try discriminate; injection H as <-;
    repeat (rewrite lookup_insert_ne by discriminate); apply lookup_insert_eq.
Qed.

(** A text with no section at all: every field is absent, the marker is
    set. *)
Example extract_empty :
  let r := _extract_dgi_data_from_text ascii_runtime [] [] in
  field "success" r = Some (VBool true) /\
  field "supplier_name" r = None /\ field "amount_ttc" r = None /\
  field "invoice_date" r = None /\ field "invoice_number_dgi" r = None.
Proof. vm_compute. repeat split. Qed.

(** ** The fast path never raises *)

Example body_can_raise :
  fetch_with_requests_body ascii_runtime dead_transport spec_url
  = Raise (Exn RequestException (py "Read timed out.")).
Proof. vm_compute. reflexivity. Qed.

Example body_can_raise_in_extraction :
  exists e,
    fetch_with_requests_body ascii_runtime
      (page_transport (py "FOURNISSEUR DATE DE FACTURATION: 99/99/2024")) spec_url
    = Raise e /\ kind e = ValueError.
Proof. eexists. split; vm_compute; reflexivity. Qed.

Lemma copy_keys_keeps conv (fld : string) keys items data data' :
  copy_keys conv fld keys items data = Ok data' ->
  fld <> "success"%string ->
  data' !! "success" = data !! "success".
Proof.
  intros H Hne. revert data H.
  induction keys as [|key keys IH]; intros data H; simpl in H.
  - injection H as <-. reflexivity.
  - destruct (json_get key items) as [v|]; [|auto].
    cbv [mbind result_bind rbind] in H. destruct (conv v) as [x|e]; [|discriminate].
    rewrite (IH _ H). apply lookup_insert_ne. exact Hne.
Qed.

(** A dictionary returned by the direct API carries a true [success]. *)
Lemma try_api_marker rt net n api_url data :
  try_api rt net n api_url = Ok (Some data) -> data !! "success" = Some (VBool true).
Proof.
  unfold try_api. cbv [mbind mret result_bind result_ret rbind].
  destruct (requests_get net n api_url) as [resp|]; [|discriminate].
  destruct (status_code resp =? 200)%Z; [|discriminate].
  destruct (json_body resp) as [json_data|]; [|discriminate].
  destruct json_data as [| | | | | |[|item items]]; try discriminate.
  set (d0 := <["text_content" := _]> _).
  destruct (copy_keys _ "supplier_name" _ _ d0) as [d1|] eqn:H1; [|discriminate].
  destruct (copy_keys _ "amount_ttc" _ _ d1) as [d2|] eqn:H2; [|discriminate].
  destruct (copy_keys _ "invoice_number_dgi" _ _ d2) as [d3|] eqn:H3; [|discriminate].
  destruct (_ || _); [|discriminate]. intros H. injection H as <-.
  rewrite (copy_keys_keeps _ _ _ _ _ _ H3) by discriminate.
  rewrite (copy_keys_keeps _ _ _ _ _ _ H2) by discriminate.
  rewrite (copy_keys_keeps _ _ _ _ _ _ H1) by discriminate.
  subst d0. repeat (rewrite lookup_insert_ne by discriminate). apply lookup_insert_eq.
Qed.

Lemma api_loop_marker rt net urls : forall n data,
  api_loop rt net n urls = Ok (Some data) -> data !! "success" = Some (VBool true).
Proof.
  induction urls as [|api_url urls IH]; intros n data H; simpl in H; [discriminate|].
  destruct (try_api rt net n api_url) as [[d|]|e] eqn:E.
  - injection H as <-. exact (try_api_marker _ _ _ _ _ E).
  - eauto.
  - destruct (inner_except_catches e); [eauto|discriminate].
Qed.

Lemma fetch_with_requests_body_marker rt net url data :
  fetch_with_requests_body rt net url = Ok (Some data) ->
  data !! "success" = Some (VBool true).
Proof.
  assert (Hssr : forall n,
    (resp ← requests_get net n url;
     if (status_code resp =? 200)%Z then
       text_content ← soup_get_text net (text resp);
       if has_markers rt text_content then
         data ← _extract_dgi_data_from_text rt text_content (text resp);
         mret (Some data)
       else mret None
     else mret None) = Ok (Some data) ->
    data !! "success" = Some (VBool true)).
  { intros n. cbv [mbind mret result_bind result_ret rbind].
    destruct (requests_get net n url) as [resp|]; [|discriminate].
    destruct (status_code resp =? 200)%Z; [|discriminate].
    destruct (soup_get_text net (text resp)) as [t|]; [|discriminate].
    destruct (has_markers rt t); [|discriminate].
    destruct (_extract_dgi_data_from_text rt t (text resp)) as [d|] eqn:E; [|discriminate].
    intros H. injection H as <-. exact (extract_success_marker _ _ _ _ E). }
  unfold fetch_with_requests_body.
  destruct (extract_uuid_from_url url) as [[|c u]|]; try apply Hssr.
  change (mbind ?f ?m) with (rbind m f). unfold rbind at 1.
  destruct (api_loop rt net 0 (api_urls (c :: u))) as [[x|]|] eqn:E.
  - intros H. injection H as <-. exact (api_loop_marker _ _ _ _ _ E).
  - apply Hssr.
  - discriminate.
Qed.

(** C6. [_fetch_dgi_with_requests] never raises, whatever the transport does
    (timeout, connection error, any status, malformed JSON, any other
    exception): it returns what its body returns, and [None] whenever the
    body raises; what it returns is [None] or a dictionary whose [success] is
    true. *)
Theorem fetch_with_requests_never_raises (rt : runtime) (net : transport) (url : pystr) :
  exists r,
    _fetch_dgi_with_requests rt net url = Ok r /\
    r = match fetch_with_requests_body rt net url with
        | Ok x => x
        | Raise _ => None
        end /\
    (forall data, r = Some data -> data !! "success" = Some (VBool true)).
Proof.
  unfold _fetch_dgi_with_requests, try_except.
  destruct (fetch_with_requests_body rt net url) as [x|e] eqn:E.
  - exists x. repeat split. intros data ->.
    exact (fetch_with_requests_body_marker _ _ _ _ E).
  - exists None. repeat split. discriminate.
Qed.

Lemma fetch_with_requests_body_caught rt net url :
  _fetch_dgi_with_requests rt net url
  = Ok (match fetch_with_requests_body rt net url with
        | Ok r => r
        | Raise _ => None
        end).
Proof.
  unfold _fetch_dgi_with_requests, try_except.
  destruct (fetch_with_requests_body rt net url); reflexivity.
Qed.

(** ** Browser launch *)

Lemma launches_failed_attempts from n : launches (failed_attempts from n) = n.
Proof.
  revert from. induction n as [|n IH]; intros from; [reflexivity|].
  unfold launches in *. simpl. rewrite IH. reflexivity.
Qed.

Lemma launches_app a b : launches (a ++ b) = (launches a + launches b)%nat.
Proof. unfold launches. rewrite List.filter_app, length_app. reflexivity. Qed.

Lemma launch_attempts_bound {B} (launch : nat -> result B) max attempt remaining last :
  (launches (fst (launch_attempts launch max attempt remaining last)) <= remaining)%nat.
Proof.
  revert attempt last. induction remaining as [|rem IH]; intros attempt last; simpl.
  - unfold launches. simpl. lia.
  - destruct (launch attempt) as [b|e]; [unfold launches; simpl; lia|].
    specialize (IH (S attempt) (Some e)).
    destruct (launch_attempts launch max (S attempt) rem (Some e)) as [evs r].
    simpl in *. change (Launch attempt :: ?l) with ([Launch attempt] ++ l).
    rewrite !launches_app.
    assert (launches (if (attempt <? max)%nat then [Sleep (attempt * 3)] else []) = 0%nat)
      by (destruct (attempt <? max)%nat; reflexivity).
    change (launches [Launch attempt]) with 1%nat. lia.
Qed.

(** A run in which attempt [k] is the first to succeed. *)
Lemma launch_attempts_success {B} (launch : nat -> result B) max b :
  forall remaining attempt last k,
    (attempt <= k)%nat -> (k < attempt + remaining)%nat -> (k <= max)%nat ->
    (forall j, (attempt <= j < k)%nat -> fails (launch j)) ->
    launch k = Ok b ->
    launch_attempts launch max attempt remaining last
    = (failed_attempts attempt (k - attempt) ++ [Launch k], Ok b).
Proof.
  induction remaining as [|rem IH]; intros attempt last k Hle Hlt Hmax Hfail Hk.
  - lia.
  - simpl. destruct (Nat.eq_dec attempt k) as [->|Hne].
    + rewrite Hk, Nat.sub_diag. reflexivity.
    + destruct (Hfail attempt ltac:(lia)) as [e He]. rewrite He.
      rewrite (IH (S attempt) (Some e) k) by (auto; try lia; intros; apply Hfail; lia).
      assert ((attempt <? max)%nat = true) as -> by (apply Nat.ltb_lt; lia).
      replace (k - attempt)%nat with (S (k - S attempt)) by lia. reflexivity.
Qed.

(** A run in which every attempt up to [max] fails. *)
Lemma launch_attempts_failure {B} (launch : nat -> result B) max e :
  forall remaining attempt last,
    (1 <= remaining)%nat -> (attempt + remaining = max + 1)%nat ->
    (forall j, (attempt <= j <= max)%nat -> fails (launch j)) ->
    launch max = Raise e ->
    launch_attempts launch max attempt remaining last
    = (failed_attempts attempt (max - attempt) ++ [Launch max], Raise e).
Proof.
  induction remaining as [|rem IH]; intros attempt last Hrem Hsum Hfail Hmax.
  - lia.
  - simpl. destruct rem as [|rem].
    + assert (attempt = max) as -> by lia.
      rewrite Hmax, Nat.ltb_irrefl, Nat.sub_diag. reflexivity.
    + destruct (Hfail attempt ltac:(lia)) as [e' He']. rewrite He'.
      rewrite (IH (S attempt) (Some e')) by (auto; try lia; intros; apply Hfail; lia).
      assert ((attempt <? max)%nat = true) as -> by (apply Nat.ltb_lt; lia).
      replace (max - attempt)%nat with (S (max - S attempt)) by lia. reflexivity.
Qed.

Example default_schedule :
  default_max_retries = 3%nat /\
  launch_schedule 2 = [Launch 1; Sleep 3; Launch 2] /\
  launch_schedule 3 = [Launch 1; Sleep 3; Launch 2; Sleep 6; Launch 3].
Proof. repeat split. Qed.

(** C9. [_launch_playwright_browser] with a maximum of [n >= 1] attempts (3
    by default) launches at most [n] times; between two consecutive attempts
    it waits the number of the failed attempt times three seconds; it returns
    the browser of the first attempt that succeeds, without further launch;
    and when every attempt fails it raises the error of the last one. *)
Theorem launch_retry_spec {B} (launch : nat -> result B) (n : nat) (Hn : (1 <= n)%nat) :
  (launches (fst (_launch_playwright_browser launch n)) <= n)%nat /\
  (forall k b, (1 <= k <= n)%nat ->
     (forall j, (1 <= j < k)%nat -> fails (launch j)) -> launch k = Ok b ->
     _launch_playwright_browser launch n = (launch_schedule k, Ok b)) /\
  (forall e, (forall j, (1 <= j <= n)%nat -> fails (launch j)) -> launch n = Raise e ->
     _launch_playwright_browser launch n = (launch_schedule n, Raise e)).
Proof.
  unfold _launch_playwright_browser, launch_schedule. repeat split.
  - apply launch_attempts_bound.
  - intros k b Hk Hfail Hok.
    apply launch_attempts_success; auto; lia.
  - intros e Hfail He.
    apply launch_attempts_failure; auto; lia.
Qed.

Lemma launch_retry_spec_witness :
  (1 <= default_max_retries)%nat /\
  _launch_playwright_browser third_time_lucky default_max_retries
  = ([Launch 1; Sleep 3; Launch 2; Sleep 6; Launch 3], Ok tt) /\
  _launch_playwright_browser (fun _ => @Raise unit (Exn PlaywrightError (py "SIGTRAP")))
    default_max_retries
  = ([Launch 1; Sleep 3; Launch 2; Sleep 6; Launch 3],
     Raise (Exn PlaywrightError (py "SIGTRAP"))).
Proof.
  assert (H : (1 <= default_max_retries)%nat) by (unfold default_max_retries; lia).
  split; [exact H|]. split.
  - apply (proj1 (proj2 (launch_retry_spec third_time_lucky default_max_retries H)) 3%nat tt).
    + unfold default_max_retries. lia.
    + intros j Hj. unfold third_time_lucky.
      assert ((j <? 3)%nat = true) as -> by (apply Nat.ltb_lt; lia). eexists. reflexivity.
    + reflexivity.
  - apply (proj2 (proj2 (launch_retry_spec _ default_max_retries H))).
    + intros j Hj. eexists. reflexivity.
    + reflexivity.
Defined.

(** ** Matcher lemmas *)

Lemma re_match_chars_app ps r pos u s ms :
  length u = length ps -> prefix_in ps u = true ->
  Re.re_match (List.map Re.Chr ps ++ r) pos (u ++ s) ms
  = Re.re_match r (pos + length ps)%nat s ms.
Proof.
  revert pos u. induction ps as [|p ps IH]; intros pos u Hl Hp; simpl in *.
  - destruct u; [|discriminate]. simpl. f_equal. lia.
  - destruct u as [|c u]; [discriminate|]. simpl in *.
    apply andb_true_iff in Hp as [Hc Hu]. rewrite Hc.
    rewrite IH by (auto; lia). f_equal. lia.
Qed.

(** A greedy repetition first takes every character it can; when the rest of
    the pattern matches from there, that is the match. *)
Lemma rep_greedy_munch (k : Re.cont) p xs rest ms r :
  forallb p xs = true -> stops p rest ->
  forall lo pos, (lo <= length xs)%nat ->
    k (pos + length xs)%nat rest ms = Some r ->
    Re.rep k true lo p pos (xs ++ rest) ms = Some r.
Proof.
  intros Hxs Hstop. induction xs as [|x xs IH]; intros lo pos Hlo Hk; simpl in *.
  - assert (lo = 0%nat) as -> by lia. rewrite Nat.add_0_r in Hk.
    destruct rest as [|c rest]; simpl; [exact Hk|].
    simpl in Hstop. rewrite Hstop. exact Hk.
  - apply andb_true_iff in Hxs as [Hx Hxs].
    replace (pos + S (length xs))%nat with (S pos + length xs)%nat in Hk by lia.
    destruct lo as [|lo]; simpl; rewrite Hx.
    + rewrite (IH Hxs 0%nat (S pos)) by (auto; lia). reflexivity.
    + apply IH; auto; lia.
Qed.

Lemma search_from_no_pair p q r s :
  no_pair p q s = true -> forall pos,
  Re.search_from (Re.Chr p :: Re.Chr q :: r) pos s = None.
Proof.
  induction s as [|c s IH]; intros H pos; [reflexivity|].
  simpl in H. apply andb_true_iff in H as [Hc Hs].
  cbn [Re.search_from]. rewrite (IH Hs).
  simpl. destruct (p c); [|reflexivity].
  destruct s as [|d s]; [reflexivity|].
  simpl in Hc. destruct (q d); [discriminate|reflexivity].
Qed.

Lemma no_pair_skip p q xs s :
  forallb (fun c => negb (p c)) xs = true ->
  no_pair p q (xs ++ s) = no_pair p q s.
Proof.
  induction xs as [|x xs IH]; intros H; simpl in *; [reflexivity|].
  apply andb_true_iff in H as [Hx Hxs].
  destruct (p x); [discriminate|]. simpl. auto.
Qed.

Lemma no_pair_app p q a s :
  no_pair p q a = true ->
  match last a with Some c => p c = false | None => True end ->
  no_pair p q (a ++ s) = no_pair p q s.
Proof.
  induction a as [|c a IH]; intros H Hlast; [reflexivity|].
  cbn [no_pair app] in *. apply andb_true_iff in H as [Hc Ha].
  destruct a as [|d a].
  - simpl in Hlast. rewrite Hlast. reflexivity.
  - rewrite IH by auto. cbn [app]. rewrite Hc. reflexivity.
Qed.

(** ** Stripping *)

Lemma lstrip_by_stops p s : stops p s -> lstrip_by p s = s.
Proof. destruct s as [|c s]; simpl; [reflexivity|]. intros ->. reflexivity. Qed.

Lemma strip_by_id p s : forallb (fun c => negb (p c)) s = true -> strip_by p s = s.
Proof.
  intros H. unfold strip_by.
  assert (Hs : forall t, forallb (fun c => negb (p c)) t = true -> stops p t).
  { intros [|c t]; simpl; [auto|]. intros Ht. apply andb_true_iff in Ht as [Hc _].
    destruct (p c); [discriminate|reflexivity]. }
  rewrite (lstrip_by_stops p s) by auto.
  rewrite lstrip_by_stops; [apply rev_involutive|].
  apply Hs. rewrite forallb_forall in *. intros c Hc. apply H.
  apply in_rev. exact Hc.
Qed.

(** ** Amounts *)

Lemma plain_cases c :
  plain c = true ->
  In c [10; 32; 160; 48; 49; 50; 51; 52; 53; 54; 55; 56; 57].
Proof.
  unfold plain, amount_char, gap_char, is_ascii_digit, in_range, nbsp. intros H.
  repeat match type of H with
         | context [N.eqb ?a ?b] => destruct (N.eqb_spec a b); cbn [andb orb] in H
         | context [N.leb ?a ?b] => destruct (N.leb_spec a b); cbn [andb orb] in H
         end; try discriminate; simpl; lia.
Qed.

(** A plain character is no letter, so no literal letter matches it. *)
Lemma lit_plain (l : ascii) c :
  is_letter_ci (cp l) = true -> plain c = true -> lit l c = false.
Proof.
  unfold lit, is_letter_ci, in_range. intros Hl Hc.
  set (x := ci_fold (cp l)) in *. clearbody x.
  apply andb_true_iff in Hl as [H1 H2].
  apply N.leb_le in H1. apply N.leb_le in H2.
  apply N.eqb_neq. intros E.
  apply plain_cases in Hc. simpl in Hc.
  repeat (destruct Hc as [<-|Hc]; [vm_compute in E; lia|]). exact Hc.
Qed.

Lemma plain_not_lit (l : ascii) xs :
  is_letter_ci (cp l) = true -> forallb plain xs = true ->
  forallb (fun c => negb (lit l c)) xs = true.
Proof.
  intros Hl H. rewrite forallb_forall in *. intros c Hc.
  rewrite (lit_plain l c Hl (H c Hc)). reflexivity.
Qed.

Lemma is_ascii_digit_value c : is_ascii_digit c = true -> digit_value c = Some (c - 48).
Proof.
  unfold digit_value, decimal_zeros. intros H. cbn [List.find].
  change (in_range 48 (48 + 9) c) with (is_ascii_digit c). rewrite H. reflexivity.
Qed.

Lemma is_ascii_digit_is_digit c : is_ascii_digit c = true -> is_digit c = true.
Proof. intros H. unfold is_digit. rewrite is_ascii_digit_value by auto. reflexivity. Qed.

Lemma ascii_digit_not_space c : is_ascii_digit c = true -> is_space c = false.
Proof.
  unfold is_ascii_digit, is_space, in_range. intros H.
  apply andb_true_iff in H as [H1 H2]. apply N.leb_le in H1. apply N.leb_le in H2.
  bool_to_prop.
Qed.

Lemma amount_char_class c : amount_char c = true -> digit_or_space c = true.
Proof.
  unfold amount_char, digit_or_space. intros H.
  apply orb_true_iff in H as [H|H]; [apply orb_true_iff in H as [H|H]|].
  - rewrite is_ascii_digit_is_digit by auto. reflexivity.
  - apply N.eqb_eq in H as ->. reflexivity.
  - apply N.eqb_eq in H as ->. reflexivity.
Qed.

Lemma gap_char_space c : gap_char c = true -> is_space c = true.
Proof.
  unfold gap_char. intros H.
  apply orb_true_iff in H as [H|H]; apply N.eqb_eq in H as ->; reflexivity.
Qed.

(** Removing the two separators from a written amount leaves its digits. *)
Lemma remove_separators xs :
  forallb amount_char xs = true ->
  remove_char nbsp (remove_char 32 xs) = List.filter is_ascii_digit xs.
Proof.
  unfold remove_char. induction xs as [|x xs IH]; intros H; [reflexivity|].
  simpl in H. apply andb_true_iff in H as [Hx Hxs]. specialize (IH Hxs).
  unfold amount_char in Hx. cbn [List.filter].
  destruct (is_ascii_digit x) eqn:Hd.
  - assert ((x =? 32) = false) as ->.
    { unfold is_ascii_digit, in_range in Hd. apply andb_true_iff in Hd as [H1 H2].
      apply N.leb_le in H1. apply N.eqb_neq. lia. }
    cbn [negb List.filter].
    assert ((x =? nbsp) = false) as ->.
    { unfold is_ascii_digit, in_range in Hd. apply andb_true_iff in Hd as [H1 H2].
      apply N.leb_le in H2. apply N.eqb_neq. unfold nbsp. lia. }
    cbn [negb]. rewrite IH. reflexivity.
  - cbn [orb] in Hx. destruct (N.eqb_spec x 32) as [->|Hne].
    + cbn [negb]. exact IH.
    + cbn [negb orb List.filter] in *. rewrite Hx. cbn [negb]. exact IH.
Qed.

Lemma filter_digits_all xs :
  forallb is_ascii_digit (List.filter is_ascii_digit xs) = true.
Proof.
  induction xs as [|x xs IH]; [reflexivity|]. simpl.
  destruct (is_ascii_digit x) eqn:E; simpl; [rewrite E|]; auto.
Qed.

Lemma forallb_impl {A} (p q : A -> bool) xs :
  (forall x, p x = true -> q x = true) -> forallb p xs = true -> forallb q xs = true.
Proof.
  intros Hpq H. rewrite forallb_forall in *. auto.
Qed.

(** [float] of a non-empty string of ASCII digits is the nearest double to
    the number written, whatever the runtime. *)
Lemma py_float_digits rt ds :
  ds <> [] -> forallb is_ascii_digit ds = true ->
  py_float rt ds = Ok (nearest_double (digits_value 0 ds)).
Proof.
  intros Hne Hds. unfold py_float.
  assert (Hd : forallb is_digit ds = true)
    by (eapply forallb_impl; [apply is_ascii_digit_is_digit|exact Hds]).
  rewrite strip_by_id.
  - rewrite Hd. destruct ds; [congruence|reflexivity].
  - eapply forallb_impl; [|exact Hds]. intros c Hc. unfold is_float_space.
    rewrite ascii_digit_not_space by auto. reflexivity.
Qed.

Lemma search_from_hit r pos s e ms :
  Re.re_match r pos s [] = Some (e, ms) ->
  Re.search_from r pos s = Some (Re.Match pos e ms).
Proof. intros H. destruct s; simpl; rewrite H; reflexivity. Qed.

Lemma re_match_rep g lo p r pos s ms :
  Re.re_match (Re.Rep g lo p :: r) pos s ms = Re.rep (Re.re_match r) g lo p pos s ms.
Proof. reflexivity. Qed.

Lemma re_match_open g r pos s ms :
  Re.re_match (Re.Open g :: r) pos s ms = Re.re_match r pos s (Re.MOpen g pos :: ms).
Proof. reflexivity. Qed.

Lemma rep_zero_stop (k : Re.cont) p pos c s ms :
  p c = false -> Re.rep k true 0 p pos (c :: s) ms = k pos (c :: s) ms.
Proof. intros H. simpl. rewrite H. reflexivity. Qed.

Lemma search_label_none a b w r s :
  no_pair (lit a) (lit b) s = true ->
  Re.search (Re.word (String a (String b w)) ++ r) s = None.
Proof. intros H. unfold Re.search. simpl. apply search_from_no_pair. exact H. Qed.

(** No other label occurs in the text of an amount section. *)
Lemma amount_text_no_pair (a b : ascii) ws d0 rest unit :
  is_letter_ci (cp a) = true ->
  no_pair (lit a) (lit b) (py "MONTANT TTC:") = true ->
  no_pair (lit a) (lit b) (py "FCFA") = true ->
  forallb gap_char ws = true -> is_ascii_digit d0 = true ->
  forallb amount_char rest = true -> is_unit unit ->
  no_pair (lit a) (lit b) (amount_text ws d0 rest unit) = true.
Proof.
  intros Ha Hlabel Hunit Hws Hd0 Hrest Hu. unfold amount_text.
  rewrite no_pair_app; [|exact Hlabel|].
  2:{ change (last (py "MONTANT TTC:")) with (Some 58).
      unfold lit. apply N.eqb_neq. unfold is_letter_ci, in_range in Ha.
      apply andb_true_iff in Ha as [H1 _]. apply N.leb_le in H1.
      change (ci_fold 58) with 58. lia. }
  rewrite no_pair_skip.
  2:{ apply plain_not_lit; auto. eapply forallb_impl; [|exact Hws].
      intros c Hc. unfold plain. rewrite Hc. apply orb_true_r. }
  change (d0 :: rest ++ unit) with ((d0 :: rest) ++ unit).
  rewrite no_pair_skip.
  2:{ apply plain_not_lit; auto. simpl. apply andb_true_iff. split.
      - unfold plain, amount_char. rewrite Hd0. reflexivity.
      - eapply forallb_impl; [|exact Hrest]. intros c Hc. unfold plain.
        rewrite Hc. reflexivity. }
  destruct Hu as [->| ->]; [exact Hunit|].
  change (py "FCFA") with (70 :: py "CFA") in Hunit. simpl in Hunit.
  apply andb_true_iff in Hunit as [_ Hunit]. exact Hunit.
Qed.

Lemma unit_match n unit ms :
  is_unit unit ->
  Re.re_match ([Re.Close 1; Re.Rep true 0 is_space; Re.Opt (lit "F")] ++ Re.word "CFA")
    n unit ms
  = Some ((length unit + n)%nat, Re.MClose 1 n :: ms).
Proof. intros [->| ->]; vm_compute; reflexivity. Qed.

(** The amount pattern matches at the start of the text, and its group is
    the written amount. *)
Lemma amount_match ws d0 rest unit :
  forallb gap_char ws = true -> is_ascii_digit d0 = true ->
  forallb amount_char rest = true -> is_unit unit ->
  exists m, Re.search amount_pattern (amount_text ws d0 rest unit) = Some m /\
            Re.group (amount_text ws d0 rest unit) m 1 = d0 :: rest.
Proof.
  intros Hws Hd0 Hrest Hu.
  set (a := length (py "MONTANT TTC:" ++ ws)).
  set (b := (a + length (d0 :: rest))%nat).
  exists (Re.Match 0 (length unit + b) [Re.MClose 1 b; Re.MOpen 1 a]).
  split.
  - unfold Re.search. apply search_from_hit.
    unfold amount_pattern, amount_text.
    change (Re.word "MONTANT TTC:")
      with (List.map Re.Chr (List.map lit (list_ascii_of_string "MONTANT TTC:"))).
    rewrite re_match_chars_app by reflexivity.
    unfold label_gap. cbn [app].
    rewrite re_match_rep. apply rep_greedy_munch.
    + eapply forallb_impl; [apply gap_char_space|exact Hws].
    + simpl. apply ascii_digit_not_space. exact Hd0.
    + lia.
    + assert (Hnl : is_newline d0 = false).
      { unfold is_newline. apply N.eqb_neq. unfold is_ascii_digit, in_range in Hd0.
        apply andb_true_iff in Hd0 as [H1 _]. apply N.leb_le in H1. lia. }
      rewrite re_match_rep, rep_zero_stop by exact Hnl.
      rewrite re_match_rep, rep_zero_stop by (apply ascii_digit_not_space; exact Hd0).
      rewrite re_match_open, re_match_rep.
      change (d0 :: rest ++ unit) with ((d0 :: rest) ++ unit).
      apply rep_greedy_munch.
      * simpl. rewrite (amount_char_class d0), (forallb_impl _ _ _ amount_char_class Hrest);
          [reflexivity|]. unfold amount_char. rewrite Hd0. reflexivity.
      * destruct Hu as [->| ->]; reflexivity.
      * simpl. lia.
      * etransitivity; [exact (unit_match _ unit _ Hu)|].
        subst a b. rewrite !length_app. simpl length. repeat f_equal; lia.
  - cbn [Re.group Re.m_marks Re.find_open Re.find_close Nat.eqb].
    subst b. unfold amount_text. rewrite app_assoc.
    change (d0 :: rest ++ unit) with ((d0 :: rest) ++ unit).
    subst a. apply slice_middle.
Qed.

Lemma amount_text_other_labels ws d0 rest unit :
  forallb gap_char ws = true -> is_ascii_digit d0 = true ->
  forallb amount_char rest = true -> is_unit unit ->
  let t := amount_text ws d0 rest unit in
  Re.search supplier_pattern t = None /\ Re.search client_pattern t = None /\
  Re.search invoice_pattern t = None /\ Re.search date_pattern t = None /\
  Re.search verif_pattern t = None.
Proof.
  intros Hws Hd0 Hrest Hu t. subst t.
  unfold supplier_pattern, client_pattern, party_pattern, invoice_pattern,
    date_pattern, verif_pattern.
  repeat split; apply search_label_none;
    apply amount_text_no_pair; auto; vm_compute; reflexivity.
Qed.

(** The amount field of the text of an amount section. *)
Lemma amount_field rt ws d0 rest unit html :
  forallb gap_char ws = true -> is_ascii_digit d0 = true ->
  forallb amount_char rest = true -> is_unit unit ->
  exists data,
    _extract_dgi_data_from_text rt (amount_text ws d0 rest unit) html = Ok data /\
    data !! "amount_ttc" = Some (VFloat (nearest_double (written_number (d0 :: rest)))).
Proof.
  intros Hws Hd0 Hrest Hu.
  destruct (amount_text_other_labels ws d0 rest unit Hws Hd0 Hrest Hu)
    as (Hs & Hc & Hi & Hd & Hv).
  destruct (amount_match ws d0 rest unit Hws Hd0 Hrest Hu) as (m & Hm & Hg).
  unfold _extract_dgi_data_from_text.
  rewrite Hs, Hc, Hi, Hd, Hv, Hm, Hg.
  assert (Hall : forallb amount_char (d0 :: rest) = true).
  { simpl. rewrite Hrest. unfold amount_char. rewrite Hd0. reflexivity. }
  rewrite (remove_separators _ Hall).
  unfold strip at 1. rewrite strip_by_id.
  2:{ eapply forallb_impl; [|apply filter_digits_all]. intros c Hc'.
      rewrite ascii_digit_not_space by auto. reflexivity. }
  rewrite py_float_digits.
  - eexists. split; [reflexivity|]. apply lookup_insert_eq.
  - simpl. rewrite Hd0. discriminate.
  - apply filter_digits_all.
Qed.

(** C8. The total amount is read the same way whatever separates its digits:
    two amounts written with the same digits, with spaces, non-breaking
    spaces or nothing between them, behind the label and before either
    spelling of the unit, give the same [amount_ttc], the double nearest to
    the number the digits spell; the extractor returns on both. *)
Theorem amount_separator_invariant (rt : runtime) (a b : writing) (html : pystr) :
  well_formed a -> well_formed b -> digits_of a = digits_of b ->
  let v := Some (VFloat (nearest_double (digits_value 0 (digits_of a)))) in
  field "amount_ttc" (_extract_dgi_data_from_text rt (text_of a) html) = v /\
  field "amount_ttc" (_extract_dgi_data_from_text rt (text_of b) html) = v /\
  is_ok (_extract_dgi_data_from_text rt (text_of a) html) = true /\
  is_ok (_extract_dgi_data_from_text rt (text_of b) html) = true.
Proof.
  intros (A1 & A2 & A3 & A4) (B1 & B2 & B3 & B4) E v. subst v.
  destruct (amount_field rt _ _ _ _ html A1 A2 A3 A4) as (x & Hx & Hxa).
  destruct (amount_field rt _ _ _ _ html B1 B2 B3 B4) as (y & Hy & Hya).
  unfold text_of. rewrite Hx, Hy. simpl.
  rewrite Hxa, Hya. unfold written_number. fold (digits_of a). fold (digits_of b).
  rewrite E. repeat split.
Qed.

Lemma well_formed_examples : well_formed spaced /\ well_formed unbroken /\ well_formed solid.
Proof. repeat split; try reflexivity; (left; reflexivity) || (right; reflexivity). Defined.

(** The three spellings of the specification. *)
Lemma amount_separator_invariant_witness :
  text_of spaced = py "MONTANT TTC: 1 677 566 FCFA" /\
  text_of unbroken = py "MONTANT TTC: 1" ++ [nbsp] ++ py "677" ++ [nbsp] ++ py "566 CFA" /\
  text_of solid = py "MONTANT TTC: 1677566 FCFA" /\
  field "amount_ttc" (_extract_dgi_data_from_text ascii_runtime (text_of spaced) [])
  = Some (VFloat (float_of_Z 1677566)) /\
  field "amount_ttc" (_extract_dgi_data_from_text ascii_runtime (text_of unbroken) [])
  = Some (VFloat (float_of_Z 1677566)) /\
  field "amount_ttc" (_extract_dgi_data_from_text ascii_runtime (text_of solid) [])
  = Some (VFloat (float_of_Z 1677566)).
Proof.
  destruct well_formed_examples as (Ha & Hb & Hc).
  destruct (amount_separator_invariant ascii_runtime spaced unbroken [] Ha Hb eq_refl)
    as (H1 & H2 & _).
  destruct (amount_separator_invariant ascii_runtime spaced solid [] Ha Hc eq_refl)
    as (_ & H3 & _).
  split; [reflexivity|]. split; [reflexivity|]. split; [reflexivity|].
  split; [exact H1|]. split; [exact H2|exact H3].
Defined.

(** ** The extractor on a date that is not a calendar date *)

(** A date of another form is not captured: the field stays absent and the
    other fields are extracted. *)
Example date_of_other_form_is_skipped :
  let r := _extract_dgi_data_from_text ascii_runtime
             (py "FOURNISSEUR: ACME - 42K DATE DE FACTURATION: 2024-01-15 MONTANT TTC: 10 CFA") [] in
  field "invoice_date" r = None /\
  field "supplier_name" r = Some (VStr (py "ACME")) /\
  field "amount_ttc" r = Some (VFloat (float_of_Z 10)).
Proof. vm_compute. repeat split. Qed.

(** C2. The extractor on a page whose date has the captured form but names
    no calendar date: [strptime] raises [ValueError] and the extractor raises
    with it, for every runtime and markup; no field set is returned. The same
    happens for a day that the month does not have, and for an amount whose
    digits are separated by a tabulation. *)
Theorem extract_raises_on_invalid_date (rt : runtime) (html : pystr) :
  _extract_dgi_data_from_text rt invalid_date_page html
  = Raise (Exn ValueError (py "time data '99/99/2024' does not match format '%d/%m/%Y'"))
  /\ _extract_dgi_data_from_text rt (py "DATE DE FACTURATION: 31/02/2024") html
     = Raise (Exn ValueError (py "day is out of range for month"))
  /\ fails (_extract_dgi_data_from_text rt
              (py "MONTANT TTC: 1" ++ [9] ++ py "677 FCFA") html).
Proof.
  split; [|split].
  - vm_compute. reflexivity.
  - vm_compute. reflexivity.
  - eexists. vm_compute. reflexivity.
Qed.

(** The message of the rejected amount quotes the string as [repr] shows
    it, the tabulation escaped. *)
Example float_error_message :
  py_float ascii_runtime (py "1" ++ [9] ++ py "677")
  = Raise (Exn ValueError (py "could not convert string to float: '1\t677'")).
Proof. vm_compute. reflexivity. Qed.

(** ** Lemmas on the store *)

Lemma find_by_id (l : list scan_record) r :
  NoDup (List.map rec_id l) -> In r l ->
  List.find (fun x => (rec_id x =? rec_id r)%Z) l = Some r.
Proof.
  induction l as [|x l IH]; intros Hnd Hin; [destruct Hin|].
  simpl in *. apply NoDup_cons in Hnd as [Hx Hnd].
  destruct Hin as [->|Hin].
  - rewrite Z.eqb_refl. reflexivity.
  - destruct (Z.eqb_spec (rec_id x) (rec_id r)) as [E|_]; [|auto].
    exfalso. apply Hx. rewrite E. apply list_elem_of_In, in_map, Hin.
Qed.

Lemma find_in {A} (p : A -> bool) l x : List.find p l = Some x -> In x l /\ p x = true.
Proof. apply find_some. Qed.

Lemma lookup_record_in rid w r : lookup_record rid w = Some r -> In r (records w) /\ rec_id r = rid.
Proof.
  unfold lookup_record, find_record. intros H. apply find_in in H as [Hin Hid].
  split; [exact Hin|]. apply Z.eqb_eq. exact Hid.
Qed.

Lemma lookup_record_of_in w r :
  store_ok w -> In r (records w) -> lookup_record (rec_id r) w = Some r.
Proof. intros [Hnd _] Hin. apply find_by_id; assumption. Qed.

Lemma find_record_map rid f l :
  (forall r, rec_id (f r) = rec_id r) ->
  find_record rid (List.map (fun r => if (rec_id r =? rid)%Z then f r else r) l)
  = f <$> find_record rid l.
Proof.
  intros Hf. unfold find_record.
  induction l as [|x l IH]; [reflexivity|]. simpl.
  destruct (Z.eqb_spec (rec_id x) rid) as [E|E].
  - rewrite Hf. destruct (Z.eqb_spec (rec_id x) rid); [reflexivity|contradiction].
  - destruct (Z.eqb_spec (rec_id x) rid); [contradiction|]. exact IH.
Qed.

(** Writing fields other than the identifier, then reading the record. *)
Lemma lookup_record_write rid f w :
  (forall r, rec_id (f r) = rec_id r) ->
  lookup_record rid (snd (write rid f w)) = f <$> lookup_record rid w.
Proof. intros Hf. unfold lookup_record, write. simpl. apply find_record_map, Hf. Qed.

Lemma write_ids rid f w :
  (forall r, rec_id (f r) = rec_id r) -> ids (snd (write rid f w)) = ids w.
Proof.
  intros Hf. unfold ids, write. simpl. rewrite List.map_map.
  apply map_ext. intros r. destruct (rec_id r =? rid)%Z; [apply Hf|reflexivity].
Qed.

Lemma write_other rid f w r :
  In r (records w) -> rec_id r <> rid -> In r (records (snd (write rid f w))).
Proof.
  intros Hin Hne. unfold write. simpl. apply in_map_iff. exists r. split; [|exact Hin].
  destruct (Z.eqb_spec (rec_id r) rid); [contradiction|reflexivity].
Qed.

Lemma write_events rid f w : events (snd (write rid f w)) = events w.
Proof. reflexivity. Qed.

Lemma check_duplicate_some cx uuid w r :
  check_duplicate cx uuid w = Some r ->
  In r (records w) /\ qr_uuid r = uuid /\ is_successful (state r) = true
  /\ company_id r = env_company cx.
Proof.
  unfold check_duplicate. intros H. apply find_in in H as [Hin Hp].
  apply andb_true_iff in Hp as [Hp Hc]. apply andb_true_iff in Hp as [Hu Hs].
  unfold pystr_eqb in Hu. apply bool_decide_eq_true in Hu. apply Z.eqb_eq in Hc. auto.
Qed.

Lemma check_duplicate_finds cx uuid w r :
  In r (records w) -> qr_uuid r = uuid -> is_successful (state r) = true ->
  company_id r = env_company cx ->
  exists existing, check_duplicate cx uuid w = Some existing.
Proof.
  intros Hin Hu Hs Hc. unfold check_duplicate.
  destruct (List.find _ (records w)) eqn:E; [eauto|].
  exfalso. eapply find_none in E; [|exact Hin]. simpl in E.
  rewrite Hs, Hc, Z.eqb_refl in E. unfold pystr_eqb in E.
  rewrite bool_decide_eq_true_2 in E by exact Hu. discriminate.
Qed.

Lemma check_duplicate_none cx uuid w r :
  check_duplicate cx uuid w = None -> In r (records w) -> qr_uuid r = uuid ->
  company_id r = env_company cx -> is_successful (state r) = false.
Proof.
  unfold check_duplicate. intros H Hin Hu Hc.
  eapply find_none in H; [|exact Hin]. simpl in H.
  rewrite Hc, Z.eqb_refl in H. unfold pystr_eqb in H.
  rewrite bool_decide_eq_true_2 in H by exact Hu.
  destruct (is_successful (state r)); [discriminate|reflexivity].
Qed.

(** An extracted identifier is never the empty string. *)
Lemma extract_uuid_nonempty url uuid :
  extract_uuid_from_url url = Some uuid -> exists c u, uuid = c :: u.
Proof.
  intros H. pose proof (extract_uuid_cases url) as Hc. rewrite H in Hc.
  destruct Hc as (pre & u & post & _ & Hu & -> & _).
  unfold is_uuid in Hu. apply andb_true_iff in Hu as [Hl _]. apply Nat.eqb_eq in Hl.
  destruct u as [|c u]; [discriminate|]. simpl. eauto.
Qed.

Lemma set_duplicate_id c a b r : rec_id (set_duplicate c a b r) = rec_id r.
Proof. reflexivity. Qed.

(** ** Rescanning a successful record *)

(** C3. When the store holds a record in state done or processed for the
    identifier of the URL and the requesting company, [process_qr_scan]
    answers [DUPLICATE] for the record that [check_duplicate] finds, which
    is a record of the store in state done or processed with that identifier
    and company. The result carries the snapshot of that record: its
    identifier, reference, supplier name and code, invoice number, amount,
    invoice, scan date and scanning user as the record has them, with the
    count and the time of this attempt. The count reported and stored is the
    previous count plus one (1 on the first rescan, when the count was 0);
    the time and the acting user of the attempt are stamped on that record;
    no record is created, no other record changes, and neither the fetch nor
    the invoice creation is attempted. *)
Theorem duplicate_scan (rt : runtime) (net : transport) (pw : playwright)
    (acc : accounting) (cx : context) (w : world) (url : pystr)
    (user_id : option Z) (uuid : pystr) (r : scan_record) :
  store_ok w ->
  extract_uuid_from_url url = Some uuid ->
  In r (records w) -> qr_uuid r = uuid -> is_successful (state r) = true ->
  company_id r = env_company cx ->
  exists existing w',
    check_duplicate cx uuid w = Some existing /\
    In existing (records w) /\ qr_uuid existing = uuid /\
    is_successful (state existing) = true /\ company_id existing = env_company cx /\
    let updated := set_duplicate (duplicate_count existing + 1) (now cx)
                     (acting_user cx user_id) existing in
    process_qr_scan rt net pw acc cx url user_id w
    = (Ok (Duplicate (duplicate_count existing + 1) (snapshot cx updated)), w') /\
    ex_id (snapshot cx updated) = rec_id existing /\
    ex_reference (snapshot cx updated) = reference existing /\
    ex_supplier_name (snapshot cx updated)
    = (if truthy (supplier_name existing)
       then default (VStr []) (supplier_name existing) else VStr []) /\
    ex_supplier_code_dgi (snapshot cx updated)
    = (if truthy (supplier_code_dgi existing)
       then default (VStr []) (supplier_code_dgi existing) else VStr []) /\
    ex_invoice_number_dgi (snapshot cx updated)
    = (if truthy (invoice_number_dgi existing)
       then default (VStr []) (invoice_number_dgi existing) else VStr []) /\
    ex_amount_ttc (snapshot cx updated)
    = (if truthy (Some (amount_ttc existing)) then amount_ttc existing else VInt 0) /\
    ex_invoice_id (snapshot cx updated) = inv_id <$> invoice_id existing /\
    ex_invoice_name (snapshot cx updated) = inv_name <$> invoice_id existing /\
    ex_scan_date (snapshot cx updated) = scan_date existing /\
    ex_scanned_by (snapshot cx updated) = user_name cx (scanned_by existing) /\
    ex_last_duplicate_attempt (snapshot cx updated) = Some (now cx) /\
    error_code (Duplicate (duplicate_count existing + 1) (snapshot cx updated))
    = Some "DUPLICATE"%string /\
    ex_duplicate_count (snapshot cx updated) = (duplicate_count existing + 1)%Z /\
    (duplicate_count existing = 0%Z -> ex_duplicate_count (snapshot cx updated) = 1%Z) /\
    lookup_record (rec_id existing) w' = Some updated /\
    duplicate_count updated = (duplicate_count existing + 1)%Z /\
    last_duplicate_attempt updated = Some (now cx) /\
    last_duplicate_user_id updated = Some (acting_user cx user_id) /\
    ids w' = ids w /\
    (forall r', In r' (records w) -> rec_id r' <> rec_id existing -> In r' (records w')) /\
    events w' = events w.
Proof.
  intros Hok Hurl Hin Hu Hs Hc.
  destruct (check_duplicate_finds cx uuid w r Hin Hu Hs Hc) as [existing Hex].
  destruct (check_duplicate_some _ _ _ _ Hex) as (Hein & Heu & Hes & Hec).
  destruct (extract_uuid_nonempty _ _ Hurl) as (c & u & ->).
  set (f := set_duplicate (duplicate_count existing + 1) (now cx)
              (acting_user cx user_id)).
  pose proof (lookup_record_write (rec_id existing) f w (set_duplicate_id _ _ _)) as Hl.
  rewrite (lookup_record_of_in w existing Hok Hein) in Hl.
  unfold write, lookup_record in Hl. cbn [snd fmap option_fmap option_map records] in Hl.
  set (w1 := snd (write (rec_id existing) f w)).
  exists existing,
    (World (records w1) (next_id w1) (sequence w1)
       ((rec_id existing,
         py "Tentative de scan doublon #" ++ str_of_Z (duplicate_count (f existing))
         ++ py " par " ++ user_name cx (acting_user cx user_id)) :: chatter w1)
       (events w1)).
  split; [exact Hex|]. split; [exact Hein|]. split; [exact Heu|].
  split; [exact Hes|]. split; [exact Hec|]. cbv zeta. fold f.
  split.
  - unfold process_qr_scan. rewrite Hurl, Hex.
    cbv [mbind mret M_bind M_ret write read message_post lookup_record]. fold f.
    cbn [records]. rewrite Hl. reflexivity.
  - split; [reflexivity|]. split; [reflexivity|].
    split; [unfold snapshot, value_or; cbn [ex_supplier_name f set_duplicate supplier_name];
            destruct (supplier_name existing); reflexivity|].
    split; [unfold snapshot, value_or;
            cbn [ex_supplier_code_dgi f set_duplicate supplier_code_dgi];
            destruct (supplier_code_dgi existing); reflexivity|].
    split; [unfold snapshot, value_or;
            cbn [ex_invoice_number_dgi f set_duplicate invoice_number_dgi];
            destruct (invoice_number_dgi existing); reflexivity|].
    split; [reflexivity|].
    repeat split; try reflexivity.
    + intros H0. simpl. lia.
    + exact Hl.
    + apply (write_ids (rec_id existing) f w). apply set_duplicate_id.
    + intros r' Hr' Hne. simpl. apply (write_other (rec_id existing) f w r' Hr' Hne).
Qed.

(** ** Scenario B: a second scan of the same URL *)

Example first_scan_succeeds :
  fst (process_qr_scan ascii_runtime sample_net no_browser good_accounting cx0
         sample_url (Some 5%Z) w_empty)
  = Ok (Created 1 (py "SCAN/1") sample_invoice) /\
  (exists r, records w_scanned = [r] /\ state r = Done /\ duplicate_count r = 0%Z
             /\ invoice_id r = Some sample_invoice /\ qr_uuid r = sample_uuid) /\
  events w_scanned = [EInvoice 1; EFetch sample_url].
Proof. split; [vm_compute; reflexivity|]. split; [eexists|]; repeat split. Qed.

Lemma store_ok_w_scanned : store_ok w_scanned.
Proof.
  split.
  - apply NoDup_cons. split; [apply not_elem_of_nil|apply NoDup_nil_2].
  - repeat constructor.
Defined.

(** Scenario B: the second scan of the same URL is a duplicate with count 1,
    and the store still holds the one record. *)
Lemma duplicate_scan_witness :
  exists snap w',
    process_qr_scan ascii_runtime sample_net no_browser good_accounting cx0
      sample_url (Some 5%Z) w_scanned
    = (Ok (Duplicate 1 snap), w') /\
    ex_id snap = 1%Z /\ ex_reference snap = py "SCAN/1" /\
    ex_invoice_id snap = Some (inv_id sample_invoice) /\
    ex_duplicate_count snap = 1%Z /\ ids w' = [1%Z] /\ events w' = events w_scanned.
Proof.
  destruct (List.hd_error (records w_scanned)) as [r|] eqn:Hr; [|discriminate].
  injection Hr as <-.
  edestruct (duplicate_scan ascii_runtime sample_net no_browser good_accounting cx0
               w_scanned sample_url (Some 5%Z) sample_uuid)
    as (existing & w' & Hex & _ & _ & _ & _ & Hrun & Hid & Href & _ & _ & _ & _ & Hinv
        & _ & _ & _ & _ & _ & Hcount & _ & _ & _ & _ & _ & Hids & _ & Hev).
  - exact store_ok_w_scanned.
  - vm_compute. reflexivity.
  - left. reflexivity.
  - reflexivity.
  - reflexivity.
  - reflexivity.
  - vm_compute in Hex. injection Hex as <-.
    eexists. exists w'. split; [exact Hrun|]. split; [exact Hid|].
    split; [exact Href|]. split; [exact Hinv|]. split; [exact Hcount|].
    split; [exact Hids|exact Hev].
Defined.

(** ** Invoice creation *)

Lemma set_partner_id p r : rec_id (set_partner p r) = rec_id r.
Proof. reflexivity. Qed.
Lemma set_invoice_done_id i r : rec_id (set_invoice_done i r) = rec_id r.
Proof. reflexivity. Qed.
Lemma set_error_id m r : rec_id (set_error m r) = rec_id r.
Proof. reflexivity. Qed.
Lemma set_error_message_id m r : rec_id (set_error_message m r) = rec_id r.
Proof. reflexivity. Qed.

(** How [_create_invoice] runs on a record that has no invoice yet. *)
Lemma _create_invoice_run acc rid w self :
  lookup_record rid w = Some self -> invoice_id self = None ->
  _create_invoice acc rid w =
    let w1 := snd (log (EInvoice rid) w) in
    match get_or_create_supplier acc self with
    | Raise e => (Raise e, w1)
    | Ok partner =>
        let w2 := snd (write rid (set_partner partner) w1) in
        match post_invoice acc (set_partner partner self) partner with
        | Raise e => (Raise e, w2)
        | Ok inv => (Ok inv, snd (write rid (set_invoice_done inv) w2))
        end
    end.
Proof.
  intros Hl Hi. unfold _create_invoice.
  cbv [mbind mret M_bind M_ret read]. rewrite Hl, Hi.
  cbv [log lift write snd]. cbn [records next_id sequence chatter events].
  destruct (get_or_create_supplier acc self) as [partner|e]; [|reflexivity].
  unfold lookup_record. cbn [records].
  rewrite (find_record_map rid (set_partner partner)) by reflexivity.
  unfold lookup_record in Hl. rewrite Hl. cbn [fmap option_fmap option_map].
  destruct (post_invoice acc (set_partner partner self) partner); reflexivity.
Qed.

Lemma _create_invoice_rejects acc rid w self i :
  lookup_record rid w = Some self -> invoice_id self = Some i ->
  _create_invoice acc rid w = (Raise already_invoiced, w).
Proof.
  intros Hl Hi. unfold _create_invoice.
  cbv [mbind mret M_bind M_ret read]. rewrite Hl, Hi. reflexivity.
Qed.

Lemma _create_invoice_missing acc rid w :
  lookup_record rid w = None -> snd (_create_invoice acc rid w) = w.
Proof.
  intros Hl. unfold _create_invoice.
  cbv [mbind mret M_bind M_ret read]. rewrite Hl. reflexivity.
Qed.

Lemma log_ids ev w : ids (snd (log ev w)) = ids w.
Proof. reflexivity. Qed.

(** Invoice creation neither adds nor removes a record. *)
Lemma _create_invoice_ids acc rid w : ids (snd (_create_invoice acc rid w)) = ids w.
Proof.
  destruct (lookup_record rid w) as [self|] eqn:Hl;
    [|rewrite _create_invoice_missing by exact Hl; reflexivity].
  destruct (invoice_id self) as [i|] eqn:Hi;
    [rewrite (_create_invoice_rejects _ _ _ _ _ Hl Hi); reflexivity|].
  rewrite (_create_invoice_run _ _ _ _ Hl Hi). cbv zeta.
  destruct (get_or_create_supplier acc self) as [partner|e]; [|reflexivity].
  destruct (post_invoice acc (set_partner partner self) partner); cbn [snd].
  - rewrite !write_ids by reflexivity. reflexivity.
  - rewrite write_ids by reflexivity. reflexivity.
Qed.

(** It calls the accounting collaborator once, and nothing else, when the
    record has no invoice; otherwise it calls nothing. *)
Lemma _create_invoice_events acc rid w :
  events (snd (_create_invoice acc rid w))
  = match lookup_record rid w with
    | Some self =>
        match invoice_id self with
        | None => EInvoice rid :: events w
        | Some _ => events w
        end
    | None => events w
    end.
Proof.
  destruct (lookup_record rid w) as [self|] eqn:Hl;
    [|rewrite _create_invoice_missing by exact Hl; reflexivity].
  destruct (invoice_id self) as [i|] eqn:Hi;
    [rewrite (_create_invoice_rejects _ _ _ _ _ Hl Hi); reflexivity|].
  rewrite (_create_invoice_run _ _ _ _ Hl Hi). cbv zeta.
  destruct (get_or_create_supplier acc self) as [partner|e]; [|reflexivity].
  destruct (post_invoice acc (set_partner partner self) partner); reflexivity.
Qed.

Lemma lookup_record_exists rid w :
  In rid (ids w) -> exists r, lookup_record rid w = Some r.
Proof.
  unfold ids, lookup_record, find_record. intros H.
  apply in_map_iff in H as (r & Hr & Hin).
  destruct (List.find _ (records w)) eqn:E; [eauto|].
  eapply find_none in E; [|exact Hin]. simpl in E.
  rewrite Hr, Z.eqb_refl in E. discriminate.
Qed.

Lemma lookup_record_ids rid w r : lookup_record rid w = Some r -> In rid (ids w).
Proof.
  intros H. apply lookup_record_in in H as [Hin <-]. unfold ids. apply in_map, Hin.
Qed.

(** What a successful [create] does to the store. *)
Lemma create_ok cx vals w r w1 :
  create cx vals w = (Ok r, w1) ->
  violates_qr_uuid_unique vals w = false /\
  records w1 = r :: records w /\ events w1 = events w /\
  rec_id r = next_id w /\ qr_uuid r = qr_uuid vals /\ company_id r = company_id vals /\
  state r = state vals /\ amount_ttc r = amount_ttc vals /\
  invoice_id r = invoice_id vals /\ error_message r = error_message vals.
Proof.
  unfold create. destruct (violates_qr_uuid_unique vals w); [discriminate|].
  intros H. injection H as <- <-. repeat split.
Qed.

(** The constraint covers every record, whatever its state. *)
Lemma create_violation cx vals w r :
  In r (records w) -> qr_uuid r = qr_uuid vals -> company_id r = company_id vals ->
  exists e, fst (create cx vals w) = Raise e /\ kind e = IntegrityError /\
            records (snd (create cx vals w)) = records w /\
            events (snd (create cx vals w)) = events w.
Proof.
  intros Hin Hu Hc. unfold create.
  assert (violates_qr_uuid_unique vals w = true) as ->.
  { unfold violates_qr_uuid_unique. apply existsb_exists. exists r. split; [exact Hin|].
    rewrite Hc, Z.eqb_refl. unfold pystr_eqb.
    rewrite bool_decide_eq_true_2 by exact Hu. reflexivity. }
  eexists. repeat split.
Qed.

(** ** A failure of invoice creation is caught *)

(** C5. In [process_qr_scan], once the draft record [r] is created, an
    exception [e] raised by [_create_invoice] does not leave the function:
    the result is the [INVOICE_ERROR] dictionary ([success] false) with the
    identifier of [r], and the record is afterwards in state error with
    [str(e)] as its error message. *)
Theorem invoice_error_is_caught (rt : runtime) (net : transport) (pw : playwright)
    (acc : accounting) (cx : context) (w : world) (url : pystr) (user_id : option Z)
    (uuid : pystr) (d : gmap string value) (r : scan_record) (w1 w2 : world) (e : exn) :
  extract_uuid_from_url url = Some uuid ->
  check_duplicate cx uuid w = None ->
  fetch_invoice_data_from_dgi rt net pw url = Ok d ->
  truthy (d !! "success") = true ->
  create cx (record_vals cx uuid url user_id d) (snd (log (EFetch url) w)) = (Ok r, w1) ->
  _create_invoice acc (rec_id r) w1 = (Raise e, w2) ->
  let res := InvoiceError (py "Erreur lors de la création de la facture: " ++ message e)
                          (rec_id r) in
  let w3 := snd (write (rec_id r) (set_error (message e)) w2) in
  process_qr_scan rt net pw acc cx url user_id w = (Ok res, w3) /\
  success res = false /\ error_code res = Some "INVOICE_ERROR"%string /\
  exists r', lookup_record (rec_id r) w3 = Some r' /\ state r' = Error /\
             error_message r' = Some (VStr (message e)).
Proof.
  intros Hurl Hdup Hfetch Hsucc Hcreate Hinv res w3.
  destruct (extract_uuid_nonempty _ _ Hurl) as (c & u & ->).
  split; [|split; [reflexivity|split; [reflexivity|]]].
  - unfold process_qr_scan. rewrite Hurl, Hdup.
    cbv [mbind mret M_bind M_ret lift]. unfold log in *. cbn [snd] in Hcreate.
    rewrite Hfetch, Hsucc. cbn [negb]. rewrite Hcreate.
    unfold create_invoice_or_error, try_M.
    cbv [mbind mret M_bind M_ret]. rewrite Hinv. reflexivity.
  - apply create_ok in Hcreate as (_ & Hrec & _).
    assert (Hin1 : In (rec_id r) (ids w1)) by (unfold ids; rewrite Hrec; left; reflexivity).
    rewrite <- (_create_invoice_ids acc (rec_id r) w1), Hinv in Hin1. cbn [snd] in Hin1.
    destruct (lookup_record_exists _ _ Hin1) as [r2 Hr2].
    exists (set_error (message e) r2). subst w3.
    rewrite lookup_record_write by reflexivity. rewrite Hr2. repeat split.
Qed.

Lemma sample_fetch :
  fetch_invoice_data_from_dgi ascii_runtime sample_net no_browser sample_url
  = Ok sample_data.
Proof.
  unfold sample_data.
  assert (H : is_ok (fetch_invoice_data_from_dgi ascii_runtime sample_net no_browser
                       sample_url) = true) by (vm_compute; reflexivity).
  destruct (fetch_invoice_data_from_dgi ascii_runtime sample_net no_browser sample_url);
    [reflexivity|discriminate].
Defined.

Lemma sample_data_success : truthy (sample_data !! "success") = true.
Proof. vm_compute. reflexivity. Defined.

Lemma lookup_created r l w :
  records w = r :: l -> lookup_record (rec_id r) w = Some r.
Proof.
  intros H. unfold lookup_record, find_record. rewrite H. simpl.
  rewrite Z.eqb_refl. reflexivity.
Defined.

(** A scan whose fetch succeeds and whose invoice creation fails for want of
    a journal. *)
Lemma invoice_error_is_caught_witness :
  exists rid w',
    process_qr_scan ascii_runtime sample_net no_browser failing_accounting cx0
      sample_url (Some 5%Z) w_empty
    = (Ok (InvoiceError (py "Erreur lors de la création de la facture: " ++ message no_journal)
                        rid), w') /\
    exists r', lookup_record rid w' = Some r' /\ state r' = Error /\
               error_message r' = Some (VStr (message no_journal)).
Proof.
  set (vals := record_vals cx0 sample_uuid sample_url (Some 5%Z) sample_data).
  set (w0 := snd (log (EFetch sample_url) w_empty)).
  destruct (create cx0 vals w0) as [[r|e] w1] eqn:Hc; [|discriminate Hc].
  set (w2 := snd (write (rec_id r) (set_partner 7) (snd (log (EInvoice (rec_id r)) w1)))).
  assert (Hrun : _create_invoice failing_accounting (rec_id r) w1 = (Raise no_journal, w2)).
  { destruct (create_ok _ _ _ _ _ Hc) as (_ & Hrec & _ & _ & _ & _ & _ & _ & Hnone & _).
    rewrite (_create_invoice_run failing_accounting _ _ _ (lookup_created _ _ _ Hrec) Hnone).
    reflexivity. }
  destruct (invoice_error_is_caught ascii_runtime sample_net no_browser
              failing_accounting cx0 w_empty sample_url (Some 5%Z) sample_uuid
              sample_data r w1 w2 no_journal) as (Hres & _ & _ & Hrec).
  - vm_compute. reflexivity.
  - reflexivity.
  - exact sample_fetch.
  - exact sample_data_success.
  - exact Hc.
  - exact Hrun.
  - eexists. eexists. split; [exact Hres|exact Hrec].
Defined.

(** ** Uniqueness of the identifier *)

Example first_scan_fails :
  fst (process_qr_scan ascii_runtime dead_transport no_browser good_accounting cx0
         sample_url (Some 5%Z) w_empty)
  = Ok (DgiError (Some (VStr (py "Playwright non installé sur le serveur"))) 1).
Proof. vm_compute. reflexivity. Qed.

(** While a record exists for the identifier and the company and none is a
    duplicate, both insertions of [process_qr_scan] violate the constraint:
    the scan raises and the records stay as they are. *)
Lemma process_qr_scan_blocked rt net pw acc cx url user_id c u r w :
  extract_uuid_from_url url = Some (c :: u) ->
  In r (records w) -> qr_uuid r = c :: u -> company_id r = env_company cx ->
  check_duplicate cx (c :: u) w = None ->
  exists e w', process_qr_scan rt net pw acc cx url user_id w = (Raise e, w') /\
               ids w' = ids w.
Proof.
  intros Hurl Hin Hu Hc Hnone. unfold process_qr_scan. rewrite Hurl, Hnone.
  cbv [mbind mret M_bind M_ret lift log].
  destruct (fetch_invoice_data_from_dgi rt net pw url) as [d|e];
    [|do 2 eexists; split; reflexivity].
  set (w0 := World (records w) (next_id w) (sequence w) (chatter w)
                   (EFetch url :: events w)).
  destruct (negb (truthy (d !! "success"))).
  - destruct (create_violation cx (error_vals cx (c :: u) url user_id d) w0 r Hin)
      as (e & He & _ & Hr & _); [simpl; congruence..|].
    destruct (create cx (error_vals cx (c :: u) url user_id d) w0) as [[x|e'] w1];
      [discriminate|].
    do 2 eexists. split; [reflexivity|]. unfold ids. simpl in *. rewrite Hr. reflexivity.
  - destruct (create_violation cx (record_vals cx (c :: u) url user_id d) w0 r Hin)
      as (e & He & _ & Hr & _); [simpl; congruence..|].
    destruct (create cx (record_vals cx (c :: u) url user_id d) w0) as [[x|e'] w1];
      [discriminate|].
    do 2 eexists. split; [reflexivity|]. unfold ids. simpl in *. rewrite Hr. reflexivity.
Qed.

(** C1. The code at the store left by a failed scan. The store holds one
    record, in state error, for the identifier and the company; the record
    is not a duplicate, as the docstring of [check_duplicate] has it, so the
    scan goes on to the fetch, which succeeds, and to the insertion of a new
    record, which violates [unique(qr_uuid, company_id)]: the scan that
    creates the invoice on an empty store ends in an [IntegrityError] that
    [process_qr_scan] does not catch. Whatever the collaborators do, the scan
    of that identifier raises. *)
Lemma error_record_blocks_rescan :
  (exists r, records w_failed = [r] /\ state r = Error /\ qr_uuid r = sample_uuid
             /\ company_id r = env_company cx0) /\
  check_duplicate cx0 sample_uuid w_failed = None /\
  (exists i ref inv,
     fst (process_qr_scan ascii_runtime sample_net no_browser good_accounting cx0
            sample_url (Some 5%Z) w_empty) = Ok (Created i ref inv)) /\
  (exists e,
     fst (process_qr_scan ascii_runtime sample_net no_browser good_accounting cx0
            sample_url (Some 5%Z) w_failed) = Raise e /\ kind e = IntegrityError) /\
  (forall rt net pw acc user_id, exists e,
     fst (process_qr_scan rt net pw acc cx0 sample_url user_id w_failed) = Raise e).
Proof.
  split; [eexists; repeat split|].
  split; [reflexivity|].
  split; [do 3 eexists; vm_compute; reflexivity|].
  split; [eexists; split; vm_compute; reflexivity|].
  intros rt net pw acc user_id.
  destruct (records w_failed) as [|r l] eqn:Hr; [discriminate|].
  destruct sample_uuid as [|c u] eqn:Hs; [discriminate|].
  destruct (process_qr_scan_blocked rt net pw acc cx0 sample_url user_id c u r w_failed)
    as (e & w' & Hrun & _).
  - rewrite <- Hs. reflexivity.
  - rewrite Hr. left. reflexivity.
  - rewrite <- Hs. injection Hr as <- _. reflexivity.
  - injection Hr as <- _. reflexivity.
  - rewrite <- Hs. reflexivity.
  - exists e. rewrite Hrun. reflexivity.
Qed.

Lemma process_qr_scan_duplicate_branch rt net pw acc cx url user_id c u existing w :
  extract_uuid_from_url url = Some (c :: u) ->
  check_duplicate cx (c :: u) w = Some existing ->
  let f := set_duplicate (duplicate_count existing + 1) (now cx) (acting_user cx user_id) in
  let w1 := snd (write (rec_id existing) f w) in
  (exists count snap w', process_qr_scan rt net pw acc cx url user_id w
                         = (Ok (Duplicate count snap), w') /\ ids w' = ids w) \/
  (exists e, process_qr_scan rt net pw acc cx url user_id w = (Raise e, w1)).
Proof.
  intros Hurl Hex f w1. unfold process_qr_scan. rewrite Hurl, Hex.
  cbv [mbind mret M_bind M_ret read message_post]. fold f.
  change (write (rec_id existing) f w) with (Ok tt, w1).
  cbv iota beta.
  destruct (lookup_record (rec_id existing) w1) as [r'|].
  - left. do 3 eexists. split; [reflexivity|].
    unfold ids. cbn [records]. apply (write_ids (rec_id existing) f w). reflexivity.
  - right. eexists. reflexivity.
Qed.

(** A retry on an error record without invoice, when the accounting
    collaborator succeeds, leaves that record in state done with the invoice
    linked. *)
Lemma action_retry_success acc rid w r partner inv :
  lookup_record rid w = Some r -> state r = Error -> invoice_id r = None ->
  get_or_create_supplier acc r = Ok partner ->
  post_invoice acc (set_partner partner r) partner = Ok inv ->
  exists w',
    action_retry_create_invoice acc rid w = (Ok tt, w') /\
    lookup_record rid w' = Some (set_invoice_done inv (set_partner partner r)) /\
    ids w' = ids w.
Proof.
  intros Hl Hs Hi Hp Hinv.
  unfold action_retry_create_invoice.
  cbv [mbind mret M_bind M_ret read try_M]. rewrite Hl, Hs, Hi.
  rewrite bool_decide_eq_true_2 by reflexivity.
  rewrite bool_decide_eq_false_2 by (intros [x Hx]; discriminate).
  cbn [negb andb].
  rewrite (_create_invoice_run acc rid w r Hl Hi). cbv zeta. rewrite Hp, Hinv.
  eexists. split; [reflexivity|]. split.
  - rewrite !lookup_record_write by reflexivity.
    change (lookup_record rid (snd (log (EInvoice rid) w))) with (lookup_record rid w).
    rewrite Hl. reflexivity.
  - rewrite !write_ids by reflexivity. reflexivity.
Qed.

(** What the constraint does to a scan. The constraint
    [unique(qr_uuid, company_id)]
    holds among all records, whatever their state: while a record exists for
    the identifier of the URL and the requesting company, no record with that
    identifier and company can be created, and [process_qr_scan] leaves the
    set of records as it is. When no such record is in state done or
    processed (an error record, for instance), the scan is not answered as a
    duplicate. An error record without invoice is brought to the state done,
    with its invoice linked, by the retry on that same record when the
    accounting collaborator succeeds. *)
Theorem uniqueness_over_all_states (rt : runtime) (net : transport) (pw : playwright)
    (acc : accounting) (cx : context) (w : world) (url : pystr) (user_id : option Z)
    (uuid : pystr) (r : scan_record) :
  store_ok w ->
  extract_uuid_from_url url = Some uuid ->
  In r (records w) -> qr_uuid r = uuid -> company_id r = env_company cx ->
  let run := process_qr_scan rt net pw acc cx url user_id w in
  (forall vals, qr_uuid vals = uuid -> company_id vals = env_company cx ->
                exists e, fst (create cx vals w) = Raise e /\ kind e = IntegrityError) /\
  ids (snd run) = ids w /\
  ((forall r', In r' (records w) -> qr_uuid r' = uuid ->
               company_id r' = env_company cx -> is_successful (state r') = false) ->
   check_duplicate cx uuid w = None /\
   forall count snap, fst run <> Ok (Duplicate count snap)) /\
  (state r = Error -> invoice_id r = None ->
   forall partner inv,
     get_or_create_supplier acc r = Ok partner ->
     post_invoice acc (set_partner partner r) partner = Ok inv ->
     exists w' r',
       action_retry_create_invoice acc (rec_id r) w = (Ok tt, w') /\
       lookup_record (rec_id r) w' = Some r' /\ state r' = Done /\
       invoice_id r' = Some inv /\ qr_uuid r' = uuid /\ ids w' = ids w).
Proof.
  intros Hok Hurl Hin Hu Hc run.
  destruct (extract_uuid_nonempty _ _ Hurl) as (c & u & ->).
  split.
  { intros vals Hvu Hvc.
    destruct (create_violation cx vals w r Hin) as (e & He & Hk & _); [congruence..|].
    eauto. }
  assert (Hretry : state r = Error -> invoice_id r = None ->
    forall partner inv,
      get_or_create_supplier acc r = Ok partner ->
      post_invoice acc (set_partner partner r) partner = Ok inv ->
      exists w' r',
        action_retry_create_invoice acc (rec_id r) w = (Ok tt, w') /\
        lookup_record (rec_id r) w' = Some r' /\ state r' = Done /\
        invoice_id r' = Some inv /\ qr_uuid r' = c :: u /\ ids w' = ids w).
  { intros Hs Hi partner inv Hp Hinv.
    destruct (action_retry_success acc (rec_id r) w r partner inv
                (lookup_record_of_in w r Hok Hin) Hs Hi Hp Hinv) as (w' & Hrun & Hl & Hids).
    exists w', (set_invoice_done inv (set_partner partner r)).
    repeat split; auto. }
  destruct (check_duplicate cx (c :: u) w) as [existing|] eqn:Hex.
  - destruct (process_qr_scan_duplicate_branch rt net pw acc cx url user_id c u existing w
                Hurl Hex)
      as [(count & snap & w' & Hrun & Hids)|(e & Hrun)];
      subst run; rewrite Hrun; simpl.
    + split; [exact Hids|]. split; [|exact Hretry].
      intros Hall. exfalso.
      destruct (check_duplicate_some _ _ _ _ Hex) as (Hein & Heu & Hes & Hec).
      rewrite Hall in Hes by auto. discriminate.
    + split; [apply write_ids; reflexivity|]. split; [|exact Hretry].
      intros Hall. exfalso.
      destruct (check_duplicate_some _ _ _ _ Hex) as (Hein & Heu & Hes & Hec).
      rewrite Hall in Hes by auto. discriminate.
  - destruct (process_qr_scan_blocked rt net pw acc cx url user_id c u r w
                Hurl Hin Hu Hc Hex) as (e & w' & Hrun & Hids).
    subst run. rewrite Hrun. simpl.
    split; [exact Hids|]. split; [|exact Hretry].
    intros _. split; [reflexivity|intros; discriminate].
Qed.

Lemma store_ok_w_failed : store_ok w_failed.
Proof.
  split.
  - apply NoDup_cons. split; [apply not_elem_of_nil|apply NoDup_nil_2].
  - repeat constructor.
Defined.

(** On the store left by the failed scan: a new scan creates nothing and is
    no duplicate; the retry on the error record brings it to done. *)
Lemma uniqueness_over_all_states_witness :
  ids (snd (process_qr_scan ascii_runtime sample_net no_browser good_accounting cx0
              sample_url (Some 5%Z) w_failed)) = [1%Z] /\
  check_duplicate cx0 sample_uuid w_failed = None /\
  exists w' r',
    action_retry_create_invoice good_accounting 1 w_failed = (Ok tt, w') /\
    lookup_record 1 w' = Some r' /\ state r' = Done /\
    invoice_id r' = Some sample_invoice.
Proof.
  destruct (List.hd_error (records w_failed)) as [r|] eqn:Hr; [|discriminate].
  injection Hr as <-.
  edestruct (uniqueness_over_all_states ascii_runtime sample_net no_browser
               good_accounting cx0 w_failed sample_url (Some 5%Z) sample_uuid)
    as (_ & Hids & Hdup & Hretry).
  - exact store_ok_w_failed.
  - vm_compute. reflexivity.
  - left. reflexivity.
  - reflexivity.
  - reflexivity.
  - split; [exact Hids|]. split; [reflexivity|].
    destruct (Hretry eq_refl eq_refl 7%Z sample_invoice eq_refl eq_refl)
      as (w' & r' & Hrun & Hl & Hs & Hi & _).
    exists w', r'. repeat split; assumption.
Defined.

(** ** The manual retry *)

(** On a record that already has its invoice, the model action returns
    normally and changes nothing: the caller is given no sign that the retry
    was refused. The API operation answers [INVALID_STATE] on the same
    record. *)
Lemma action_retry_rejection_is_silent :
  (exists r, lookup_record 1 w_scanned = Some r /\ state r = Done
             /\ invoice_id r = Some sample_invoice) /\
  action_retry_create_invoice good_accounting 1 w_scanned = (Ok tt, w_scanned) /\
  exists msg, retry_error good_accounting 1 w_scanned
              = (Ok (ApiError "INVALID_STATE" msg 400), w_scanned).
Proof.
  split; [eexists; repeat split|]. split; [reflexivity|].
  eexists. reflexivity.
Qed.

Lemma not_is_Some_None {A} : ~ is_Some (@None A).
Proof. intros [x H]. discriminate. Qed.

Lemma action_retry_eligible acc rid w r :
  lookup_record rid w = Some r -> state r = Error -> invoice_id r = None ->
  action_retry_create_invoice acc rid w =
    match _create_invoice acc rid w with
    | (Ok _, w') => (Ok tt, w')
    | (Raise e, w') =>
        (Raise (Exn UserError (py "Erreur: " ++ message e)),
         snd (write rid (set_error_message (message e)) w'))
    end.
Proof.
  intros Hl Hs Hi. unfold action_retry_create_invoice.
  cbv [mbind mret M_bind M_ret read try_M]. rewrite Hl, Hs, Hi.
  rewrite bool_decide_eq_true_2 by reflexivity.
  rewrite bool_decide_eq_false_2 by apply not_is_Some_None.
  cbn [negb andb].
  destruct (_create_invoice acc rid w) as [[inv|e] w']; reflexivity.
Qed.

Lemma retry_error_eligible acc rid w r :
  lookup_record rid w = Some r -> state r = Error -> invoice_id r = None ->
  events (snd (retry_error acc rid w)) = events (snd (_create_invoice acc rid w)).
Proof.
  intros Hl Hs Hi. unfold retry_error. rewrite Hl, Hs, Hi.
  rewrite bool_decide_eq_true_2 by reflexivity.
  rewrite bool_decide_eq_false_2 by apply not_is_Some_None.
  cbn [negb]. cbv [mbind mret M_bind M_ret read try_M].
  destruct (_create_invoice acc rid w) as [[inv|e] w']; [|reflexivity].
  destruct (lookup_record rid w'); reflexivity.
Qed.

(** C7, as the code has it. On a record that has a linked invoice or is not
    in state error, neither retry operation attempts anything: the API
    operation [retry_error] rejects with [INVALID_STATE] (state other than
    error) or [ALREADY_PROCESSED] (state error with an invoice) and status
    400, the model action [action_retry_create_invoice] returns without
    effect. On a record in state error without invoice, each of them makes
    one call to invoice creation and no fetch. *)
Theorem retry_only_creates_invoice (acc : accounting) (rid : Z) (w : world)
    (r : scan_record) :
  lookup_record rid w = Some r ->
  (state r <> Error ->
     action_retry_create_invoice acc rid w = (Ok tt, w) /\
     exists msg, retry_error acc rid w = (Ok (ApiError "INVALID_STATE" msg 400), w)) /\
  (state r = Error -> is_Some (invoice_id r) ->
     action_retry_create_invoice acc rid w = (Ok tt, w) /\
     exists msg, retry_error acc rid w = (Ok (ApiError "ALREADY_PROCESSED" msg 400), w)) /\
  (state r = Error -> invoice_id r = None ->
     events (snd (action_retry_create_invoice acc rid w)) = EInvoice rid :: events w /\
     events (snd (retry_error acc rid w)) = EInvoice rid :: events w).
Proof.
  intros Hl. split; [|split].
  - intros Hs. split.
    + unfold action_retry_create_invoice. cbv [mbind mret M_bind M_ret read].
      rewrite Hl. rewrite bool_decide_eq_false_2 by exact Hs. reflexivity.
    + unfold retry_error. rewrite Hl.
      rewrite bool_decide_eq_false_2 by exact Hs. eexists. reflexivity.
  - intros Hs Hi. split.
    + unfold action_retry_create_invoice. cbv [mbind mret M_bind M_ret read].
      rewrite Hl. rewrite (bool_decide_eq_true_2 (is_Some _)) by exact Hi.
      rewrite andb_false_r. reflexivity.
    + unfold retry_error. rewrite Hl, Hs.
      rewrite bool_decide_eq_true_2 by reflexivity.
      rewrite bool_decide_eq_true_2 by exact Hi. eexists. reflexivity.
  - intros Hs Hi.
    pose proof (_create_invoice_events acc rid w) as Hev. rewrite Hl, Hi in Hev.
    split.
    + rewrite (action_retry_eligible acc rid w r Hl Hs Hi).
      destruct (_create_invoice acc rid w) as [[inv|e] w']; exact Hev.
    + rewrite (retry_error_eligible acc rid w r Hl Hs Hi). exact Hev.
Qed.

(** Scenario D on the error record left by a failed invoice creation: the
    retry calls invoice creation once and does not fetch; on the record of
    the successful scan the model action does nothing. *)
Lemma retry_only_creates_invoice_witness :
  events (snd (action_retry_create_invoice good_accounting 1 w_invoice_failed))
  = EInvoice 1 :: events w_invoice_failed /\
  events (snd (retry_error good_accounting 1 w_invoice_failed))
  = EInvoice 1 :: events w_invoice_failed /\
  action_retry_create_invoice good_accounting 1 w_scanned = (Ok tt, w_scanned).
Proof.
  destruct (lookup_record 1 w_invoice_failed) as [r|] eqn:Hr; [|discriminate].
  destruct (retry_only_creates_invoice good_accounting 1 w_invoice_failed r Hr)
    as (_ & _ & Hretry).
  injection Hr as <-.
  destruct (Hretry eq_refl eq_refl) as [Ha Hb].
  split; [exact Ha|]. split; [exact Hb|].
  destruct (lookup_record 1 w_scanned) as [r|] eqn:Hr; [|discriminate].
  destruct (retry_only_creates_invoice good_accounting 1 w_scanned r Hr)
    as (Hstate & _ & _).
  injection Hr as <-.
  exact (proj1 (Hstate ltac:(discriminate))).
Defined.

(** ** A rendered page is a successful fetch *)

(** The render path on a page that was read. *)
Lemma render_path_read rt pw url t h :
  render_page rt pw url = Ok (t, h) ->
  render_path rt pw url = _extract_dgi_data_from_text rt t h.
Proof. intros H. unfold render_path. rewrite H. reflexivity. Qed.

Lemma fetch_by_render rt net pw url d :
  _fetch_dgi_with_requests rt net url = Ok None ->
  render_path rt pw url = Ok d ->
  fetch_invoice_data_from_dgi rt net pw url = Ok d.
Proof.
  intros Hfast Hrender. unfold fetch_invoice_data_from_dgi.
  rewrite Hfast. cbv [mbind result_bind rbind]. rewrite Hrender. reflexivity.
Qed.

(** The [try] around invoice creation always returns a dictionary, either
    the success or [INVOICE_ERROR], after one call to invoice creation. *)
Lemma create_invoice_or_error_runs acc r w :
  lookup_record (rec_id r) w = Some r -> invoice_id r = None ->
  exists res w',
    create_invoice_or_error acc r w = (Ok res, w') /\
    ((exists inv, res = Created (rec_id r) (reference r) inv) \/
     (exists msg, res = InvoiceError msg (rec_id r))) /\
    events w' = EInvoice (rec_id r) :: events w.
Proof.
  intros Hl Hi.
  pose proof (_create_invoice_events acc (rec_id r) w) as Hev. rewrite Hl, Hi in Hev.
  unfold create_invoice_or_error, try_M. cbv [mbind mret M_bind M_ret].
  destruct (_create_invoice acc (rec_id r) w) as [[inv|e] w'].
  - do 2 eexists. split; [reflexivity|]. split; [left; eauto|exact Hev].
  - do 2 eexists. split; [reflexivity|]. split; [right; eauto|exact Hev].
Qed.

(** The body texts on which the extractor returns. Whenever the extractor
    returns, its result carries a true [success]
    marker. Hence when the fast path gives nothing and the render path reads
    a body text, whatever it is, on which the extractor returns [d], the
    fetch is the success [d] even if [d] holds no extracted field; a scan
    that is no duplicate then creates a record in state draft whose
    [amount_ttc] is the extracted amount, 0 when there is none, and goes on
    to call invoice creation: its result is the success or [INVOICE_ERROR],
    never [DGI_ERROR]. The error codes are the four of the orchestrator;
    none stands for a parsing failure. *)
Theorem rendered_text_is_success (rt : runtime) (net : transport) (pw : playwright)
    (acc : accounting) (cx : context) (w : world) (url : pystr) (user_id : option Z)
    (uuid text_content html : pystr) (d : gmap string value) :
  extract_uuid_from_url url = Some uuid ->
  check_duplicate cx uuid w = None ->
  _fetch_dgi_with_requests rt net url = Ok None ->
  render_page rt pw url = Ok (text_content, html) ->
  _extract_dgi_data_from_text rt text_content html = Ok d ->
  violates_qr_uuid_unique (record_vals cx uuid url user_id d) w = false ->
  (forall t h d', _extract_dgi_data_from_text rt t h = Ok d' ->
                  d' !! "success" = Some (VBool true)) /\
  d !! "success" = Some (VBool true) /\
  fetch_invoice_data_from_dgi rt net pw url = Ok d /\
  (exists r w1 res w',
     create cx (record_vals cx uuid url user_id d) (snd (log (EFetch url) w)) = (Ok r, w1) /\
     state r = Draft /\
     amount_ttc r = default (VInt 0) (d !! "amount_ttc") /\
     (d !! "amount_ttc" = None -> amount_ttc r = VInt 0) /\
     process_qr_scan rt net pw acc cx url user_id w = (Ok res, w') /\
     ((exists inv, res = Created (rec_id r) (reference r) inv) \/
      (exists msg, res = InvoiceError msg (rec_id r))) /\
     events w' = EInvoice (rec_id r) :: EFetch url :: events w) /\
  (forall res : scan_result,
     In (error_code res)
        [None; Some "INVALID_URL"; Some "DUPLICATE"; Some "DGI_ERROR";
         Some "INVOICE_ERROR"]%string).
Proof.
  intros Hurl Hdup Hfast Hread Hextract Hfree.
  assert (Hmark : d !! "success" = Some (VBool true))
    by exact (extract_success_marker _ _ _ _ Hextract).
  assert (Hrender : render_path rt pw url = Ok d)
    by (rewrite (render_path_read _ _ _ _ _ Hread); exact Hextract).
  pose proof (fetch_by_render _ _ _ _ _ Hfast Hrender) as Hfetch.
  split; [intros t h d'; apply extract_success_marker|].
  split; [exact Hmark|]. split; [exact Hfetch|].
  split; [|intros []; simpl; tauto].
  destruct (extract_uuid_nonempty _ _ Hurl) as (c & u & ->).
  set (vals := record_vals cx (c :: u) url user_id d) in *.
  set (w0 := snd (log (EFetch url) w)).
  destruct (create cx vals w0) as [[r|e] w1] eqn:Hc.
  2:{ unfold create in Hc.
      change (violates_qr_uuid_unique vals w0) with (violates_qr_uuid_unique vals w) in Hc.
      rewrite Hfree in Hc. discriminate. }
  destruct (create_ok _ _ _ _ _ Hc)
    as (_ & Hrec & Hev & _ & _ & _ & Hstate & Hamount & Hnone & _).
  destruct (create_invoice_or_error_runs acc r w1 (lookup_created _ _ _ Hrec) Hnone)
    as (res & w' & Hrun & Hres & Hev').
  exists r, w1, res, w'.
  split; [reflexivity|]. split; [exact Hstate|]. split; [exact Hamount|].
  split; [intros Hno; rewrite Hamount; unfold vals; simpl; rewrite Hno; reflexivity|].
  split; [|split; [exact Hres|rewrite Hev', Hev; reflexivity]].
  unfold process_qr_scan. rewrite Hurl, Hdup.
  cbv [mbind mret M_bind M_ret lift]. fold w0.
  change (log (EFetch url) w) with (Ok tt, w0). cbv iota beta.
  rewrite Hfetch, Hmark. cbn [truthy negb]. fold vals. rewrite Hc. exact Hrun.
Qed.

Lemma blank_read :
  render_page ascii_runtime blank_browser sample_url = Ok (blank_text, blank_html).
Proof. vm_compute. reflexivity. Defined.

Lemma blank_extract :
  _extract_dgi_data_from_text ascii_runtime blank_text blank_html = Ok blank_data.
Proof.
  unfold blank_data.
  assert (H : is_ok (_extract_dgi_data_from_text ascii_runtime blank_text blank_html) = true)
    by (vm_compute; reflexivity).
  destruct (_extract_dgi_data_from_text ascii_runtime blank_text blank_html);
    [reflexivity|discriminate].
Defined.

(** No field is extracted from the blank page, and the scan still creates a
    draft record with amount 0 and attempts the invoice. *)
Lemma rendered_text_is_success_witness :
  blank_data !! "supplier_name" = None /\ blank_data !! "amount_ttc" = None /\
  exists r w1 res w',
    create cx0 (record_vals cx0 sample_uuid sample_url (Some 5%Z) blank_data)
      (snd (log (EFetch sample_url) w_empty)) = (Ok r, w1) /\
    state r = Draft /\ amount_ttc r = VInt 0 /\
    process_qr_scan ascii_runtime dead_transport blank_browser good_accounting cx0
      sample_url (Some 5%Z) w_empty = (Ok res, w') /\
    events w' = [EInvoice (rec_id r); EFetch sample_url].
Proof.
  assert (Hno : blank_data !! "amount_ttc" = None) by (vm_compute; reflexivity).
  split; [vm_compute; reflexivity|]. split; [exact Hno|].
  destruct (rendered_text_is_success ascii_runtime dead_transport blank_browser
              good_accounting cx0 w_empty sample_url (Some 5%Z) sample_uuid
              blank_text blank_html blank_data)
    as (_ & _ & _ & (r & w1 & res & w' & Hc & Hs & _ & Hz & Hrun & _ & Hev) & _).
  - vm_compute. reflexivity.
  - reflexivity.
  - vm_compute. reflexivity.
  - exact blank_read.
  - exact blank_extract.
  - reflexivity.
  - exists r, w1, res, w'.
    split; [exact Hc|]. split; [exact Hs|]. split; [exact (Hz Hno)|].
    split; [exact Hrun|exact Hev].
Defined.

(** C10. The code on a rendered page whose date has the captured form but
    names no calendar date. The render path reads a body text, and the
    extractor raises on it instead of returning: the fetch is turned into a
    failure by its [except Exception] clause, and the scan ends in
    [DGI_ERROR] with the message of the parsing failure, leaves a record in
    state error without invoice, and never calls invoice creation, whatever
    the accounting collaborator is. *)
Lemma rendered_invalid_date_is_dgi_error :
  render_page ascii_runtime invalid_date_browser sample_url
  = Ok (invalid_date_page, invalid_date_html) /\
  _fetch_dgi_with_requests ascii_runtime dead_transport sample_url = Ok None /\
  fails (_extract_dgi_data_from_text ascii_runtime invalid_date_page invalid_date_html) /\
  forall acc, exists w',
    process_qr_scan ascii_runtime dead_transport invalid_date_browser acc cx0
      sample_url (Some 5%Z) w_empty
    = (Ok (DgiError
             (Some (VStr (py "Erreur: time data '99/99/2024' does not match format '%d/%m/%Y'")))
             1), w') /\
    error_code (DgiError
             (Some (VStr (py "Erreur: time data '99/99/2024' does not match format '%d/%m/%Y'")))
             1) = Some "DGI_ERROR"%string /\
    events w' = [EFetch sample_url] /\
    exists r, records w' = [r] /\ state r = Error /\ invoice_id r = None /\
              qr_uuid r = sample_uuid.
Proof.
  split; [vm_compute; reflexivity|]. split; [vm_compute; reflexivity|].
  split; [eexists; vm_compute; reflexivity|].
  intros acc. eexists. split; [vm_compute; reflexivity|].
  split; [reflexivity|]. split; [reflexivity|].
  eexists. repeat split.
Qed.

(** ** The fetch never raises, and the store stays well formed *)

(** [fetch_invoice_data_from_dgi] always returns a dictionary: the fast path
    never raises and the render path is under [except Exception]. *)
Lemma fetch_invoice_data_never_raises rt net pw url :
  exists d, fetch_invoice_data_from_dgi rt net pw url = Ok d.
Proof.
  assert (Hr : exists d, try_except (render_path rt pw url) render_handler = Ok d).
  { unfold try_except, render_handler.
    destruct (render_path rt pw url) as [d|e]; [eauto|].
    destruct (kind e); try (eexists; reflexivity);
      destruct (_ || _); eexists; reflexivity. }
  unfold fetch_invoice_data_from_dgi.
  rewrite fetch_with_requests_body_caught.
  cbv [mbind result_bind rbind].
  destruct (match fetch_with_requests_body rt net url with Ok r => r | Raise _ => None end)
    as [data|]; [|exact Hr].
  destruct (usable (Some data)); [eexists; reflexivity|exact Hr].
Qed.

Lemma store_ok_same w w' :
  ids w' = ids w -> next_id w' = next_id w -> store_ok w -> store_ok w'.
Proof.
  unfold store_ok, ids. intros Hi Hn [Hnd Hlt]. rewrite Hn. split.
  - rewrite Hi. exact Hnd.
  - apply Forall_forall. intros r Hr.
    assert (Hin : In (rec_id r) (List.map rec_id (records w))).
    { rewrite <- Hi. apply in_map. apply list_elem_of_In. exact Hr. }
    apply in_map_iff in Hin as (r0 & <- & Hr0).
    rewrite Forall_forall in Hlt. apply Hlt. apply list_elem_of_In. exact Hr0.
Qed.

Lemma write_store_ok rid f w :
  (forall r, rec_id (f r) = rec_id r) -> store_ok w -> store_ok (snd (write rid f w)).
Proof. intros Hf. apply store_ok_same; [apply write_ids, Hf|reflexivity]. Qed.

(** [create] hands out a fresh identifier. *)
Lemma create_store_ok cx vals w : store_ok w -> store_ok (snd (create cx vals w)).
Proof.
  intros Hok. unfold create.
  destruct (violates_qr_uuid_unique vals w).
  - revert Hok. apply store_ok_same; reflexivity.
  - destruct Hok as [Hnd Hlt]. split; simpl.
    + apply NoDup_cons. split; [|exact Hnd].
      intros Hin. apply list_elem_of_In, in_map_iff in Hin as (r0 & Hid & Hr0).
      rewrite Forall_forall in Hlt. apply list_elem_of_In, Hlt in Hr0. lia.
    + constructor; [simpl; lia|].
      eapply Forall_impl; [exact Hlt|]. simpl. intros; lia.
Qed.

Lemma _create_invoice_next_id acc rid w :
  next_id (snd (_create_invoice acc rid w)) = next_id w.
Proof.
  destruct (lookup_record rid w) as [self|] eqn:Hl;
    [|rewrite _create_invoice_missing by exact Hl; reflexivity].
  destruct (invoice_id self) as [i|] eqn:Hi;
    [rewrite (_create_invoice_rejects _ _ _ _ _ Hl Hi); reflexivity|].
  rewrite (_create_invoice_run _ _ _ _ Hl Hi). cbv zeta.
  destruct (get_or_create_supplier acc self) as [partner|e]; [|reflexivity].
  destruct (post_invoice acc (set_partner partner self) partner); reflexivity.
Qed.

Lemma _create_invoice_store_ok acc rid w :
  store_ok w -> store_ok (snd (_create_invoice acc rid w)).
Proof.
  apply store_ok_same; [apply _create_invoice_ids|apply _create_invoice_next_id].
Qed.

(** A scan keeps identifiers unique. *)
Lemma process_qr_scan_store_ok rt net pw acc cx url user_id w :
  store_ok w -> store_ok (snd (process_qr_scan rt net pw acc cx url user_id w)).
Proof.
  intros Hok. unfold process_qr_scan.
  destruct (extract_uuid_from_url url) as [[|c u]|]; try exact Hok.
  destruct (check_duplicate cx (c :: u) w) as [existing|].
  - cbv [mbind mret M_bind M_ret read message_post].
    set (f := set_duplicate _ _ _).
    change (write (rec_id existing) f w) with (Ok tt, snd (write (rec_id existing) f w)).
    cbv iota beta.
    pose proof (write_store_ok (rec_id existing) f w (set_duplicate_id _ _ _) Hok) as H1.
    destruct (lookup_record _ _); [|exact H1].
    revert H1. apply store_ok_same; reflexivity.
  - cbv [mbind mret M_bind M_ret lift log].
    set (w0 := World _ _ _ _ _).
    assert (H0 : store_ok w0) by (revert Hok; apply store_ok_same; reflexivity).
    destruct (fetch_invoice_data_from_dgi rt net pw url) as [d|e]; [|exact H0].
    destruct (negb (truthy (d !! "success"))).
    + pose proof (create_store_ok cx (error_vals cx (c :: u) url user_id d) w0 H0) as H1.
      destruct (create cx _ w0) as [[r|e] w1]; exact H1.
    + pose proof (create_store_ok cx (record_vals cx (c :: u) url user_id d) w0 H0) as H1.
      destruct (create cx _ w0) as [[r|e] w1]; [|exact H1].
      simpl in H1. unfold create_invoice_or_error, try_M.
      cbv [mbind mret M_bind M_ret].
      pose proof (_create_invoice_store_ok acc (rec_id r) w1 H1) as H2.
      destruct (_create_invoice acc (rec_id r) w1) as [[inv|e] w2]; [exact H2|].
      apply (write_store_ok (rec_id r) (set_error (message e)) w2 (set_error_id _) H2).
Qed.

(** ** Pages of the history *)

Lemma chunks_concat {A} (l : list A) (n k : nat) :
  concat (List.map (fun i => take n (drop (i * n) l)) (seq 0 k)) = take (k * n) l.
Proof.
  induction k as [|k IH]; [reflexivity|].
  rewrite seq_S, List.map_app, concat_app, IH. simpl.
  rewrite app_nil_r, take_take_drop. f_equal. lia.
Qed.

(** The effective page size of a request. *)
Lemma history_limit cx page_arg limit_arg st w :
  limit (snd (get_history cx page_arg limit_arg st w)) = Z.min 100 (Z.max 1 limit_arg).
Proof. reflexivity. Qed.

Lemma history_records cx page_arg limit_arg st w :
  let n := Z.to_nat (Z.min 100 (Z.max 1 limit_arg)) in
  fst (get_history cx page_arg limit_arg st w)
  = take n (drop ((Z.to_nat (Z.max 1 page_arg) - 1) * n) (search (history_domain cx st) w)).
Proof.
  cbv zeta. unfold get_history. cbn [fst]. f_equal. f_equal.
  rewrite Z2Nat.inj_mul by lia. f_equal. lia.
Qed.

Lemma ceil_div_spec (t n : Z) :
  (0 <= t -> 0 < n ->
   t <= (t + n - 1) / n * n /\ ((t + n - 1) / n - 1) * n < t \/ (t = 0 /\ (t + n - 1) / n = 0))%Z.
Proof.
  intros Ht Hn.
  pose proof (Z.div_mod (t + n - 1) n ltac:(lia)) as Hd.
  pose proof (Z.mod_pos_bound (t + n - 1) n Hn) as Hm.
  left. nia.
Qed.

(** X1. The pages of a listing, read one after the other up to
    [total_pages], are the matching records, each once and in order. *)
Theorem history_pages_partition (cx : context) (limit_arg : Z) (st : option pystr)
    (w : world) :
  let pages := total_pages (snd (get_history cx 1 limit_arg st w)) in
  concat (List.map (fun p => fst (get_history cx (Z.of_nat p) limit_arg st w))
                   (seq 1 (Z.to_nat pages)))
  = search (history_domain cx st) w.
Proof.
  cbv zeta.
  set (l := search (history_domain cx st) w).
  set (n := Z.min 100 (Z.max 1 limit_arg)).
  assert (Hn : (1 <= n)%Z) by lia.
  replace (total_pages (snd (get_history cx 1 limit_arg st w)))
    with ((Z.of_nat (length l) + n - 1) / n)%Z by reflexivity.
  set (k := Z.to_nat ((Z.of_nat (length l) + n - 1) / n)).
  rewrite <- seq_shift, List.map_map.
  rewrite (map_ext _ (fun i => take (Z.to_nat n) (drop (i * Z.to_nat n) l))).
  - rewrite chunks_concat. apply take_ge.
    destruct (ceil_div_spec (Z.of_nat (length l)) n ltac:(lia) ltac:(lia)) as [[H _]|[H0 _]].
    + subst k. assert (0 <= (Z.of_nat (length l) + n - 1) / n)%Z
        by (apply Z.div_pos; lia). nia.
    + lia.
  - intros i. rewrite history_records. cbv zeta. fold n l. do 3 f_equal. lia.
Qed.

Lemma history_length cx page_arg limit_arg st w :
  let pg := snd (get_history cx page_arg limit_arg st w) in
  Z.of_nat (length (fst (get_history cx page_arg limit_arg st w)))
  = Z.max 0 (Z.min (limit pg) (total_count pg - (page pg - 1) * limit pg)).
Proof.
  cbv zeta. unfold get_history. cbn [fst snd page limit total_count].
  unfold search_count. rewrite length_take, length_drop.
  assert (0 <= (Z.max 1 page_arg - 1) * Z.min 100 (Z.max 1 limit_arg))%Z by nia.
  lia.
Qed.

(** X2. [has_next] is set exactly when the next page holds a record, which
    is exactly when the page is before the last. *)
Theorem history_has_next (cx : context) (page_arg limit_arg : Z) (st : option pystr)
    (w : world) :
  let pg := snd (get_history cx page_arg limit_arg st w) in
  (has_next pg = true <-> fst (get_history cx (page pg + 1) limit_arg st w) <> []) /\
  (has_next pg = true <-> (page pg < total_pages pg)%Z).
Proof.
  cbv zeta.
  pose proof (history_length cx (page (snd (get_history cx page_arg limit_arg st w)) + 1)
                limit_arg st w) as Hlen.
  cbv zeta in Hlen.
  set (next := fst (get_history cx _ limit_arg st w)) in *.
  unfold get_history in *. cbn [snd page limit total_count total_pages has_next] in *.
  set (n := Z.min 100 (Z.max 1 limit_arg)) in *.
  set (p := Z.max 1 page_arg) in *.
  set (t := search_count (history_domain cx st) w) in *.
  assert (Hn : (1 <= n)%Z) by lia.
  assert (Hp : (1 <= p)%Z) by lia.
  assert (Ht : (0 <= t)%Z) by (subst t; unfold search_count; lia).
  replace (Z.max 1 (p + 1)) with (p + 1)%Z in Hlen by lia.
  replace ((p + 1 - 1) * n)%Z with (p * n)%Z in Hlen by ring.
  replace ((p - 1) * n + n)%Z with (p * n)%Z by ring.
  rewrite Z.ltb_lt. split.
  - split.
    + intros H Hnil. rewrite Hnil in Hlen. simpl in Hlen. lia.
    + intros H. destruct next; [contradiction|]. simpl length in Hlen. lia.
  - destruct (ceil_div_spec t n Ht ltac:(lia)) as [[H1 H2]|[H0 H1]].
    + split; intros H; nia.
    + rewrite H1. split; intros H; nia.
Qed.

(** X3. A page holds at most [limit] records and [limit] is at most 100;
    every page before the last is full, the last is not empty, and a page
    after the last is. *)
Theorem history_page_sizes (cx : context) (page_arg limit_arg : Z) (st : option pystr)
    (w : world) :
  let recs := fst (get_history cx page_arg limit_arg st w) in
  let pg := snd (get_history cx page_arg limit_arg st w) in
  (1 <= limit pg <= 100)%Z /\
  (Z.of_nat (length recs) <= limit pg)%Z /\
  ((page pg < total_pages pg)%Z -> Z.of_nat (length recs) = limit pg) /\
  (page pg = total_pages pg -> (1 <= length recs)%nat) /\
  ((total_pages pg < page pg)%Z -> recs = []).
Proof.
  cbv zeta.
  pose proof (history_length cx page_arg limit_arg st w) as Hlen. cbv zeta in Hlen.
  set (recs := fst (get_history cx page_arg limit_arg st w)) in *.
  unfold get_history in *. cbn [snd page limit total_count total_pages] in *.
  set (n := Z.min 100 (Z.max 1 limit_arg)) in *.
  set (p := Z.max 1 page_arg) in *.
  set (t := search_count (history_domain cx st) w) in *.
  assert (Hn : (1 <= n)%Z) by lia.
  assert (Hp : (1 <= p)%Z) by lia.
  assert (Ht : (0 <= t)%Z) by (subst t; unfold search_count; lia).
  split; [lia|]. split; [lia|].
  destruct (ceil_div_spec t n Ht ltac:(lia)) as [[H1 H2]|[H0 H1]].
  - split; [intros H; nia|]. split; [intros H; nia|].
    intros H. destruct recs; [reflexivity|]. simpl length in Hlen. nia.
  - rewrite H1. split; [intros H; lia|]. split; [intros H; lia|].
    intros H. destruct recs; [reflexivity|]. simpl length in Hlen. nia.
Qed.

(** ** Statistics *)

Lemma sum_Z_from (xs : list Z) (a : Z) : fold_left Z.add xs a = (a + sum_Z xs)%Z.
Proof.
  unfold sum_Z. revert a. induction xs as [|x xs IH]; intros a; cbn [fold_left]; [lia|].
  rewrite (IH (a + x)%Z), (IH (0 + x)%Z). lia.
Qed.

Lemma sum_Z_cons (x : Z) (xs : list Z) : sum_Z (x :: xs) = (x + sum_Z xs)%Z.
Proof. unfold sum_Z at 1. simpl. apply sum_Z_from. Qed.

Lemma count_cons (p : scan_record -> bool) r l :
  Z.of_nat (length (List.filter p (r :: l)))
  = ((if p r then 1 else 0) + Z.of_nat (length (List.filter p l)))%Z.
Proof. simpl. destruct (p r); simpl; lia. Qed.

Lemma state_cases (s : scan_state) :
  (if is_successful s then 1 else 0)%Z
  = ((if bool_decide (s = Processed) then 1 else 0)
     + (if bool_decide (s = Done) then 1 else 0))%Z.
Proof. destruct s; reflexivity. Qed.

(** The total of [get_stats] is the sum of the weights of the records. *)
Lemma total_scans_tally add cx w :
  total_scans (get_stats add cx w) = tally cx (records w).
Proof.
  unfold get_stats, tally, search_count, search. cbn [total_scans].
  induction (records w) as [|r l IH]; [reflexivity|].
  rewrite !count_cons. cbn [List.map]. rewrite sum_Z_cons, <- IH.
  unfold scan_weight. cbn [List.filter].
  destruct (in_company cx r); cbn [andb].
  - destruct (0 <? duplicate_count r)%Z; cbn [List.map]; rewrite ?sum_Z_cons; lia.
  - lia.
Qed.

(** X4. In the statistics the successful scans are the processed and the
    unprocessed ones, every record counted with duplicates has at least one
    attempt, and the total is the sum of successes, attempts and errors. *)
Theorem stats_add_up (add : value -> value -> value) (cx : context) (w : world) :
  let s := get_stats add cx w in
  successful_scans s = (processed_scans s + unprocessed_scans s)%Z /\
  (0 <= records_with_duplicates s <= duplicate_attempts s)%Z /\
  total_scans s = (successful_scans s + duplicate_attempts s + error_scans s)%Z /\
  (0 <= error_scans s)%Z /\ (0 <= processed_scans s)%Z /\ (0 <= unprocessed_scans s)%Z.
Proof.
  cbv zeta. unfold get_stats, search_count, search.
  cbn [successful_scans processed_scans unprocessed_scans records_with_duplicates
       duplicate_attempts total_scans error_scans].
  split; [|split; [|split; [reflexivity|lia]]].
  - induction (records w) as [|r l IH]; [reflexivity|].
    rewrite !count_cons, IH. unfold state_is.
    destruct (in_company cx r); cbn [andb]; [|lia].
    rewrite (state_cases (state r)). lia.
  - induction (records w) as [|r l IH]; [unfold sum_Z; simpl; lia|].
    cbn [List.filter].
    destruct (in_company cx r); cbn [andb]; [|exact IH].
    destruct (Z.ltb_spec 0 (duplicate_count r)); [|exact IH].
    cbn [List.map length]. rewrite sum_Z_cons. lia.
Qed.

Lemma map_other_ids rid (f : scan_record -> scan_record) l :
  ~ In rid (List.map rec_id l) ->
  List.map (fun x => if (rec_id x =? rid)%Z then f x else x) l = l.
Proof.
  induction l as [|x l IH]; intros Hn; [reflexivity|]. simpl in *.
  destruct (Z.eqb_spec (rec_id x) rid) as [E|E]; [exfalso; auto|].
  rewrite IH by tauto. reflexivity.
Qed.

Lemma tally_cons cx r l : tally cx (r :: l) = (scan_weight cx r + tally cx l)%Z.
Proof. unfold tally. cbn [List.map]. apply sum_Z_cons. Qed.

(** Writing one record moves a sum over the records by the difference of
    what the record weighs. *)
Lemma sum_write (wt : scan_record -> Z) rid f l r :
  NoDup (List.map rec_id l) -> find_record rid l = Some r ->
  sum_Z (List.map wt (List.map (fun x => if (rec_id x =? rid)%Z then f x else x) l))
  = (sum_Z (List.map wt l) - wt r + wt (f r))%Z.
Proof.
  unfold find_record.
  induction l as [|x l IH]; intros Hnd Hf; [discriminate|].
  cbn [List.map] in *. apply NoDup_cons in Hnd as [Hx Hnd]. cbn [List.find] in Hf.
  destruct (Z.eqb_spec (rec_id x) rid) as [E|E].
  - injection Hf as ->. rewrite map_other_ids.
    + rewrite !sum_Z_cons. lia.
    + rewrite <- E. intros Hin. apply Hx, list_elem_of_In, Hin.
  - rewrite !sum_Z_cons, IH by assumption. lia.
Qed.

Lemma tally_write cx rid f l r :
  NoDup (List.map rec_id l) -> find_record rid l = Some r ->
  tally cx (List.map (fun x => if (rec_id x =? rid)%Z then f x else x) l)
  = (tally cx l - scan_weight cx r + scan_weight cx (f r))%Z.
Proof. apply sum_write. Qed.

Lemma count_as_sum (p : scan_record -> bool) l :
  Z.of_nat (length (List.filter p l))
  = sum_Z (List.map (fun r => if p r then 1 else 0)%Z l).
Proof.
  induction l as [|x l IH]; [reflexivity|].
  rewrite count_cons. cbn [List.map]. rewrite sum_Z_cons, IH. reflexivity.
Qed.

Lemma sum_filter (p : scan_record -> bool) (v : scan_record -> Z) l :
  sum_Z (List.map v (List.filter p l))
  = sum_Z (List.map (fun r => if p r then v r else 0)%Z l).
Proof.
  induction l as [|x l IH]; [reflexivity|]. cbn [List.filter List.map].
  rewrite sum_Z_cons. destruct (p x); cbn [List.map]; rewrite ?sum_Z_cons, IH; lia.
Qed.

Lemma write_head rid f w r l :
  records w = r :: l -> rec_id r = rid -> ~ In rid (List.map rec_id l) ->
  records (snd (write rid f w)) = f r :: l.
Proof.
  intros Hr Hid Hn. unfold write. cbn [snd records]. rewrite Hr. cbn [List.map].
  rewrite Hid, Z.eqb_refl, map_other_ids by exact Hn. reflexivity.
Qed.

Lemma create_head cx vals w r w1 :
  create cx vals w = (Ok r, w1) ->
  records w1 = r :: records w /\ rec_id r = next_id w /\ state r = state vals /\
  duplicate_count r = duplicate_count vals /\ company_id r = company_id vals /\
  invoice_id r = invoice_id vals.
Proof.
  unfold create. destruct (violates_qr_uuid_unique vals w); [discriminate|].
  intros H. injection H as <- <-. repeat split.
Qed.

Lemma fresh_id w : store_ok w -> ~ In (next_id w) (List.map rec_id (records w)).
Proof.
  intros [_ Hlt] Hin. apply in_map_iff in Hin as (r & Hid & Hr).
  rewrite Forall_forall in Hlt. apply list_elem_of_In, Hlt in Hr. lia.
Qed.

(** The record at the head of the store after invoice creation, caught or
    not, is done or in error. *)
Lemma create_invoice_or_error_head acc w r l :
  records w = r :: l -> ~ In (rec_id r) (List.map rec_id l) -> invoice_id r = None ->
  exists r' res w',
    create_invoice_or_error acc r w = (Ok res, w') /\
    records w' = r' :: l /\
    company_id r' = company_id r /\ duplicate_count r' = duplicate_count r /\
    qr_uuid r' = qr_uuid r /\
    ((state r' = Done /\ (exists i ref inv, res = Created i ref inv)) \/
     (state r' = Error /\ exists msg i, res = InvoiceError msg i)).
Proof.
  intros Hr Hn Hi.
  assert (Hl : lookup_record (rec_id r) w = Some r).
  { unfold lookup_record, find_record. rewrite Hr. simpl. rewrite Z.eqb_refl. reflexivity. }
  unfold create_invoice_or_error, try_M. cbv [mbind mret M_bind M_ret].
  rewrite (_create_invoice_run acc (rec_id r) w r Hl Hi). cbv zeta.
  set (w1 := snd (log (EInvoice (rec_id r)) w)).
  assert (Hr1 : records w1 = r :: l) by exact Hr.
  destruct (get_or_create_supplier acc r) as [partner|e].
  - pose proof (write_head (rec_id r) (set_partner partner) w1 r l Hr1 eq_refl Hn) as Hr2.
    set (w2 := snd (write (rec_id r) (set_partner partner) w1)) in *.
    destruct (post_invoice acc (set_partner partner r) partner) as [inv|e].
    + pose proof (write_head (rec_id r) (set_invoice_done inv) w2 _ l Hr2 eq_refl Hn) as Hr3.
      do 3 eexists. split; [reflexivity|]. split; [exact Hr3|].
      split; [reflexivity|]. split; [reflexivity|]. split; [reflexivity|].
      left. split; [reflexivity|eauto].
    + pose proof (write_head (rec_id r) (set_error (message e)) w2 _ l Hr2 eq_refl Hn) as Hr3.
      do 3 eexists. split; [reflexivity|]. split; [exact Hr3|].
      split; [reflexivity|]. split; [reflexivity|]. split; [reflexivity|].
      right. split; [reflexivity|eauto].
  - pose proof (write_head (rec_id r) (set_error (message e)) w1 r l Hr1 eq_refl Hn) as Hr3.
    do 3 eexists. split; [reflexivity|]. split; [exact Hr3|].
    split; [reflexivity|]. split; [reflexivity|]. split; [reflexivity|].
    right. split; [reflexivity|eauto].
Qed.

(** X5. Every scan of a URL that carries an identifier adds one to the
    [total_scans] of the statistics, whether it creates the invoice, finds a
    duplicate or records an error; a URL without identifier adds nothing. *)
Theorem scan_counts_once (add : value -> value -> value) (rt : runtime)
    (net : transport) (pw : playwright) (acc : accounting) (cx : context)
    (url : pystr) (user_id : option Z) (w w' : world) (res : scan_result) :
  store_ok w -> counts_ok w ->
  process_qr_scan rt net pw acc cx url user_id w = (Ok res, w') ->
  total_scans (get_stats add cx w')
  = (total_scans (get_stats add cx w)
     + match res with InvalidUrl => 0 | _ => 1 end)%Z.
Proof.
  intros Hok Hc Hrun. rewrite !total_scans_tally.
  unfold process_qr_scan in Hrun.
  destruct (extract_uuid_from_url url) as [[|c u]|];
    try (injection Hrun as <- <-; lia).
  destruct (check_duplicate cx (c :: u) w) as [existing|] eqn:Hex.
  - destruct (check_duplicate_some _ _ _ _ Hex) as (Hin & _ & Hs & Hco).
    set (f := set_duplicate (duplicate_count existing + 1) (now cx)
                (acting_user cx user_id)) in *.
    pose proof (lookup_record_write (rec_id existing) f w (set_duplicate_id _ _ _)) as Hl.
    pose proof (lookup_record_of_in w existing Hok Hin) as Hl0.
    rewrite Hl0 in Hl.
    cbv [mbind mret M_bind M_ret read message_post] in Hrun.
    change (write (rec_id existing) f w) with (Ok tt, snd (write (rec_id existing) f w))
      in Hrun.
    cbv iota beta in Hrun. rewrite Hl in Hrun. cbn [fmap option_fmap option_map] in Hrun.
    injection Hrun as <- <-. cbn [records snd write].
    rewrite (tally_write cx (rec_id existing) f (records w) existing);
      [|apply Hok|exact Hl0].
    unfold counts_ok in Hc. rewrite Forall_forall in Hc.
    apply list_elem_of_In, Hc in Hin.
    unfold scan_weight, in_company, state_is. cbn [company_id state duplicate_count f set_duplicate].
    rewrite Hco, Z.eqb_refl.
    destruct (Z.ltb_spec 0 (duplicate_count existing + 1)); [|lia].
    destruct (Z.ltb_spec 0 (duplicate_count existing)); lia.
  - cbv [mbind mret M_bind M_ret lift log] in Hrun.
    set (w0 := World (records w) (next_id w) (sequence w) (chatter w)
                     (EFetch url :: events w)) in *.
    assert (H0 : store_ok w0) by (revert Hok; apply store_ok_same; reflexivity).
    destruct (fetch_invoice_data_from_dgi rt net pw url) as [d|e]; [|discriminate].
    destruct (negb (truthy (d !! "success"))).
    + destruct (create cx (error_vals cx (c :: u) url user_id d) w0) as [[r|e] w1] eqn:Hcr;
        [|discriminate].
      injection Hrun as <- <-.
      apply create_head in Hcr as (Hr & _ & Hst & Hdc & Hco & _).
      rewrite Hr, tally_cons. unfold scan_weight, in_company, state_is.
      rewrite Hco, Hst, Hdc. simpl. rewrite Z.eqb_refl. simpl. lia.
    + destruct (create cx (record_vals cx (c :: u) url user_id d) w0) as [[r|e] w1] eqn:Hcr;
        [|discriminate].
      apply create_head in Hcr as (Hr & Hid & Hst & Hdc & Hco & Hinv).
      destruct (create_invoice_or_error_head acc w1 r (records w0) Hr)
        as (r' & res' & w2 & Hrun' & Hr' & Hco' & Hdc' & _ & Hcase).
      * rewrite Hid. apply (fresh_id w0 H0).
      * exact Hinv.
      * rewrite Hrun' in Hrun. injection Hrun as <- <-.
        rewrite Hr', tally_cons. unfold scan_weight, in_company, state_is.
        rewrite Hco', Hdc', Hco, Hdc. simpl. rewrite Z.eqb_refl.
        destruct Hcase as [[-> (i & ref & inv & ->)]|[-> (msg & i & ->)]]; simpl; lia.
Qed.

(** ** Marking *)

Lemma set_state_id s r : rec_id (set_state s r) = rec_id r.
Proof. reflexivity. Qed.

Lemma set_state_back r s : set_state (state r) (set_state s r) = r.
Proof. destruct r; reflexivity. Qed.

(** In a store with unique identifiers, the record of an identifier is the
    one a lookup finds. *)
Lemma lookup_record_unique w rid r x :
  store_ok w -> lookup_record rid w = Some r -> In x (records w) -> rec_id x = rid -> x = r.
Proof.
  intros Hok Hl Hin Hid. pose proof (lookup_record_of_in w x Hok Hin) as Hx.
  rewrite Hid, Hl in Hx. congruence.
Qed.

Lemma map_ext_in_id {A} (h : A -> A) l : (forall x, In x l -> h x = x) -> List.map h l = l.
Proof.
  intros H. induction l as [|x l IH]; [reflexivity|]. simpl.
  rewrite H by (left; reflexivity). rewrite IH; [reflexivity|].
  intros y Hy. apply H. right. exact Hy.
Qed.

Lemma write_write_back w rid r f g :
  store_ok w -> lookup_record rid w = Some r ->
  (forall x, rec_id (f x) = rec_id x) -> g (f r) = r ->
  records (snd (write rid g (snd (write rid f w)))) = records w.
Proof.
  intros Hok Hl Hf Hg. unfold write. cbn [snd records]. rewrite List.map_map.
  apply map_ext_in_id. intros x Hin.
  destruct (Z.eqb_spec (rec_id x) rid) as [E|E].
  - rewrite Hf. destruct (Z.eqb_spec (rec_id x) rid); [|contradiction].
    rewrite (lookup_record_unique w rid r x Hok Hl Hin E). exact Hg.
  - destruct (Z.eqb_spec (rec_id x) rid); [contradiction|reflexivity].
Qed.

(** X6. Marking a done record as processed and then as unprocessed, through
    the API, gives back the records as they were and leaves the two
    processing columns of the record empty; in between the record is
    processed and stamped with the user and the time of the marking. *)
Theorem mark_round_trip (cx cx' : context) (user user' : Z) (rid : Z) (d : desk)
    (r : scan_record) :
  store_ok (store d) -> lookup_record rid (store d) = Some r -> state r = Done ->
  let d1 := snd (mark_processed cx user rid d) in
  let d2 := snd (mark_unprocessed cx' user' rid d1) in
  fst (mark_processed cx user rid d)
  = Marked (py "Scan marqué comme traité") (set_state Processed r)
           (Some (Processing user (now cx))) /\
  lookup_record rid (store d1) = Some (set_state Processed r) /\
  processed d1 !! rid = Some (Processing user (now cx)) /\
  fst (mark_unprocessed cx' user' rid d1)
  = Marked (py "Scan remis à l'état non traité") r None /\
  records (store d2) = records (store d) /\
  processed d2 !! rid = None /\
  (forall k, k <> rid -> processed d2 !! k = processed d !! k).
Proof.
  intros Hok Hl Hs. cbv zeta.
  assert (Hback : set_state Done (set_state Processed r) = r)
    by (rewrite <- Hs; apply set_state_back).
  pose proof (lookup_record_write rid (set_state Processed) (store d)
                (set_state_id Processed)) as Hl1.
  rewrite Hl in Hl1. cbn [fmap option_fmap option_map] in Hl1.
  pose proof (write_write_back (store d) rid r (set_state Processed) (set_state Done)
                Hok Hl (set_state_id Processed) Hback) as Hrec.
  unfold write, lookup_record in Hl1, Hrec. cbn [snd records] in Hl1, Hrec.
  unfold mark_processed, mark_unprocessed, state_is.
  rewrite Hl, Hs. rewrite bool_decide_eq_true_2 by reflexivity.
  cbv [write message_post lookup_record]. cbn [negb fst snd store processed records].
  unfold lookup_record in Hl. rewrite Hl1. cbn [state set_state].
  rewrite bool_decide_eq_true_2 by reflexivity. cbn [negb fst snd store processed records].
  rewrite Hback.
  split; [reflexivity|]. split; [reflexivity|].
  split; [apply lookup_insert_eq|]. split; [reflexivity|].
  split; [exact Hrec|]. split; [apply lookup_delete_eq|].
  intros k Hk. rewrite lookup_delete_ne, lookup_insert_ne by congruence. reflexivity.
Qed.

Lemma find_map_stable {A} (p : A -> bool) (h : A -> A) l :
  (forall x, In x l -> p (h x) = p x) ->
  List.find p (List.map h l) = h <$> List.find p l.
Proof.
  induction l as [|x l IH]; intros H; [reflexivity|]. simpl.
  rewrite H by (left; reflexivity).
  destruct (p x); [reflexivity|]. apply IH. intros y Hy. apply H. right. exact Hy.
Qed.

(** A write that keeps the identifier, the company and the success of the
    record it changes keeps what every duplicate check finds. *)
Lemma check_duplicate_write cx uuid w rid r f :
  store_ok w -> lookup_record rid w = Some r ->
  rec_id (f r) = rec_id r -> qr_uuid (f r) = qr_uuid r -> company_id (f r) = company_id r ->
  is_successful (state (f r)) = is_successful (state r) ->
  rec_id <$> check_duplicate cx uuid (snd (write rid f w))
  = rec_id <$> check_duplicate cx uuid w.
Proof.
  intros Hok Hl Hid Hu Hc Hs. unfold check_duplicate, write. cbn [snd records].
  rewrite find_map_stable.
  - destruct (List.find _ (records w)) as [x|] eqn:E; [|reflexivity]. simpl. f_equal.
    destruct (Z.eqb_spec (rec_id x) rid) as [Ex|]; [|reflexivity].
    apply find_in in E as [Hin _].
    rewrite (lookup_record_unique w rid r x Hok Hl Hin Ex). exact Hid.
  - intros x Hin. destruct (Z.eqb_spec (rec_id x) rid) as [Ex|]; [|reflexivity].
    rewrite (lookup_record_unique w rid r x Hok Hl Hin Ex), Hu, Hc, Hs. reflexivity.
Qed.

(** X7. Marking a record as processed or as unprocessed never changes which
    record a duplicate check finds for an identifier: an invoice that was
    scanned stays a duplicate whatever its processing state. *)
Theorem marking_keeps_duplicates (cx cxq : context) (user : Z) (rid : Z) (d : desk)
    (uuid : pystr) :
  store_ok (store d) ->
  rec_id <$> check_duplicate cxq uuid (store (snd (mark_processed cx user rid d)))
  = rec_id <$> check_duplicate cxq uuid (store d) /\
  rec_id <$> check_duplicate cxq uuid (store (snd (mark_unprocessed cx user rid d)))
  = rec_id <$> check_duplicate cxq uuid (store d).
Proof.
  intros Hok. unfold mark_processed, mark_unprocessed, state_is.
  destruct (lookup_record rid (store d)) as [r|] eqn:Hl; [|split; reflexivity].
  split.
  - destruct (bool_decide_reflect (state r = Done)) as [Hs|]; [|reflexivity].
    cbn [negb snd store].
    apply (check_duplicate_write cxq uuid (store d) rid r (set_state Processed) Hok Hl);
      try reflexivity.
    rewrite Hs. reflexivity.
  - destruct (bool_decide_reflect (state r = Processed)) as [Hs|]; [|reflexivity].
    cbn [negb snd store].
    apply (check_duplicate_write cxq uuid (store d) rid r (set_state Done) Hok Hl);
      try reflexivity.
    rewrite Hs. reflexivity.
Qed.

Lemma filter_map_stable {A} (p : A -> bool) (h : A -> A) l :
  (forall x, In x l -> p (h x) = p x) ->
  List.filter p (List.map h l) = List.map h (List.filter p l).
Proof.
  induction l as [|x l IH]; intros H; [reflexivity|]. simpl.
  rewrite H by (left; reflexivity).
  rewrite IH by (intros y Hy; apply H; right; exact Hy).
  destruct (p x); reflexivity.
Qed.

(** The figures of the statistics, as sums over the records. *)
Lemma stats_as_sums add cx w :
  let s := get_stats add cx w in
  let count (p : scan_record -> bool) :=
    sum_Z (List.map (fun r => if p r then 1 else 0)%Z (records w)) in
  successful_scans s = count (fun r => in_company cx r && is_successful (state r)) /\
  processed_scans s = count (fun r => in_company cx r && state_is Processed r) /\
  unprocessed_scans s = count (fun r => in_company cx r && state_is Done r) /\
  error_scans s = count (fun r => in_company cx r && state_is Error r) /\
  records_with_duplicates s
  = count (fun r => in_company cx r && (0 <? duplicate_count r)%Z) /\
  duplicate_attempts s
  = sum_Z (List.map (fun r => if in_company cx r && (0 <? duplicate_count r)%Z
                              then duplicate_count r else 0)%Z (records w)).
Proof.
  cbv zeta. unfold get_stats, search_count, search.
  cbn [successful_scans processed_scans unprocessed_scans error_scans
       records_with_duplicates duplicate_attempts].
  rewrite <- !count_as_sum, <- sum_filter. repeat split.
Qed.

(** X8. Marking a record as processed through the API moves it from the
    unprocessed to the processed scans of its company and leaves every other
    figure of the statistics, the total amount included, as it was. *)
Theorem mark_processed_stats (add : value -> value -> value) (cxs cx : context)
    (user : Z) (rid : Z) (d d' : desk) (msg : pystr) (r : scan_record)
    (by_at : option processing) :
  store_ok (store d) ->
  mark_processed cx user rid d = (Marked msg r by_at, d') ->
  let s := get_stats add cxs (store d) in
  let s' := get_stats add cxs (store d') in
  let k := (if in_company cxs r then 1 else 0)%Z in
  processed_scans s' = (processed_scans s + k)%Z /\
  unprocessed_scans s' = (unprocessed_scans s - k)%Z /\
  successful_scans s' = successful_scans s /\
  error_scans s' = error_scans s /\
  duplicate_attempts s' = duplicate_attempts s /\
  records_with_duplicates s' = records_with_duplicates s /\
  total_scans s' = total_scans s /\
  total_amount s' = total_amount s.
Proof.
  intros Hok Hrun. cbv zeta. unfold mark_processed, state_is in Hrun.
  destruct (lookup_record rid (store d)) as [r0|] eqn:Hl; [|discriminate].
  destruct (bool_decide_reflect (state r0 = Done)) as [Hs|]; [|discriminate].
  cbn [negb] in Hrun.
  pose proof (f_equal (fun x => match fst x with Marked _ r _ => Some r | _ => None end) Hrun)
    as Hr.
  cbn [fst] in Hr. injection Hr as <-.
  apply (f_equal snd) in Hrun. cbn [snd] in Hrun. subst d'.
  set (w1 := snd (message_post rid _ _)).
  assert (Hrec : records w1
                 = List.map (fun x => if (rec_id x =? rid)%Z then set_state Processed x else x)
                            (records (store d))) by reflexivity.
  assert (Hamount : total_amount (get_stats add cxs w1)
                    = total_amount (get_stats add cxs (store d))).
  { unfold get_stats, search. cbn [total_amount]. rewrite Hrec. f_equal.
    rewrite filter_map_stable.
    - rewrite List.map_map. apply map_ext. intros x.
      destruct (rec_id x =? rid)%Z; reflexivity.
    - intros x Hin. destruct (Z.eqb_spec (rec_id x) rid) as [Ex|]; [|reflexivity].
      rewrite (lookup_record_unique (store d) rid r0 x Hok Hl Hin Ex).
      unfold in_company. cbn [company_id state set_state]. rewrite Hs. reflexivity. }
  cbn [store].
  destruct (stats_as_sums add cxs w1) as (E1 & E2 & E3 & E4 & E5 & E6).
  destruct (stats_as_sums add cxs (store d)) as (F1 & F2 & F3 & F4 & F5 & F6).
  assert (Htotal : forall a, total_scans (get_stats add cxs a)
                   = (successful_scans (get_stats add cxs a)
                      + duplicate_attempts (get_stats add cxs a)
                      + error_scans (get_stats add cxs a))%Z) by reflexivity.
  rewrite !Htotal, E1, E2, E3, E4, E5, E6, F1, F2, F3, F4, F5, F6, Hamount, Hrec.
  destruct Hok as [Hnd _]. unfold lookup_record in Hl.
  rewrite !(sum_write _ rid (set_state Processed) (records (store d)) r0 Hnd Hl).
  unfold in_company, state_is. cbn [company_id state set_state duplicate_count].
  rewrite Hs. cbn [is_successful].
  rewrite !(bool_decide_eq_true_2 (Processed = Processed)) by reflexivity.
  rewrite !(bool_decide_eq_true_2 (Done = Done)) by reflexivity.
  rewrite !(bool_decide_eq_false_2 (Processed = Done)) by discriminate.
  rewrite !(bool_decide_eq_false_2 (Done = Processed)) by discriminate.
  rewrite !(bool_decide_eq_false_2 (Processed = Error)) by discriminate.
  rewrite !(bool_decide_eq_false_2 (Done = Error)) by discriminate.
  destruct (company_id r0 =? env_company cxs)%Z; cbn [andb];
    repeat split; try lia; try reflexivity.
Qed.

(** ** The figures under a write *)

Lemma total_of_figures add cx w :
  total_scans (get_stats add cx w)
  = (successful_scans (get_stats add cx w) + duplicate_attempts (get_stats add cx w)
     + error_scans (get_stats add cx w))%Z.
Proof. reflexivity. Qed.

Lemma andb_if (a b : bool) (x : Z) :
  (if a && b then x else 0%Z) = (if a then (if b then x else 0) else 0)%Z.
Proof. destruct a, b; reflexivity. Qed.

(** A write to one record moves each figure by what the record added before
    and adds after. *)
Lemma figures_write add cx rid f w r :
  store_ok w -> lookup_record rid w = Some r ->
  figures (get_stats add cx (snd (write rid f w)))
  = add_each (sub_each (figures (get_stats add cx w)) (record_figures cx r))
         (record_figures cx (f r)).
Proof.
  intros [Hnd _] Hl. unfold lookup_record in Hl.
  destruct (stats_as_sums add cx (snd (write rid f w))) as (E1 & E2 & E3 & E4 & E5 & E6).
  destruct (stats_as_sums add cx w) as (F1 & F2 & F3 & F4 & F5 & F6).
  unfold figures. rewrite E1, E2, E3, E4, E5, E6, F1, F2, F3, F4, F5, F6.
  unfold write. cbn [snd records].
  rewrite !(sum_write _ rid f (records w) r Hnd Hl).
  unfold record_figures, add_each, sub_each, one_if. cbn [List.map zip_with].
  rewrite !andb_if. reflexivity.
Qed.

Lemma figures_same cx r r' :
  state r' = state r -> company_id r' = company_id r ->
  duplicate_count r' = duplicate_count r ->
  record_figures cx r' = record_figures cx r.
Proof.
  intros Hs Hc Hd. unfold record_figures, in_company, state_is.
  rewrite Hs, Hc, Hd. reflexivity.
Qed.

Lemma plus_minus_same a b : length a = length b -> add_each (sub_each a b) b = a.
Proof.
  revert b. induction a as [|x a IH]; intros [|y b] H; try discriminate; [reflexivity|].
  unfold add_each, sub_each in *. cbn [zip_with]. rewrite IH by (simpl in H; lia).
  f_equal. lia.
Qed.

Lemma figures_write_same add cx rid f w r :
  store_ok w -> lookup_record rid w = Some r ->
  state (f r) = state r -> company_id (f r) = company_id r ->
  duplicate_count (f r) = duplicate_count r ->
  figures (get_stats add cx (snd (write rid f w))) = figures (get_stats add cx w).
Proof.
  intros Hok Hl Hs Hc Hd.
  rewrite (figures_write add cx rid f w r Hok Hl), (figures_same cx r (f r) Hs Hc Hd).
  apply plus_minus_same. reflexivity.
Qed.

Lemma figures_fields s (a b c d e f : Z) :
  figures s = [a; b; c; d; e; f] ->
  successful_scans s = a /\ processed_scans s = b /\ unprocessed_scans s = c /\
  error_scans s = d /\ records_with_duplicates s = e /\ duplicate_attempts s = f.
Proof. unfold figures. intros H. injection H as -> -> -> -> -> ->. repeat split. Qed.

Lemma figures_eq s s' :
  figures s' = figures s ->
  successful_scans s' = successful_scans s /\ processed_scans s' = processed_scans s /\
  unprocessed_scans s' = unprocessed_scans s /\ error_scans s' = error_scans s /\
  records_with_duplicates s' = records_with_duplicates s /\
  duplicate_attempts s' = duplicate_attempts s.
Proof. apply figures_fields. Qed.

Lemma get_stats_records add cx w w' :
  records w' = records w -> get_stats add cx w' = get_stats add cx w.
Proof. intros H. unfold get_stats, search_count, search. rewrite H. reflexivity. Qed.

(** ** The retry, seen from the statistics *)

(** X9. On a store with unique identifiers [retry_error] always replies.
    When it succeeds the record is done with its invoice linked, and it has
    moved from the error scans to the unprocessed scans of its company, the
    total unchanged; when it replies an error, every figure is as before. *)
Theorem retry_error_outcome (add : value -> value -> value) (cxs : context)
    (acc : accounting) (rid : Z) (w : world) :
  store_ok w ->
  exists reply w',
    retry_error acc rid w = (Ok reply, w') /\
    let s := get_stats add cxs w in
    let s' := get_stats add cxs w' in
    match reply with
    | ApiSuccess r inv =>
        let k := one_if (in_company cxs r) in
        state r = Done /\ invoice_id r = Some inv /\ lookup_record rid w' = Some r /\
        error_scans s' = (error_scans s - k)%Z /\
        unprocessed_scans s' = (unprocessed_scans s + k)%Z /\
        successful_scans s' = (successful_scans s + k)%Z /\
        processed_scans s' = processed_scans s /\
        duplicate_attempts s' = duplicate_attempts s /\
        total_scans s' = total_scans s
    | ApiError _ _ _ => figures s' = figures s /\ total_scans s' = total_scans s
    end.
Proof.
  intros Hok. unfold retry_error.
  destruct (lookup_record rid w) as [record|] eqn:Hl;
    [|do 2 eexists; split; [reflexivity|]; split; reflexivity].
  destruct (bool_decide_reflect (state record = Error)) as [Hs|];
    [|do 2 eexists; split; [reflexivity|]; split; reflexivity].
  cbn [negb].
  destruct (invoice_id record) as [i|] eqn:Hi.
  { rewrite bool_decide_eq_true_2 by eauto.
    do 2 eexists; split; [reflexivity|]; split; reflexivity. }
  rewrite bool_decide_eq_false_2 by apply not_is_Some_None.
  cbv [try_M mbind mret M_bind M_ret read].
  rewrite (_create_invoice_run acc rid w record Hl Hi). cbv zeta.
  set (w1 := snd (log (EInvoice rid) w)).
  assert (Hok1 : store_ok w1) by (revert Hok; apply store_ok_same; reflexivity).
  assert (Hl1 : lookup_record rid w1 = Some record) by exact Hl.
  assert (Hst1 : get_stats add cxs w1 = get_stats add cxs w)
    by (apply get_stats_records; reflexivity).
  assert (Hfail : forall (wx : world) rx msg,
            store_ok wx -> lookup_record rid wx = Some rx ->
            figures (get_stats add cxs wx) = figures (get_stats add cxs w) ->
            let w' := snd (write rid (set_error_message msg) wx) in
            figures (get_stats add cxs w') = figures (get_stats add cxs w) /\
            total_scans (get_stats add cxs w') = total_scans (get_stats add cxs w)).
  { intros wx rx msg Hokx Hlx Hfx. cbv zeta.
    pose proof (figures_write_same add cxs rid (set_error_message msg) wx rx Hokx Hlx
                  eq_refl eq_refl eq_refl) as Hf.
    rewrite Hfx in Hf. split; [exact Hf|].
    rewrite !total_of_figures.
    apply figures_eq in Hf as (-> & _ & _ & -> & _ & ->). reflexivity. }
  destruct (get_or_create_supplier acc record) as [partner|e].
  - set (w2 := snd (write rid (set_partner partner) w1)).
    assert (Hok2 : store_ok w2) by (apply write_store_ok; [reflexivity|exact Hok1]).
    assert (Hl2 : lookup_record rid w2 = Some (set_partner partner record)).
    { unfold w2. rewrite lookup_record_write by reflexivity. rewrite Hl1. reflexivity. }
    assert (Hf2 : figures (get_stats add cxs w2) = figures (get_stats add cxs w)).
    { unfold w2.
      rewrite (figures_write_same add cxs rid (set_partner partner) w1 record Hok1 Hl1)
        by reflexivity.
      rewrite Hst1. reflexivity. }
    destruct (post_invoice acc (set_partner partner record) partner) as [inv|e].
    + set (w3 := snd (write rid (set_invoice_done inv) w2)).
      assert (Hl3 : lookup_record rid w3
                    = Some (set_invoice_done inv (set_partner partner record))).
      { unfold w3. rewrite lookup_record_write by reflexivity. rewrite Hl2. reflexivity. }
      rewrite Hl3. do 2 eexists. split; [reflexivity|]. cbv zeta.
      split; [reflexivity|]. split; [reflexivity|]. split; [exact Hl3|].
      pose proof (figures_write add cxs rid (set_invoice_done inv) w2 _ Hok2 Hl2) as Hf3.
      fold w3 in Hf3. rewrite Hf2 in Hf3. rewrite !total_of_figures.
      unfold figures at 2 in Hf3.
      unfold record_figures, add_each, sub_each, in_company, state_is, one_if in Hf3.
      cbn [List.map zip_with state company_id duplicate_count set_invoice_done set_partner]
        in Hf3.
      rewrite Hs in Hf3. cbn [is_successful] in Hf3.
      rewrite !(bool_decide_eq_true_2 (Done = Done)) in Hf3 by reflexivity.
      rewrite !(bool_decide_eq_true_2 (Error = Error)) in Hf3 by reflexivity.
      rewrite !(bool_decide_eq_false_2 (Done = Processed)) in Hf3 by discriminate.
      rewrite !(bool_decide_eq_false_2 (Done = Error)) in Hf3 by discriminate.
      rewrite !(bool_decide_eq_false_2 (Error = Processed)) in Hf3 by discriminate.
      rewrite !(bool_decide_eq_false_2 (Error = Done)) in Hf3 by discriminate.
      apply figures_fields in Hf3 as (-> & -> & -> & -> & _ & ->).
      unfold in_company, one_if. cbn [company_id set_invoice_done set_partner].
      destruct (company_id record =? env_company cxs)%Z;
        destruct (0 <? duplicate_count record)%Z; repeat split; lia.
    + do 2 eexists. split; [reflexivity|]. apply (Hfail w2 _ _ Hok2 Hl2 Hf2).
  - do 2 eexists. split; [reflexivity|]. apply (Hfail w1 _ _ Hok1 Hl1).
    rewrite Hst1. reflexivity.
Qed.

(** ** Checking, scanning and reporting *)

(** The run of a scan that finds a duplicate. *)
Lemma process_qr_scan_duplicate_run rt net pw acc cx url user_id c u existing w :
  store_ok w -> extract_uuid_from_url url = Some (c :: u) ->
  check_duplicate cx (c :: u) w = Some existing ->
  let f := set_duplicate (duplicate_count existing + 1) (now cx)
             (acting_user cx user_id) in
  exists w',
    process_qr_scan rt net pw acc cx url user_id w
    = (Ok (Duplicate (duplicate_count existing + 1) (snapshot cx (f existing))), w') /\
    records w' = records (snd (write (rec_id existing) f w)) /\
    events w' = events w.
Proof.
  intros Hok Hurl Hex f.
  destruct (check_duplicate_some _ _ _ _ Hex) as (Hin & _).
  pose proof (lookup_record_write (rec_id existing) f w (set_duplicate_id _ _ _)) as Hl.
  rewrite (lookup_record_of_in w existing Hok Hin) in Hl.
  unfold process_qr_scan. rewrite Hurl, Hex.
  cbv [mbind mret M_bind M_ret read message_post]. fold f.
  change (write (rec_id existing) f w) with (Ok tt, snd (write (rec_id existing) f w)).
  cbv iota beta. rewrite Hl. cbn [fmap option_fmap option_map].
  eexists. split; [reflexivity|]. split; reflexivity.
Qed.

(** A scan that finds no duplicate does not answer [DUPLICATE]. *)
Lemma process_qr_scan_new rt net pw acc cx url user_id c u w res w' :
  extract_uuid_from_url url = Some (c :: u) ->
  check_duplicate cx (c :: u) w = None ->
  process_qr_scan rt net pw acc cx url user_id w = (Ok res, w') ->
  error_code res <> Some "DUPLICATE"%string.
Proof.
  intros Hurl Hex. unfold process_qr_scan. rewrite Hurl, Hex.
  cbv [mbind mret M_bind M_ret lift log].
  destruct (fetch_invoice_data_from_dgi rt net pw url) as [d|e]; [|discriminate].
  destruct (negb (truthy (d !! "success"))).
  - destruct (create cx _ _) as [[r|e] w1]; [|discriminate].
    intros H. injection H as <- _. discriminate.
  - destruct (create cx _ _) as [[r|e] w1]; [|discriminate].
    unfold create_invoice_or_error, try_M. cbv [mbind mret M_bind M_ret].
    destruct (_create_invoice acc (rec_id r) w1) as [[inv|e] w2].
    + intros H. injection H as <- _. discriminate.
    + cbv [write]. intros H. injection H as <- _. discriminate.
Qed.

Lemma extract_uuid_shape url :
  match extract_uuid_from_url url with
  | Some [] => False
  | _ => True
  end.
Proof.
  destruct (extract_uuid_from_url url) as [uuid|] eqn:E; [|exact I].
  destruct (extract_uuid_nonempty _ _ E) as (c & u & ->). exact I.
Qed.

(** X10. For a URL of the DGI host, the check endpoint says that the invoice
    exists exactly when the scan endpoint answers [DUPLICATE]; the scan then
    reports the record the check shows, with its count raised by one, and
    fetches nothing. *)
Theorem check_agrees_with_scan (rt : runtime) (net : transport) (pw : playwright)
    (acc : accounting) (cx : context) (user : Z) (qr_url_arg : pystr) (w : world) :
  store_ok w -> contains dgi_host (strip qr_url_arg) = true ->
  ((exists existing, check_qr_code cx qr_url_arg w = CheckExists existing) <->
   (exists msg status data w',
      scan_qr_code rt net pw acc cx user qr_url_arg w
      = (Ok (ScanError "DUPLICATE" msg status data), w'))) /\
  (forall existing, check_qr_code cx qr_url_arg w = CheckExists existing ->
     exists snap w',
       scan_qr_code rt net pw acc cx user qr_url_arg w
       = (Ok (ScanError "DUPLICATE" (Some (VStr (py "Cette facture a déjà été scannée")))
                        400 (Some (snap, (duplicate_count existing + 1)%Z))), w') /\
       ex_id snap = rec_id existing /\
       ex_duplicate_count snap = (duplicate_count existing + 1)%Z /\
       events w' = events w).
Proof.
  intros Hok Hhost.
  assert (Hfwd : forall existing, check_qr_code cx qr_url_arg w = CheckExists existing ->
     exists snap w',
       scan_qr_code rt net pw acc cx user qr_url_arg w
       = (Ok (ScanError "DUPLICATE" (Some (VStr (py "Cette facture a déjà été scannée")))
                        400 (Some (snap, (duplicate_count existing + 1)%Z))), w') /\
       ex_id snap = rec_id existing /\
       ex_duplicate_count snap = (duplicate_count existing + 1)%Z /\
       events w' = events w).
  { intros existing. unfold check_qr_code, scan_qr_code. cbv zeta.
    destruct (strip qr_url_arg) as [|a url'] eqn:Hstrip; [discriminate|].
    rewrite Hhost. cbn [negb].
    destruct (extract_uuid_from_url (a :: url')) as [[|c u]|] eqn:Hurl; try discriminate.
    destruct (check_duplicate cx (c :: u) w) as [e|] eqn:Hex; [|discriminate].
    intros H. injection H as ->.
    destruct (process_qr_scan_duplicate_run rt net pw acc cx (a :: url') (Some user)
                c u existing w Hok Hurl Hex) as (w' & Hrun & _ & Hev).
    cbv [mbind M_bind]. rewrite Hrun. cbn [success].
    do 2 eexists. split; [reflexivity|]. repeat split. exact Hev. }
  split; [|exact Hfwd]. split.
  - intros [existing H]. destruct (Hfwd existing H) as (snap & w' & Hrun & _).
    do 4 eexists. exact Hrun.
  - intros (msg & status & data & w' & Hrun).
    unfold check_qr_code, scan_qr_code in *. cbv zeta in *.
    destruct (strip qr_url_arg) as [|a url'] eqn:Hstrip; [discriminate|].
    rewrite Hhost in Hrun. cbn [negb] in Hrun.
    pose proof (extract_uuid_shape (a :: url')) as Hshape.
    destruct (extract_uuid_from_url (a :: url')) as [[|c u]|] eqn:Hurl; [contradiction| |].
    + destruct (check_duplicate cx (c :: u) w) as [e|] eqn:Hex; [eauto|]. exfalso.
      cbv [mbind M_bind] in Hrun.
      destruct (process_qr_scan rt net pw acc cx (a :: url') (Some user) w)
        as [[res|e] w1] eqn:Hp; [|discriminate].
      pose proof (process_qr_scan_new _ _ _ _ _ _ _ _ _ _ _ _ Hurl Hex Hp) as Hne.
      destruct res; cbn [success] in Hrun; try discriminate; contradiction Hne; reflexivity.
    + exfalso. unfold process_qr_scan in Hrun. rewrite Hurl in Hrun. discriminate.
Qed.

(** X11. Reporting a duplicate found in the cache of the application does
    to the records what scanning the URL again does: when the check endpoint
    shows an existing record, both raise its count by one and stamp the user
    and the time on it, and neither fetches; otherwise the report is refused
    with the error of the check, or with [NOT_FOUND], and nothing changes. *)
Theorem report_matches_rescan (rt : runtime) (net : transport) (pw : playwright)
    (acc : accounting) (cx : context) (user : Z) (qr_url_arg : pystr) (w : world) :
  store_ok w -> user <> 0%Z ->
  match check_qr_code cx qr_url_arg w with
  | CheckExists existing =>
      let count := (duplicate_count existing + 1)%Z in
      let updated := set_duplicate count (now cx) user existing in
      exists w1 w2,
        report_duplicate cx user qr_url_arg w
        = (Ok (Reported count updated (user_name cx user)), w1) /\
        process_qr_scan rt net pw acc cx (strip qr_url_arg) (Some user) w
        = (Ok (Duplicate count (snapshot cx updated)), w2) /\
        lookup_record (rec_id existing) w1 = Some updated /\
        records w1 = records w2 /\ events w1 = events w /\ events w2 = events w
  | CheckNew _ =>
      report_duplicate cx user qr_url_arg w
      = (Ok (ReportError "NOT_FOUND" (py "Enregistrement non trouvé") 404), w)
  | CheckError code msg status =>
      report_duplicate cx user qr_url_arg w = (Ok (ReportError code msg status), w)
  end.
Proof.
  intros Hok Huser. unfold check_qr_code, report_duplicate. cbv zeta.
  destruct (strip qr_url_arg) as [|a url'] eqn:Hstrip; [reflexivity|].
  destruct (extract_uuid_from_url (a :: url')) as [[|c u]|] eqn:Hurl; try reflexivity.
  destruct (check_duplicate cx (c :: u) w) as [existing|] eqn:Hex; [|reflexivity].
  destruct (process_qr_scan_duplicate_run rt net pw acc cx (a :: url') (Some user)
              c u existing w Hok Hurl Hex) as (w2 & Hrun & Hrec & Hev).
  assert (Hact : acting_user cx (Some user) = user).
  { unfold acting_user. destruct (Z.eqb_spec user 0); [contradiction|reflexivity]. }
  rewrite Hact in Hrun, Hrec.
  set (f := set_duplicate (duplicate_count existing + 1) (now cx) user) in *.
  destruct (check_duplicate_some _ _ _ _ Hex) as (Hin & _).
  pose proof (lookup_record_write (rec_id existing) f w (set_duplicate_id _ _ _)) as Hl.
  rewrite (lookup_record_of_in w existing Hok Hin) in Hl.
  cbv [mbind mret M_bind M_ret read message_post].
  change (write (rec_id existing) f w) with (Ok tt, snd (write (rec_id existing) f w)).
  cbv iota beta. rewrite Hl. cbn [fmap option_fmap option_map].
  do 2 eexists. split; [reflexivity|]. split; [exact Hrun|].
  split; [exact Hl|]. split; [symmetry; exact Hrec|]. split; [reflexivity|exact Hev].
Qed.

Lemma create_events cx vals w : events (snd (create cx vals w)) = events w.
Proof. unfold create. destruct (violates_qr_uuid_unique vals w); reflexivity. Qed.

(** The calls a scan makes: nothing, one fetch of the URL, or that fetch and
    then one invoice creation. *)
Lemma process_qr_scan_events rt net pw acc cx url user_id w :
  let w' := snd (process_qr_scan rt net pw acc cx url user_id w) in
  events w' = events w \/ events w' = EFetch url :: events w \/
  exists rid, events w' = EInvoice rid :: EFetch url :: events w.
Proof.
  cbv zeta. unfold process_qr_scan.
  destruct (extract_uuid_from_url url) as [[|c u]|]; try (left; reflexivity).
  destruct (check_duplicate cx (c :: u) w) as [existing|].
  - left. cbv [mbind mret M_bind M_ret read message_post].
    change (write (rec_id existing) ?f w) with (Ok tt, snd (write (rec_id existing) f w)).
    cbv iota beta. destruct (lookup_record _ _); reflexivity.
  - right. cbv [mbind mret M_bind M_ret lift log].
    set (w0 := World _ _ _ _ _).
    destruct (fetch_invoice_data_from_dgi rt net pw url) as [d|e]; [|left; reflexivity].
    destruct (negb (truthy (d !! "success"))).
    + left. pose proof (create_events cx (error_vals cx (c :: u) url user_id d) w0) as Hev.
      destruct (create cx _ w0) as [[r|e] w1]; exact Hev.
    + pose proof (create_events cx (record_vals cx (c :: u) url user_id d) w0) as Hev.
      destruct (create cx _ w0) as [[r|e] w1] eqn:Hcr; [|left; exact Hev].
      cbn [snd] in Hev. right. exists (rec_id r).
      apply create_head in Hcr as (Hr & _ & _ & _ & _ & Hinv).
      assert (Hl : lookup_record (rec_id r) w1 = Some r).
      { unfold lookup_record, find_record. rewrite Hr. simpl.
        rewrite Z.eqb_refl. reflexivity. }
      pose proof (_create_invoice_events acc (rec_id r) w1) as Hci.
      rewrite Hl, Hinv, Hev in Hci.
      unfold create_invoice_or_error, try_M. cbv [mbind mret M_bind M_ret].
      destruct (_create_invoice acc (rec_id r) w1) as [[inv|e] w2]; exact Hci.
Qed.

Lemma try_api_agree rt net net' n u :
  requests_get net n u = requests_get net' n u ->
  try_api rt net n u = try_api rt net' n u.
Proof. intros H. unfold try_api. rewrite H. reflexivity. Qed.

Lemma api_loop_agree rt net net' urls : forall n,
  (forall k u, In u urls -> requests_get net k u = requests_get net' k u) ->
  api_loop rt net n urls = api_loop rt net' n urls.
Proof.
  induction urls as [|a urls IH]; intros n H; [reflexivity|]. cbn [api_loop].
  rewrite (try_api_agree rt net net' n a) by (apply H; left; reflexivity).
  rewrite (IH (S n)) by (intros k u Hu; apply H; right; exact Hu).
  reflexivity.
Qed.

(** The fetch depends on the transport through the requests for the two API
    URLs of the identifier and for the URL itself, and through the parser. *)
Lemma fetch_agree rt net net' pw url c u :
  extract_uuid_from_url url = Some (c :: u) ->
  (forall h, soup_get_text net h = soup_get_text net' h) ->
  (forall n x, In x (api_urls (c :: u) ++ [url]) ->
               requests_get net n x = requests_get net' n x) ->
  fetch_invoice_data_from_dgi rt net pw url = fetch_invoice_data_from_dgi rt net' pw url.
Proof.
  intros Hu Hs Hr.
  assert (H : fetch_with_requests_body rt net url = fetch_with_requests_body rt net' url).
  { unfold fetch_with_requests_body. rewrite Hu. cbv zeta.
    rewrite (api_loop_agree rt net net' (api_urls (c :: u)) 0)
      by (intros k x Hx; apply Hr; apply in_or_app; left; exact Hx).
    rewrite (Hr 2%nat url) by (apply in_or_app; right; left; reflexivity).
    cbv [mbind result_bind rbind].
    destruct (api_loop rt net' 0 (api_urls (c :: u))) as [[data|]|e]; try reflexivity.
    destruct (requests_get net' 2 url) as [resp|e]; [|reflexivity].
    destruct (status_code resp =? 200)%Z; [|reflexivity].
    rewrite Hs. reflexivity. }
  unfold fetch_invoice_data_from_dgi, _fetch_dgi_with_requests. rewrite H. reflexivity.
Qed.

(** X12. The scan endpoint depends on the HTTP transport only through the
    answers to the requests for three URLs, the two API URLs of the DGI built
    from the identifier and the URL it was given, stripped, and through the
    HTML parser: two transports that agree on them give the same reply and
    the same store. They need not agree on anything when the URL does not
    contain the name of the DGI host, carries no identifier, or is a
    duplicate. The page fetcher is called at most once, on the stripped URL,
    and invoice creation only after it. *)
Theorem scan_requests_only_dgi (rt : runtime) (net net' : transport) (pw : playwright)
    (acc : accounting) (cx : context) (user : Z) (qr_url_arg : pystr) (w : world) :
  (forall h, soup_get_text net h = soup_get_text net' h) ->
  (forall uuid n u,
     contains dgi_host (strip qr_url_arg) = true ->
     extract_uuid_from_url (strip qr_url_arg) = Some uuid ->
     check_duplicate cx uuid w = None ->
     In u (api_urls uuid ++ [strip qr_url_arg]) ->
     requests_get net n u = requests_get net' n u) ->
  scan_qr_code rt net pw acc cx user qr_url_arg w
  = scan_qr_code rt net' pw acc cx user qr_url_arg w /\
  let w' := snd (scan_qr_code rt net pw acc cx user qr_url_arg w) in
  let url := strip qr_url_arg in
  (events w' = events w \/
   (contains dgi_host url = true /\
    (events w' = EFetch url :: events w \/
     exists rid, events w' = EInvoice rid :: EFetch url :: events w))).
Proof.
  intros Hs Hr. split.
  - unfold scan_qr_code. cbv zeta.
    destruct (strip qr_url_arg) as [|a url'] eqn:Hstrip; [reflexivity|].
    destruct (contains dgi_host (a :: url')) eqn:Hhost; [|reflexivity].
    cbn [negb].
    assert (Hp : process_qr_scan rt net pw acc cx (a :: url') (Some user) w
                 = process_qr_scan rt net' pw acc cx (a :: url') (Some user) w).
    { unfold process_qr_scan.
      destruct (extract_uuid_from_url (a :: url')) as [[|c u]|] eqn:Hu; try reflexivity.
      destruct (check_duplicate cx (c :: u) w) as [existing|] eqn:Hdup; [reflexivity|].
      rewrite (fetch_agree rt net net' pw (a :: url') c u Hu Hs
                 (fun n x Hx => Hr (c :: u) n x eq_refl eq_refl Hdup Hx)).
      reflexivity. }
    cbv [mbind M_bind]. rewrite Hp. reflexivity.
  - cbv zeta. unfold scan_qr_code. cbv zeta.
    destruct (strip qr_url_arg) as [|a url'] eqn:Hstrip; [left; reflexivity|].
    destruct (contains dgi_host (a :: url')) eqn:Hhost; [|left; reflexivity].
    cbn [negb]. cbv [mbind mret M_bind M_ret].
    pose proof (process_qr_scan_events rt net pw acc cx (a :: url') (Some user) w) as Hev.
    cbv zeta in Hev.
    destruct (process_qr_scan rt net pw acc cx (a :: url') (Some user) w) as [[res|e] w1].
    + cbn [snd] in Hev. destruct (success res); cbn [snd];
        (destruct Hev as [Hev|Hev]; [left; exact Hev|right; split; [reflexivity|exact Hev]]).
    + cbn [snd] in *.
      destruct Hev as [Hev|Hev]; [left; exact Hev|right; split; [reflexivity|exact Hev]].
Qed.

(** ** Tokens *)

Lemma bearer_header token :
  starts_with bearer (bearer ++ token) = true /\ drop 7 (bearer ++ token) = token.
Proof. split; reflexivity. Qed.

Lemma find_none_map {A} (p : A -> bool) (h : A -> A) l :
  (forall x, In x l -> p (h x) = false) -> List.find p (List.map h l) = None.
Proof.
  induction l as [|x l IH]; intros H; [reflexivity|]. simpl.
  rewrite H by (left; reflexivity). apply IH. intros y Hy. apply H. right. exact Hy.
Qed.

(** X13. After a logout with a bearer token, that token authenticates
    nobody, at any time; tokens with another hash authenticate as before. *)
Theorem logout_revokes (sha256 : pystr -> pystr) (active : Z -> bool) (cx : context)
    (token : pystr) (tokens : list api_token) :
  let tokens' := logout sha256 (bearer ++ token) tokens in
  fst (require_auth sha256 active cx (bearer ++ token) tokens') = AuthInvalid /\
  (forall other, sha256 other <> sha256 token ->
     fst (require_auth sha256 active cx (bearer ++ other) tokens')
     = fst (require_auth sha256 active cx (bearer ++ other) tokens)).
Proof.
  cbv zeta. unfold logout, require_auth.
  destruct (bearer_header token) as [-> ->].
  cbn [negb]. split.
  - unfold _verify_api_token. rewrite find_none_map; [reflexivity|].
    intros t _. unfold pystr_eqb.
    destruct (bool_decide_reflect (token_hash t = sha256 token)) as [E|E].
    + cbn [token_hash set_inactive is_active]. apply andb_false_r.
    + rewrite bool_decide_eq_false_2 by exact E. reflexivity.
  - intros other Hne. destruct (bearer_header other) as [-> ->]. cbn [negb].
    unfold _verify_api_token. rewrite find_map_stable.
    + destruct (List.find _ tokens) as [t|]; [|reflexivity].
      cbn [fmap option_fmap option_map]. unfold pystr_eqb.
      destruct (bool_decide (token_hash t = sha256 token));
        cbn [token_user set_inactive]; destruct (active (token_user t)); reflexivity.
    + intros t _. unfold pystr_eqb.
      destruct (bool_decide_reflect (token_hash t = sha256 token)) as [E|E];
        [|reflexivity].
      cbn [token_hash set_inactive is_active expires_at].
      rewrite !bool_decide_eq_false_2 by congruence. reflexivity.
Qed.

(** X14. Authenticating with a token only stamps its last use: it changes
    neither what that token nor what any other token authenticates later. *)
Theorem require_auth_is_stable (sha256 : pystr -> pystr) (active : Z -> bool)
    (cx cx' : context) (header header' : pystr) (tokens : list api_token) :
  fst (require_auth sha256 active cx' header'
         (snd (require_auth sha256 active cx header tokens)))
  = fst (require_auth sha256 active cx' header' tokens).
Proof.
  assert (Hv : forall token, fst (_verify_api_token sha256 active cx' token
                 (snd (require_auth sha256 active cx header tokens)))
               = fst (_verify_api_token sha256 active cx' token tokens)).
  { intros token. unfold require_auth.
    destruct (negb (starts_with bearer header)); [reflexivity|].
    assert (Hs : snd (match _verify_api_token sha256 active cx (drop 7 header) tokens with
                      | (Some user, tokens') => (AuthUser user, tokens')
                      | (None, tokens') => (AuthInvalid, tokens')
                      end)
                 = snd (_verify_api_token sha256 active cx (drop 7 header) tokens)).
    { destruct (_verify_api_token _ _ _ _ _) as [[u|] ts]; reflexivity. }
    rewrite Hs. unfold _verify_api_token at 2.
    destruct (List.find _ tokens) as [t0|]; [|reflexivity].
    destruct (active (token_user t0)); [|reflexivity]. cbn [snd].
    unfold _verify_api_token. rewrite find_map_stable.
    - destruct (List.find _ tokens) as [t|]; [|reflexivity].
      cbn [fmap option_fmap option_map].
      destruct (token_id t =? token_id t0)%Z; cbn [token_user set_last_used];
        destruct (active (token_user t)); reflexivity.
    - intros t _. destruct (token_id t =? token_id t0)%Z; reflexivity. }
  unfold require_auth at 1 3.
  destruct (negb (starts_with bearer header')); [reflexivity|].
  specialize (Hv (drop 7 header')).
  destruct (_verify_api_token sha256 active cx' (drop 7 header') (snd _)) as [[u|] ts];
    destruct (_verify_api_token sha256 active cx' (drop 7 header') tokens) as [[u'|] ts'];
    cbn [fst] in *; congruence.
Qed.

(** ** The model actions on a recordset *)

Lemma browse_ok self w :
  Forall (fun rid => is_Some (lookup_record rid w)) self ->
  exists rs, browse self w = Ok rs /\
             (forall x, In x rs -> In x (records w) /\ In (rec_id x) self) /\
             (forall rid, In rid self -> exists x, In x rs /\ lookup_record rid w = Some x).
Proof.
  induction 1 as [|rid self [r Hr] _ (rs & Hb & Hfrom & Hto)].
  - exists []. split; [reflexivity|]. split; intros ? [].
  - exists (r :: rs). cbn [browse]. rewrite Hr, Hb. split; [reflexivity|]. split.
    + intros x [<-|Hx].
      * apply lookup_record_in in Hr as [Hin Hid]. split; [exact Hin|left; auto].
      * destruct (Hfrom x Hx). split; [assumption|right; assumption].
    + intros k [<-|Hk]; [exists r; split; [left; reflexivity|exact Hr]|].
      destruct (Hto k Hk) as (x & Hx & Hl). exists x. split; [right; exact Hx|exact Hl].
Qed.

Lemma browse_missing self w :
  ~ Forall (fun rid => is_Some (lookup_record rid w)) self ->
  exists e, browse self w = Raise e.
Proof.
  induction self as [|rid self IH]; intros H; [exfalso; apply H; constructor|].
  cbn [browse]. destruct (lookup_record rid w) as [r|] eqn:Hr; [|eauto].
  destruct IH as [e He].
  - intros Hall. apply H. constructor; [rewrite Hr; eauto|exact Hall].
  - rewrite He. eauto.
Qed.

(** The identifiers an action on the records of [self] in state [s] writes. *)
Lemma selected_ids s self rs w r :
  store_ok w ->
  (forall x, In x rs -> In x (records w) /\ In (rec_id x) self) ->
  (forall rid, In rid self -> exists x, In x rs /\ lookup_record rid w = Some x) ->
  In r (records w) ->
  bool_decide (rec_id r ∈ List.map rec_id (List.filter (state_is s) rs))
  = selected_in s self r.
Proof.
  intros Hok Hfrom Hto Hin. unfold selected_in.
  apply eq_true_iff_eq. rewrite andb_true_iff, !bool_decide_eq_true.
  rewrite !list_elem_of_In, in_map_iff. split.
  - intros (x & Hid & Hx). apply filter_In in Hx as [Hx Hs].
    destruct (Hfrom x Hx) as [Hxin Hself].
    pose proof (lookup_record_of_in w x Hok Hxin) as Hl. rewrite Hid in Hl.
    rewrite (lookup_record_of_in w r Hok Hin) in Hl. injection Hl as <-.
    split; [exact Hself|exact Hs].
  - intros [Hself Hs]. destruct (Hto _ Hself) as (x & Hx & Hl).
    rewrite (lookup_record_of_in w r Hok Hin) in Hl. injection Hl as <-.
    exists r. split; [reflexivity|]. apply filter_In. split; assumption.
Qed.

(** When no record of [self] is in state [s] the selection is empty. *)
Lemma selected_none s self rs w :
  (forall x, In x rs -> In x (records w) /\ In (rec_id x) self) ->
  existsb (selected_in s self) (records w) = false ->
  List.filter (state_is s) rs = [].
Proof.
  intros Hfrom Hex. destruct (List.filter (state_is s) rs) as [|x xs] eqn:Hf; [reflexivity|].
  exfalso. assert (Hx : In x (List.filter (state_is s) rs)) by (rewrite Hf; left; auto).
  apply filter_In in Hx as [Hx Hs]. destruct (Hfrom x Hx) as [Hxin Hself].
  apply not_true_iff_false in Hex. apply Hex, existsb_exists. exists x.
  split; [exact Hxin|]. unfold selected_in. rewrite Hs, andb_true_r.
  apply bool_decide_eq_true, list_elem_of_In, Hself.
Qed.

Lemma fold_insert_lookup (rids : list Z) (v : processing) (p : gmap Z processing) k :
  fold_left (fun p rid => <[rid := v]> p) rids p !! k
  = if bool_decide (k ∈ rids) then Some v else p !! k.
Proof.
  revert p. induction rids as [|rid rids IH]; intros p; [reflexivity|].
  cbn [fold_left]. rewrite IH.
  destruct (bool_decide_reflect (k ∈ rids)) as [Hk|Hk].
  - rewrite bool_decide_eq_true_2 by (right; exact Hk). reflexivity.
  - destruct (decide (k = rid)) as [->|Hne].
    + rewrite bool_decide_eq_true_2 by left. apply lookup_insert_eq.
    + rewrite bool_decide_eq_false_2.
      * apply lookup_insert_ne. congruence.
      * intros H. apply elem_of_cons in H as [?|?]; contradiction.
Qed.

Lemma fold_delete_lookup (rids : list Z) (p : gmap Z processing) k :
  fold_left (fun p rid => delete rid p) rids p !! k
  = if bool_decide (k ∈ rids) then None else p !! k.
Proof.
  revert p. induction rids as [|rid rids IH]; intros p; [reflexivity|].
  cbn [fold_left]. rewrite IH.
  destruct (bool_decide_reflect (k ∈ rids)) as [Hk|Hk].
  - rewrite bool_decide_eq_true_2 by (right; exact Hk). reflexivity.
  - destruct (decide (k = rid)) as [->|Hne].
    + rewrite bool_decide_eq_true_2 by left. apply lookup_delete_eq.
    + rewrite bool_decide_eq_false_2.
      * apply lookup_delete_ne. congruence.
      * intros H. apply elem_of_cons in H as [?|?]; contradiction.
Qed.

Lemma post_all_records rids body w : records (post_all rids body w) = records w.
Proof.
  revert w. induction rids as [|rid rids IH]; intros w; [reflexivity|].
  unfold post_all in *. cbn [fold_left]. rewrite IH. reflexivity.
Qed.

Lemma post_all_next_id rids body w : next_id (post_all rids body w) = next_id w.
Proof.
  revert w. induction rids as [|rid rids IH]; intros w; [reflexivity|].
  unfold post_all in *. cbn [fold_left]. rewrite IH. reflexivity.
Qed.

Lemma action_mark_processed_run cx self d :
  store_ok (store d) ->
  Forall (fun rid => is_Some (lookup_record rid (store d))) self ->
  if existsb (selected_in Done self) (records (store d)) then
    exists d',
      action_mark_processed cx self d = (Ok true, d') /\
      next_id (store d') = next_id (store d) /\
      records (store d')
      = List.map (fun r => if selected_in Done self r then set_state Processed r else r)
                 (records (store d)) /\
      forall r, In r (records (store d)) ->
        processed d' !! rec_id r
        = if selected_in Done self r then Some (Processing (env_user cx) (now cx))
          else processed d !! rec_id r
  else
    exists e, action_mark_processed cx self d = (Raise e, d) /\ kind e = UserError.
Proof.
  intros Hok Hall. unfold action_mark_processed.
  destruct (browse_ok self (store d) Hall) as (rs & -> & Hfrom & Hto).
  pose proof (fun r => selected_ids Done self rs (store d) r Hok Hfrom Hto) as Hids.
  destruct (existsb (selected_in Done self) (records (store d))) eqn:Hex.
  - apply existsb_exists in Hex as (r & Hin & Hr).
    rewrite <- (Hids r Hin) in Hr. apply bool_decide_eq_true in Hr.
    destruct (List.filter (state_is Done) rs) as [|x xs] eqn:Hf;
      [apply elem_of_nil in Hr; contradiction|].
    set (rids := List.map rec_id (x :: xs)) in *.
    eexists. split; [reflexivity|]. cbn [store processed].
    split; [rewrite post_all_next_id; reflexivity|]. split.
    + rewrite post_all_records. unfold write_all. cbn [records].
      apply map_ext_in. intros y Hy. rewrite (Hids y Hy). reflexivity.
    + intros y Hy. rewrite fold_insert_lookup, (Hids y Hy). reflexivity.
  - rewrite (selected_none Done self rs (store d) Hfrom Hex). eexists. split; reflexivity.
Qed.

Lemma action_mark_unprocessed_run cx self d :
  store_ok (store d) ->
  Forall (fun rid => is_Some (lookup_record rid (store d))) self ->
  if existsb (selected_in Processed self) (records (store d)) then
    exists d',
      action_mark_unprocessed cx self d = (Ok true, d') /\
      records (store d')
      = List.map (fun r => if selected_in Processed self r then set_state Done r else r)
                 (records (store d)) /\
      forall r, In r (records (store d)) ->
        processed d' !! rec_id r
        = if selected_in Processed self r then None else processed d !! rec_id r
  else
    exists e, action_mark_unprocessed cx self d = (Raise e, d) /\ kind e = UserError.
Proof.
  intros Hok Hall. unfold action_mark_unprocessed.
  destruct (browse_ok self (store d) Hall) as (rs & -> & Hfrom & Hto).
  pose proof (fun r => selected_ids Processed self rs (store d) r Hok Hfrom Hto) as Hids.
  destruct (existsb (selected_in Processed self) (records (store d))) eqn:Hex.
  - apply existsb_exists in Hex as (r & Hin & Hr).
    rewrite <- (Hids r Hin) in Hr. apply bool_decide_eq_true in Hr.
    destruct (List.filter (state_is Processed) rs) as [|x xs] eqn:Hf;
      [apply elem_of_nil in Hr; contradiction|].
    set (rids := List.map rec_id (x :: xs)) in *.
    eexists. split; [reflexivity|]. cbn [store processed]. split.
    + rewrite post_all_records. unfold write_all. cbn [records].
      apply map_ext_in. intros y Hy. rewrite (Hids y Hy). reflexivity.
    + intros y Hy. rewrite fold_delete_lookup, (Hids y Hy). reflexivity.
  - rewrite (selected_none Processed self rs (store d) Hfrom Hex).
    eexists. split; reflexivity.
Qed.

(** X15. [action_mark_processed] on a recordset of existing records marks
    exactly its done records: each becomes processed, stamped with the user
    of the environment and the time, and every other record, of the
    recordset or not, stays as it is. When the recordset holds no done
    record, or is empty, it raises [UserError] and changes nothing. *)
Theorem action_mark_processed_spec (cx : context) (self : list Z) (d : desk) :
  store_ok (store d) ->
  Forall (fun rid => is_Some (lookup_record rid (store d))) self ->
  if existsb (selected_in Done self) (records (store d)) then
    exists d',
      action_mark_processed cx self d = (Ok true, d') /\
      records (store d')
      = List.map (fun r => if selected_in Done self r then set_state Processed r else r)
                 (records (store d)) /\
      forall r, In r (records (store d)) ->
        processed d' !! rec_id r
        = if selected_in Done self r then Some (Processing (env_user cx) (now cx))
          else processed d !! rec_id r
  else
    exists e, action_mark_processed cx self d = (Raise e, d) /\ kind e = UserError.
Proof.
  intros Hok Hall. pose proof (action_mark_processed_run cx self d Hok Hall) as H.
  destruct (existsb (selected_in Done self) (records (store d))); [|exact H].
  destruct H as (d' & Hrun & _ & Hrec & Hp). exists d'. split; [exact Hrun|].
  split; [exact Hrec|exact Hp].
Qed.

Lemma existsb_none {A} (p : A -> bool) l x :
  existsb p l = false -> In x l -> p x = false.
Proof.
  intros H Hin. destruct (p x) eqn:Hp; [|reflexivity].
  apply not_true_iff_false in H. exfalso. apply H, existsb_exists. eauto.
Qed.

Lemma lookup_record_map_ids (h : scan_record -> scan_record) rid l :
  (forall r, rec_id (h r) = rec_id r) ->
  is_Some (find_record rid l) -> is_Some (find_record rid (List.map h l)).
Proof.
  intros Hh [r Hr]. unfold find_record in *. apply find_in in Hr as [Hin Hid].
  destruct (List.find _ (List.map h l)) eqn:E; [eauto|]. exfalso.
  eapply find_none in E; [|apply in_map, Hin]. simpl in E. rewrite Hh in E. congruence.
Qed.

(** X21. On a recordset of existing records none of which is processed,
    [action_mark_unprocessed] undoes [action_mark_processed]: the records are
    as they were, and the processing columns of the records that were marked
    are empty again. *)
Theorem action_mark_round_trip (cx cx' : context) (self : list Z) (d : desk) :
  store_ok (store d) ->
  Forall (fun rid => is_Some (lookup_record rid (store d))) self ->
  existsb (selected_in Done self) (records (store d)) = true ->
  existsb (selected_in Processed self) (records (store d)) = false ->
  exists d1 d2,
    action_mark_processed cx self d = (Ok true, d1) /\
    action_mark_unprocessed cx' self d1 = (Ok true, d2) /\
    records (store d2) = records (store d) /\
    forall r, In r (records (store d)) ->
      processed d2 !! rec_id r
      = if selected_in Done self r then None else processed d !! rec_id r.
Proof.
  intros Hok Hall Hdone Hnone.
  pose proof (action_mark_processed_run cx self d Hok Hall) as H1. rewrite Hdone in H1.
  destruct H1 as (d1 & Hrun1 & Hnext1 & Hrec1 & Hp1).
  set (h := fun r => if selected_in Done self r then set_state Processed r else r) in *.
  assert (Hh : forall r, rec_id (h r) = rec_id r).
  { intros r. unfold h. destruct (selected_in Done self r); reflexivity. }
  assert (Hok1 : store_ok (store d1)).
  { revert Hok. apply store_ok_same; [|exact Hnext1].
    unfold ids. rewrite Hrec1, List.map_map. apply map_ext. exact Hh. }
  assert (Hall1 : Forall (fun rid => is_Some (lookup_record rid (store d1))) self).
  { eapply Forall_impl; [exact Hall|]. intros rid Hs. unfold lookup_record in *.
    rewrite Hrec1. apply lookup_record_map_ids; assumption. }
  assert (Hsel : forall r, In r (records (store d)) ->
            selected_in Processed self (h r) = selected_in Done self r).
  { intros r Hin. unfold h, selected_in, state_is.
    destruct (bool_decide_reflect (rec_id r ∈ self)) as [Hs|Hs]; cbn [andb].
    - destruct (bool_decide_reflect (state r = Done)) as [Hd|Hd].
      + cbn [rec_id set_state state]. rewrite bool_decide_eq_true_2 by exact Hs.
        rewrite bool_decide_eq_true_2 by reflexivity. reflexivity.
      + rewrite bool_decide_eq_true_2 by exact Hs. cbn [andb].
        apply bool_decide_eq_false. intros Hp.
        assert (Hx : selected_in Processed self r = true).
        { unfold selected_in, state_is. rewrite !bool_decide_eq_true_2 by assumption.
          reflexivity. }
        rewrite (existsb_none _ _ r Hnone Hin) in Hx. discriminate.
    - rewrite bool_decide_eq_false_2 by exact Hs. reflexivity. }
  pose proof (action_mark_unprocessed_run cx' self d1 Hok1 Hall1) as H2.
  assert (Hex2 : existsb (selected_in Processed self) (records (store d1)) = true).
  { apply existsb_exists in Hdone as (r & Hin & Hr). apply existsb_exists.
    exists (h r). split; [rewrite Hrec1; apply in_map, Hin|].
    rewrite (Hsel r Hin). exact Hr. }
  rewrite Hex2 in H2. destruct H2 as (d2 & Hrun2 & Hrec2 & Hp2).
  exists d1, d2. split; [exact Hrun1|]. split; [exact Hrun2|]. split.
  - rewrite Hrec2, Hrec1, List.map_map. apply map_ext_in_id. intros r Hin.
    rewrite (Hsel r Hin). unfold h.
    destruct (selected_in Done self r) eqn:Hs; [|reflexivity].
    unfold selected_in, state_is in Hs. apply andb_true_iff in Hs as [_ Hs].
    apply bool_decide_eq_true in Hs. rewrite <- Hs. apply set_state_back.
  - intros r Hin.
    assert (Hin1 : In (h r) (records (store d1))) by (rewrite Hrec1; apply in_map, Hin).
    pose proof (Hp2 (h r) Hin1) as Hq. rewrite Hh, (Hsel r Hin) in Hq. rewrite Hq.
    destruct (selected_in Done self r) eqn:Hs; [reflexivity|].
    rewrite (Hp1 r Hin), Hs. reflexivity.
Qed.

(** ** No operation makes a scanned invoice scannable again *)

Lemma keeps_refl r : keeps r r.
Proof. unfold keeps. tauto. Qed.

Lemma keeps_trans a b c : keeps a b -> keeps b c -> keeps a c.
Proof.
  intros (H1 & H2 & H3 & H4) (K1 & K2 & K3 & K4).
  split; [congruence|]. split; [congruence|]. split; [congruence|auto].
Qed.

Lemma grows_refl w : grows w w.
Proof. intros r Hr. exists r. split; [exact Hr|apply keeps_refl]. Qed.

Lemma grows_trans a b c : grows a b -> grows b c -> grows a c.
Proof.
  intros H1 H2 r Hr. destruct (H1 r Hr) as (r1 & Hr1 & K1).
  destruct (H2 r1 Hr1) as (r2 & Hr2 & K2). exists r2. split; [exact Hr2|].
  eapply keeps_trans; eassumption.
Qed.

Lemma grows_incl w w' : incl (records w) (records w') -> grows w w'.
Proof. intros H r Hr. exists r. split; [apply H, Hr|apply keeps_refl]. Qed.

Lemma grows_same w w' : records w' = records w -> grows w w'.
Proof. intros H. apply grows_incl. rewrite H. apply incl_refl. Qed.

(** A write grows the store when it keeps the record it changes. *)
Lemma grows_write rid f w :
  store_ok w -> (forall r, lookup_record rid w = Some r -> keeps r (f r)) ->
  grows w (snd (write rid f w)).
Proof.
  intros Hok Hf r Hr. destruct (Z.eq_dec (rec_id r) rid) as [E|E].
  - exists (f r). split.
    + unfold write. cbn [snd records]. apply in_map_iff. exists r.
      rewrite E, Z.eqb_refl. split; [reflexivity|exact Hr].
    + apply Hf. rewrite <- E. apply lookup_record_of_in; assumption.
  - exists r. split; [apply write_other; assumption|apply keeps_refl].
Qed.

Lemma keeps_same_state r r' :
  rec_id r' = rec_id r -> qr_uuid r' = qr_uuid r -> company_id r' = company_id r ->
  state r' = state r -> keeps r r'.
Proof. intros H1 H2 H3 H4. unfold keeps. rewrite H4. tauto. Qed.

Lemma keeps_successful r r' :
  rec_id r' = rec_id r -> qr_uuid r' = qr_uuid r -> company_id r' = company_id r ->
  is_successful (state r') = true -> keeps r r'.
Proof. intros H1 H2 H3 H4. unfold keeps. tauto. Qed.

(** Invoice creation keeps every record and the identifiers. *)
Lemma _create_invoice_grows acc rid w :
  store_ok w -> grows w (snd (_create_invoice acc rid w)).
Proof.
  intros Hok.
  destruct (lookup_record rid w) as [self|] eqn:Hl;
    [|rewrite _create_invoice_missing by exact Hl; apply grows_refl].
  destruct (invoice_id self) as [i|] eqn:Hi;
    [rewrite (_create_invoice_rejects _ _ _ _ _ Hl Hi); apply grows_refl|].
  rewrite (_create_invoice_run _ _ _ _ Hl Hi). cbv zeta.
  set (w1 := snd (log (EInvoice rid) w)).
  assert (Hok1 : store_ok w1) by (revert Hok; apply store_ok_same; reflexivity).
  assert (H01 : grows w w1) by (apply grows_same; reflexivity).
  destruct (get_or_create_supplier acc self) as [partner|e]; [|exact H01].
  assert (H12 : grows w1 (snd (write rid (set_partner partner) w1))).
  { apply grows_write; [exact Hok1|]. intros r _. apply keeps_same_state; reflexivity. }
  destruct (post_invoice acc (set_partner partner self) partner) as [inv|e]; cbn [snd].
  - eapply grows_trans; [exact H01|]. eapply grows_trans; [exact H12|].
    apply grows_write;
      [exact (write_store_ok rid (set_partner partner) w1 (set_partner_id partner) Hok1)|].
    intros r _. apply keeps_successful; reflexivity.
  - exact (grows_trans _ _ _ H01 H12).
Qed.

Lemma grows_set_error_message rid msg w :
  store_ok w -> grows w (snd (write rid (set_error_message msg) w)).
Proof.
  intros Hok. apply grows_write; [exact Hok|].
  intros r _. apply keeps_same_state; reflexivity.
Qed.

Lemma process_qr_scan_grows rt net pw acc cx url user_id w :
  store_ok w -> grows w (snd (process_qr_scan rt net pw acc cx url user_id w)).
Proof.
  intros Hok. unfold process_qr_scan.
  destruct (extract_uuid_from_url url) as [[|c u]|]; try apply grows_refl.
  destruct (check_duplicate cx (c :: u) w) as [existing|].
  - cbv [mbind mret M_bind M_ret read message_post].
    set (f := set_duplicate _ _ _).
    change (write (rec_id existing) f w) with (Ok tt, snd (write (rec_id existing) f w)).
    cbv iota beta.
    assert (H1 : grows w (snd (write (rec_id existing) f w))).
    { apply grows_write; [exact Hok|]. intros r _. apply keeps_same_state; reflexivity. }
    destruct (lookup_record _ _); exact H1.
  - cbv [mbind mret M_bind M_ret lift log].
    set (w0 := World _ _ _ _ _).
    assert (H0 : store_ok w0) by (revert Hok; apply store_ok_same; reflexivity).
    destruct (fetch_invoice_data_from_dgi rt net pw url) as [d|e];
      [|apply grows_same; reflexivity].
    assert (Hcreate : forall vals, incl (records w) (records (snd (create cx vals w0)))).
    { intros vals. unfold create. destruct (violates_qr_uuid_unique vals w0); cbn [snd records].
      - apply incl_refl.
      - apply incl_tl, incl_refl. }
    destruct (negb (truthy (d !! "success"))).
    + specialize (Hcreate (error_vals cx (c :: u) url user_id d)).
      destruct (create cx _ w0) as [[r|e] w1]; apply grows_incl; exact Hcreate.
    + specialize (Hcreate (record_vals cx (c :: u) url user_id d)).
      destruct (create cx _ w0) as [[r|e] w1] eqn:Hcr; [|apply grows_incl; exact Hcreate].
      apply create_head in Hcr as (Hr & Hid & _ & _ & _ & Hinv).
      destruct (create_invoice_or_error_head acc w1 r (records w0) Hr)
        as (r' & res' & w2 & Hrun' & Hr' & _).
      * rewrite Hid. apply (fresh_id w0 H0).
      * exact Hinv.
      * rewrite Hrun'. apply grows_incl. cbn [snd]. rewrite Hr'. apply incl_tl, incl_refl.
Qed.

Lemma same_frame_refl w : same_frame w w.
Proof. split; reflexivity. Qed.

Lemma same_frame_trans a b c : same_frame a b -> same_frame b c -> same_frame a c.
Proof. intros [H1 H2] [K1 K2]. split; congruence. Qed.

Lemma same_frame_ok w w' : same_frame w w' -> store_ok w -> store_ok w'.
Proof. intros [H1 H2]. apply store_ok_same; assumption. Qed.

Lemma same_frame_write rid f w :
  (forall r, rec_id (f r) = rec_id r) -> same_frame w (snd (write rid f w)).
Proof. intros Hf. split; [apply write_ids, Hf|reflexivity]. Qed.

Lemma same_frame_create_invoice acc rid w : same_frame w (snd (_create_invoice acc rid w)).
Proof. split; [apply _create_invoice_ids|apply _create_invoice_next_id]. Qed.

Lemma retry_error_step acc rid w :
  store_ok w ->
  same_frame w (snd (retry_error acc rid w)) /\ grows w (snd (retry_error acc rid w)).
Proof.
  intros Hok. unfold retry_error.
  destruct (lookup_record rid w) as [record|];
    [|split; [apply same_frame_refl|apply grows_refl]].
  destruct (negb _); [split; [apply same_frame_refl|apply grows_refl]|].
  destruct (bool_decide _); [split; [apply same_frame_refl|apply grows_refl]|].
  cbv [try_M mbind mret M_bind M_ret read].
  pose proof (same_frame_create_invoice acc rid w) as Hf.
  pose proof (_create_invoice_grows acc rid w Hok) as Hg.
  destruct (_create_invoice acc rid w) as [[inv|e] w1]; cbn [snd] in *.
  - destruct (lookup_record rid w1); cbn [snd]; [split; assumption|].
    split.
    + eapply same_frame_trans; [exact Hf|]. apply same_frame_write. reflexivity.
    + eapply grows_trans; [exact Hg|]. apply grows_set_error_message.
      apply (same_frame_ok w w1 Hf Hok).
  - split.
    + eapply same_frame_trans; [exact Hf|]. apply same_frame_write. reflexivity.
    + eapply grows_trans; [exact Hg|]. apply grows_set_error_message.
      apply (same_frame_ok w w1 Hf Hok).
Qed.

Lemma action_retry_step acc rid w :
  store_ok w ->
  same_frame w (snd (action_retry_create_invoice acc rid w)) /\
  grows w (snd (action_retry_create_invoice acc rid w)).
Proof.
  intros Hok. unfold action_retry_create_invoice.
  cbv [mbind mret M_bind M_ret read try_M].
  destruct (lookup_record rid w) as [record|];
    [|split; [apply same_frame_refl|apply grows_refl]].
  destruct (_ && _); [|split; [apply same_frame_refl|apply grows_refl]].
  pose proof (same_frame_create_invoice acc rid w) as Hf.
  pose proof (_create_invoice_grows acc rid w Hok) as Hg.
  destruct (_create_invoice acc rid w) as [[inv|e] w1]; cbn [snd] in *.
  - split; assumption.
  - split.
    + eapply same_frame_trans; [exact Hf|]. apply same_frame_write. reflexivity.
    + eapply grows_trans; [exact Hg|]. apply grows_set_error_message.
      apply (same_frame_ok w w1 Hf Hok).
Qed.

Lemma report_duplicate_step cx user url w :
  store_ok w ->
  same_frame w (snd (report_duplicate cx user url w)) /\
  grows w (snd (report_duplicate cx user url w)).
Proof.
  intros Hok. unfold report_duplicate. cbv zeta.
  destruct (strip url); [split; [apply same_frame_refl|apply grows_refl]|].
  destruct (extract_uuid_from_url _) as [[|c u]|];
    try (split; [apply same_frame_refl|apply grows_refl]).
  destruct (check_duplicate cx (c :: u) w) as [existing|];
    [|split; [apply same_frame_refl|apply grows_refl]].
  cbv [mbind mret M_bind M_ret read message_post].
  set (f := set_duplicate _ _ _).
  change (write (rec_id existing) f w) with (Ok tt, snd (write (rec_id existing) f w)).
  cbv iota beta.
  assert (Hf : same_frame w (snd (write (rec_id existing) f w)))
    by (apply same_frame_write; reflexivity).
  assert (Hg : grows w (snd (write (rec_id existing) f w))).
  { apply grows_write; [exact Hok|]. intros r _. apply keeps_same_state; reflexivity. }
  destruct (lookup_record _ _); cbn [snd]; split; assumption.
Qed.

Lemma mark_processed_step cx user rid d :
  store_ok (store d) ->
  same_frame (store d) (store (snd (mark_processed cx user rid d))) /\
  grows (store d) (store (snd (mark_processed cx user rid d))).
Proof.
  intros Hok. unfold mark_processed.
  destruct (lookup_record rid (store d)) as [record|];
    [|split; [apply same_frame_refl|apply grows_refl]].
  destruct (negb _); [split; [apply same_frame_refl|apply grows_refl]|].
  cbn [snd store]. split.
  - apply (same_frame_write rid (set_state Processed) (store d)). reflexivity.
  - apply (grows_write rid (set_state Processed) (store d) Hok).
    intros r _. apply keeps_successful; reflexivity.
Qed.

Lemma mark_unprocessed_step cx user rid d :
  store_ok (store d) ->
  same_frame (store d) (store (snd (mark_unprocessed cx user rid d))) /\
  grows (store d) (store (snd (mark_unprocessed cx user rid d))).
Proof.
  intros Hok. unfold mark_unprocessed.
  destruct (lookup_record rid (store d)) as [record|];
    [|split; [apply same_frame_refl|apply grows_refl]].
  destruct (negb _); [split; [apply same_frame_refl|apply grows_refl]|].
  cbn [snd store]. split.
  - apply (same_frame_write rid (set_state Done) (store d)). reflexivity.
  - apply (grows_write rid (set_state Done) (store d) Hok).
    intros r _. apply keeps_successful; reflexivity.
Qed.

Lemma scan_qr_code_snd rt net pw acc cx user url w :
  snd (scan_qr_code rt net pw acc cx user url w) = w \/
  snd (scan_qr_code rt net pw acc cx user url w)
  = snd (process_qr_scan rt net pw acc cx (strip url) (Some user) w).
Proof.
  unfold scan_qr_code. cbv zeta.
  destruct (strip url) as [|a s]; [left; reflexivity|].
  destruct (negb _); [left; reflexivity|]. right.
  cbv [mbind mret M_bind M_ret].
  destruct (process_qr_scan _ _ _ _ _ _ _ _) as [[res|e] w1]; [|reflexivity].
  destruct (success res); reflexivity.
Qed.

(** Each step keeps identifiers unique and every record, successful ones
    successful. *)
Lemma step_grows w w' : store_ok w -> step w w' -> store_ok w' /\ grows w w'.
Proof.
  intros Hok Hstep. destruct Hstep.
  - split; [apply process_qr_scan_store_ok|apply process_qr_scan_grows]; exact Hok.
  - destruct (scan_qr_code_snd rt net pw acc cx user url w) as [->| ->].
    + split; [exact Hok|apply grows_refl].
    + split; [apply process_qr_scan_store_ok|apply process_qr_scan_grows]; exact Hok.
  - destruct (report_duplicate_step cx user url w Hok) as [Hf Hg].
    split; [apply (same_frame_ok _ _ Hf Hok)|exact Hg].
  - destruct (retry_error_step acc rid w Hok) as [Hf Hg].
    split; [apply (same_frame_ok _ _ Hf Hok)|exact Hg].
  - destruct (action_retry_step acc rid w Hok) as [Hf Hg].
    split; [apply (same_frame_ok _ _ Hf Hok)|exact Hg].
  - destruct (mark_processed_step cx user rid d Hok) as [Hf Hg].
    split; [apply (same_frame_ok _ _ Hf Hok)|exact Hg].
  - destruct (mark_unprocessed_step cx user rid d Hok) as [Hf Hg].
    split; [apply (same_frame_ok _ _ Hf Hok)|exact Hg].
Qed.

(** A store that grows keeps its duplicates. *)
Lemma grows_duplicate cx uuid w w' :
  grows w w' -> is_Some (check_duplicate cx uuid w) -> is_Some (check_duplicate cx uuid w').
Proof.
  intros Hg [r Hr].
  destruct (check_duplicate_some _ _ _ _ Hr) as (Hin & Hu & Hs & Hc).
  destruct (Hg r Hin) as (r' & Hin' & _ & Hu' & Hc' & Hs').
  destruct (check_duplicate_finds cx uuid w' r' Hin') as [x Hx]; try congruence; eauto.
Qed.

Lemma steps_grow w w' : store_ok w -> steps w w' -> store_ok w' /\ grows w w'.
Proof.
  intros Hok. induction 1 as [w|w w1 w2 _ IH Hstep].
  - split; [exact Hok|apply grows_refl].
  - destruct (IH Hok) as [Hok1 Hg1]. destruct (step_grows w1 w2 Hok1 Hstep) as [Hok2 Hg2].
    split; [exact Hok2|]. eapply grows_trans; eassumption.
Qed.

(** X16. Once an invoice has been scanned with success, no sequence of
    scans, duplicate reports, retries and markings makes its identifier
    scannable again: the duplicate check of its company keeps finding a
    record for it, and identifiers stay unique. *)
Theorem scanned_stays_duplicate (cx : context) (uuid : pystr) (w w' : world) :
  store_ok w -> steps w w' ->
  is_Some (check_duplicate cx uuid w) ->
  is_Some (check_duplicate cx uuid w') /\ store_ok w'.
Proof.
  intros Hok Hsteps Hdup. destruct (steps_grow w w' Hok Hsteps) as [Hok' Hg].
  split; [|exact Hok']. exact (grows_duplicate cx uuid w w' Hg Hdup).
Qed.

(** ** The properties on the deployment *)

Lemma store_ok_w_empty : store_ok w_empty.
Proof. split; constructor. Defined.

(** The first scan of the sample URL takes the total from 0 to 1. *)
Lemma scan_counts_once_witness :
  total_scans (get_stats add_francs cx0 w_scanned)
  = (total_scans (get_stats add_francs cx0 w_empty) + 1)%Z.
Proof.
  apply (scan_counts_once add_francs ascii_runtime sample_net no_browser good_accounting
           cx0 sample_url (Some 5%Z) w_empty w_scanned
           (Created 1 (py "SCAN/1") sample_invoice)).
  - exact store_ok_w_empty.
  - constructor.
  - vm_compute. reflexivity.
Defined.

Lemma scanned_record_found : lookup_record 1 w_scanned = Some scanned_record.
Proof. reflexivity. Defined.

(** The record of the first scan, marked by user 5 and unmarked by user 6. *)
Lemma mark_round_trip_witness :
  records (store (snd (mark_unprocessed cx0 6 1 (snd (mark_processed cx0 5 1 d_scanned)))))
  = records w_scanned /\
  processed (snd (mark_processed cx0 5 1 d_scanned)) !! 1%Z
  = Some (Processing 5 (now cx0)) /\
  processed (snd (mark_unprocessed cx0 6 1 (snd (mark_processed cx0 5 1 d_scanned)))) !! 1%Z
  = None.
Proof.
  destruct (mark_round_trip cx0 cx0 5 6 1 d_scanned scanned_record
              store_ok_w_scanned scanned_record_found eq_refl)
    as (_ & _ & Hp & _ & Hrec & Hnone & _).
  split; [exact Hrec|]. split; [exact Hp|exact Hnone].
Defined.

(** The sample identifier stays a duplicate when its record is marked. *)
Lemma marking_keeps_duplicates_witness :
  rec_id <$> check_duplicate cx0 sample_uuid (store (snd (mark_processed cx0 5 1 d_scanned)))
  = rec_id <$> check_duplicate cx0 sample_uuid (store d_scanned) /\
  rec_id <$> check_duplicate cx0 sample_uuid (store (snd (mark_unprocessed cx0 5 1 d_scanned)))
  = rec_id <$> check_duplicate cx0 sample_uuid (store d_scanned).
Proof.
  exact (marking_keeps_duplicates cx0 cx0 5 1 d_scanned sample_uuid store_ok_w_scanned).
Defined.

(** Marking the record of the first scan moves the one unprocessed scan to
    the processed ones. *)
Lemma mark_processed_stats_witness :
  processed_scans (get_stats add_francs cx0 (store (snd (mark_processed cx0 5 1 d_scanned))))
  = (processed_scans (get_stats add_francs cx0 w_scanned) + 1)%Z /\
  unprocessed_scans (get_stats add_francs cx0 (store (snd (mark_processed cx0 5 1 d_scanned))))
  = (unprocessed_scans (get_stats add_francs cx0 w_scanned) - 1)%Z /\
  total_scans (get_stats add_francs cx0 (store (snd (mark_processed cx0 5 1 d_scanned))))
  = total_scans (get_stats add_francs cx0 w_scanned).
Proof.
  destruct (mark_processed_stats add_francs cx0 cx0 5 1 d_scanned
              (snd (mark_processed cx0 5 1 d_scanned))
              (py "Scan marqué comme traité") (set_state Processed scanned_record)
              (Some (Processing 5 (now cx0))) store_ok_w_scanned eq_refl)
    as (Hp & Hu & _ & _ & _ & _ & Ht & _).
  split; [exact Hp|]. split; [exact Hu|exact Ht].
Defined.

Lemma store_ok_w_invoice_failed : store_ok w_invoice_failed.
Proof.
  split.
  - apply NoDup_cons. split; [apply not_elem_of_nil|apply NoDup_nil_2].
  - repeat constructor.
Defined.

(** The retry on the record whose invoice creation failed, with an
    accounting that now succeeds. *)
Lemma retry_error_outcome_witness :
  exists r inv w',
    retry_error good_accounting 1 w_invoice_failed = (Ok (ApiSuccess r inv), w') /\
    state r = Done /\ invoice_id r = Some inv /\
    error_scans (get_stats add_francs cx0 w')
    = (error_scans (get_stats add_francs cx0 w_invoice_failed) - 1)%Z /\
    total_scans (get_stats add_francs cx0 w')
    = total_scans (get_stats add_francs cx0 w_invoice_failed).
Proof.
  destruct (retry_error_outcome add_francs cx0 good_accounting 1 w_invoice_failed
              store_ok_w_invoice_failed) as (reply & w' & Hrun & H).
  destruct reply as [code msg status|r inv].
  - exfalso. apply (f_equal (fun x => match fst x with
                                      | Ok (ApiSuccess _ _) => true
                                      | _ => false
                                      end)) in Hrun.
    vm_compute in Hrun. discriminate.
  - cbv zeta in H. destruct H as (Hs & Hi & _ & He & _ & _ & _ & _ & Ht).
    assert (Hk : in_company cx0 r = true).
    { apply (f_equal (fun x => match fst x with
                               | Ok (ApiSuccess r _) => in_company cx0 r
                               | _ => false
                               end)) in Hrun.
      vm_compute in Hrun. symmetry. exact Hrun. }
    rewrite Hk in He. exists r, inv, w'. repeat split; assumption.
Defined.

Lemma sample_url_is_dgi : contains dgi_host (strip sample_url) = true.
Proof. vm_compute. reflexivity. Defined.

Lemma check_finds_scanned : check_qr_code cx0 sample_url w_scanned = CheckExists scanned_record.
Proof. vm_compute. reflexivity. Defined.

(** After the first scan the check shows the record, and the scan endpoint
    answers [DUPLICATE] with count 1 and fetches nothing. *)
Lemma check_agrees_with_scan_witness :
  exists snap w',
    scan_qr_code ascii_runtime sample_net no_browser good_accounting cx0 5 sample_url
      w_scanned
    = (Ok (ScanError "DUPLICATE" (Some (VStr (py "Cette facture a déjà été scannée")))
                     400 (Some (snap, 1%Z))), w') /\
    ex_id snap = 1%Z /\ events w' = events w_scanned.
Proof.
  destruct (check_agrees_with_scan ascii_runtime sample_net no_browser good_accounting
              cx0 5 sample_url w_scanned store_ok_w_scanned sample_url_is_dgi)
    as [_ Hfwd].
  destruct (Hfwd scanned_record check_finds_scanned) as (snap & w' & Hrun & Hid & _ & Hev).
  exists snap, w'. split; [exact Hrun|]. split; [exact Hid|exact Hev].
Defined.

(** Reporting and rescanning the sample URL after the first scan. *)
Lemma report_matches_rescan_witness :
  exists w1 w2,
    report_duplicate cx0 5 sample_url w_scanned
    = (Ok (Reported 1 (set_duplicate 1 (now cx0) 5 scanned_record) (py "Scanner")), w1) /\
    process_qr_scan ascii_runtime sample_net no_browser good_accounting cx0
      (strip sample_url) (Some 5%Z) w_scanned
    = (Ok (Duplicate 1 (snapshot cx0 (set_duplicate 1 (now cx0) 5 scanned_record))), w2) /\
    records w1 = records w2.
Proof.
  pose proof (report_matches_rescan ascii_runtime sample_net no_browser good_accounting
                cx0 5 sample_url w_scanned store_ok_w_scanned ltac:(discriminate)) as H.
  rewrite check_finds_scanned in H. cbv zeta in H.
  destruct H as (w1 & w2 & H1 & H2 & _ & H3 & _).
  exists w1, w2. split; [exact H1|]. split; [exact H2|exact H3].
Defined.

(** The action on the recordset of the one scanned record. *)
Lemma action_mark_processed_spec_witness :
  exists d',
    action_mark_processed cx0 [1%Z] d_scanned = (Ok true, d') /\
    records (store d') = [set_state Processed scanned_record] /\
    processed d' !! 1%Z = Some (Processing (env_user cx0) (now cx0)).
Proof.
  pose proof (action_mark_processed_spec cx0 [1%Z] d_scanned store_ok_w_scanned) as H.
  assert (He : existsb (selected_in Done [1%Z]) (records (store d_scanned)) = true)
    by (vm_compute; reflexivity).
  rewrite He in H. destruct H as (d' & Hrun & Hrec & Hp).
  - constructor; [exists scanned_record; reflexivity|constructor].
  - exists d'. split; [exact Hrun|]. split; [exact Hrec|].
    apply (Hp scanned_record). left. reflexivity.
Defined.

(** A rescan and then a marking, after the first scan. *)
Lemma scanned_stays_duplicate_witness :
  let w1 := snd (process_qr_scan ascii_runtime sample_net no_browser good_accounting cx0
                   sample_url (Some 5%Z) w_scanned) in
  let w2 := store (snd (mark_processed cx0 5 1 (Desk w1 ∅))) in
  is_Some (check_duplicate cx0 sample_uuid w2) /\ store_ok w2.
Proof.
  cbv zeta. apply (scanned_stays_duplicate cx0 sample_uuid w_scanned).
  - exact store_ok_w_scanned.
  - eapply steps_more; [eapply steps_more; [apply steps_none|apply step_scan]|].
    apply (step_mark cx0 5 1 (Desk _ ∅)).
  - exists scanned_record. vm_compute. reflexivity.
Defined.

(** ** Retrying in bulk *)

Lemma find_record_map_other rid rid' f l :
  (forall r, rec_id (f r) = rec_id r) -> rid' <> rid ->
  find_record rid' (List.map (fun r => if (rec_id r =? rid)%Z then f r else r) l)
  = find_record rid' l.
Proof.
  intros Hf Hne. unfold find_record.
  induction l as [|x l IH]; [reflexivity|]. cbn [List.map List.find].
  destruct (Z.eqb_spec (rec_id x) rid) as [E|E].
  - rewrite Hf. destruct (Z.eqb_spec (rec_id x) rid'); [congruence|exact IH].
  - rewrite IH. reflexivity.
Qed.

Lemma lookup_record_write_other rid rid' f w :
  (forall r, rec_id (f r) = rec_id r) -> rid' <> rid ->
  lookup_record rid' (snd (write rid f w)) = lookup_record rid' w.
Proof. intros Hf Hne. apply find_record_map_other; assumption. Qed.

(** Invoice creation on one record leaves the others as they are. *)
Lemma _create_invoice_other acc rid rid' w :
  rid' <> rid ->
  lookup_record rid' (snd (_create_invoice acc rid w)) = lookup_record rid' w.
Proof.
  intros Hne.
  destruct (lookup_record rid w) as [self|] eqn:Hl;
    [|rewrite _create_invoice_missing by exact Hl; reflexivity].
  destruct (invoice_id self) as [i|] eqn:Hi;
    [rewrite (_create_invoice_rejects _ _ _ _ _ Hl Hi); reflexivity|].
  rewrite (_create_invoice_run _ _ _ _ Hl Hi). cbv zeta.
  destruct (get_or_create_supplier acc self) as [partner|e]; [|reflexivity].
  destruct (post_invoice acc (set_partner partner self) partner); cbn [snd];
    rewrite ?lookup_record_write_other by (reflexivity || exact Hne); reflexivity.
Qed.

(** One turn of the loop: it returns an entry for the record, whatever
    invoice creation does, after one call to invoice creation. *)
Lemma retry_one_spec acc record w self :
  store_ok w -> lookup_record (rec_id record) w = Some self -> invoice_id self = None ->
  exists item w',
    retry_one acc record w = (Ok item, w') /\
    item_record item = rec_id record /\
    events w' = EInvoice (rec_id record) :: events w /\
    store_ok w' /\
    (forall rid', rid' <> rec_id record -> lookup_record rid' w' = lookup_record rid' w).
Proof.
  intros Hok Hl Hi. unfold retry_one, try_M. cbv [mbind mret M_bind M_ret].
  pose proof (_create_invoice_events acc (rec_id record) w) as Hev. rewrite Hl, Hi in Hev.
  pose proof (_create_invoice_store_ok acc (rec_id record) w Hok) as Hok1.
  pose proof (fun rid' => _create_invoice_other acc (rec_id record) rid' w) as Hother.
  destruct (_create_invoice acc (rec_id record) w) as [[inv|e] w1]; cbn [snd] in *.
  - do 2 eexists. split; [reflexivity|]. split; [reflexivity|]. split; [exact Hev|].
    split; [exact Hok1|exact Hother].
  - set (f := set_error_message _).
    change (write (rec_id record) f w1) with (Ok tt, snd (write (rec_id record) f w1)).
    cbv iota beta.
    do 2 eexists. split; [reflexivity|]. split; [reflexivity|]. split; [exact Hev|].
    split; [exact (write_store_ok _ f w1 (set_error_message_id _) Hok1)|].
    intros rid' Hne. rewrite lookup_record_write_other by (reflexivity || exact Hne).
    apply Hother, Hne.
Qed.

Lemma retry_each_spec acc records : forall w,
  store_ok w -> NoDup (List.map rec_id records) ->
  (forall r, In r records ->
     exists self, lookup_record (rec_id r) w = Some self /\ invoice_id self = None) ->
  exists items w',
    retry_each acc records w = (Ok items, w') /\
    List.map item_record items = List.map rec_id records /\
    events w' = rev (List.map (fun r => EInvoice (rec_id r)) records) ++ events w /\
    store_ok w'.
Proof.
  induction records as [|r rest IH]; intros w Hok Hnd Hall.
  - exists [], w. split; [reflexivity|]. split; [reflexivity|]. split; [reflexivity|exact Hok].
  - cbn [List.map] in Hnd. apply NoDup_cons in Hnd as [Hr Hnd].
    destruct (Hall r ltac:(left; reflexivity)) as (self & Hl & Hi).
    destruct (retry_one_spec acc r w self Hok Hl Hi)
      as (item & w1 & Hrun & Hid & Hev & Hok1 & Hother).
    destruct (IH w1 Hok1 Hnd) as (items & w2 & Hrun2 & Hids & Hev2 & Hok2).
    { intros x Hx. destruct (Hall x ltac:(right; exact Hx)) as (sx & Hlx & Hix).
      exists sx. split; [|exact Hix]. rewrite Hother; [exact Hlx|].
      intros E. apply Hr. rewrite <- E. apply list_elem_of_In, in_map, Hx. }
    exists (item :: items), w2. cbn [retry_each]. cbv [mbind mret M_bind M_ret].
    rewrite Hrun, Hrun2. split; [reflexivity|]. cbn [List.map rev].
    split; [rewrite Hid, Hids; reflexivity|]. split; [|exact Hok2].
    rewrite Hev2, Hev, <- app_assoc. reflexivity.
Qed.

Lemma NoDup_ids_filter (p : scan_record -> bool) l :
  NoDup (List.map rec_id l) -> NoDup (List.map rec_id (List.filter p l)).
Proof.
  induction l as [|x l IH]; intros Hnd; [exact Hnd|].
  cbn [List.map List.filter] in *. apply NoDup_cons in Hnd as [Hx Hnd].
  destruct (p x); [|auto]. cbn [List.map]. apply NoDup_cons. split; [|auto].
  intros Hin. apply Hx. apply list_elem_of_In in Hin. apply list_elem_of_In.
  apply in_map_iff in Hin as (y & Hy & Hyin). apply in_map_iff. exists y.
  split; [exact Hy|]. apply filter_In in Hyin. tauto.
Qed.

Lemma NoDup_ids_take n (l : list scan_record) :
  NoDup (List.map rec_id l) -> NoDup (List.map rec_id (take n l)).
Proof.
  intros Hnd. eapply sublist_NoDup; [exact Hnd|].
  apply (fmap_sublist rec_id), sublist_take.
Qed.

Lemma filter_item_count (results : list bulk_item) :
  (length (List.filter item_success results) <= length results)%nat.
Proof.
  induction results as [|x l IH]; [constructor|]. simpl.
  destruct (item_success x); simpl; lia.
Qed.

(** X17. [bulk_retry_errors] always replies, for at most 50 records, all of
    them error records of the company without invoice; it calls invoice
    creation once for each, in the order of the selection, a failure on one
    record not keeping it from the next; it fetches nothing, and the summary
    adds up. *)
Theorem bulk_retry_visits_all (by_scan_date : list scan_record -> list scan_record)
    (acc : accounting) (cx : context) (record_ids : list Z) (max_records_arg : Z)
    (w : world) :
  store_ok w -> (forall l, by_scan_date l ≡ₚ l) ->
  let selected :=
    take (Z.to_nat (Z.min 50 (Z.max 1 max_records_arg)))
         (by_scan_date (search (bulk_retry_domain cx record_ids) w)) in
  exists results summary w',
    bulk_retry_errors by_scan_date acc cx record_ids max_records_arg w
    = (Ok (results, summary), w') /\
    List.map item_record results = List.map rec_id selected /\
    (length results <= 50)%nat /\
    Forall (fun r => In r (records w) /\ state r = Error /\ invoice_id r = None
                     /\ company_id r = env_company cx) selected /\
    events w' = rev (List.map (fun r => EInvoice (rec_id r)) selected) ++ events w /\
    total_processed summary = Z.of_nat (length results) /\
    (successful summary + failed summary = total_processed summary)%Z /\
    (0 <= successful summary)%Z /\ (0 <= failed summary)%Z.
Proof.
  intros Hok Hperm. cbv zeta. unfold bulk_retry_errors.
  set (selected := take _ _).
  assert (Hsel : forall r, In r selected ->
            In r (records w) /\ bulk_retry_domain cx record_ids r = true).
  { intros r Hr. apply list_elem_of_In in Hr. apply elem_of_take in Hr as (i & Hr & _).
    apply list_elem_of_lookup_2 in Hr. rewrite (Hperm _) in Hr.
    apply list_elem_of_In, filter_In in Hr. exact Hr. }
  assert (Hfacts : forall r, In r selected ->
            In r (records w) /\ state r = Error /\ invoice_id r = None
            /\ company_id r = env_company cx).
  { intros r Hr. destruct (Hsel r Hr) as [Hin Hd]. split; [exact Hin|].
    unfold bulk_retry_domain, in_company, state_is in Hd.
    apply andb_true_iff in Hd as [Hd _]. apply andb_true_iff in Hd as [Hd Hi].
    apply andb_true_iff in Hd as [Hc Hs].
    apply bool_decide_eq_true in Hs. apply Z.eqb_eq in Hc.
    apply negb_true_iff, bool_decide_eq_false in Hi.
    split; [exact Hs|]. split; [|exact Hc].
    destruct (invoice_id r); [exfalso; apply Hi; eauto|reflexivity]. }
  assert (Hnd : NoDup (List.map rec_id selected)).
  { apply NoDup_ids_take. rewrite (Hperm _). apply NoDup_ids_filter, Hok. }
  destruct (retry_each_spec acc selected w Hok Hnd)
    as (results & w' & Hrun & Hids & Hev & _).
  { intros r Hr. destruct (Hfacts r Hr) as (Hin & _ & Hi & _).
    exists r. split; [apply lookup_record_of_in; assumption|exact Hi]. }
  cbv [mbind mret M_bind M_ret]. rewrite Hrun.
  do 3 eexists. split; [reflexivity|]. split; [exact Hids|].
  assert (Hlen : length results = length selected).
  { rewrite <- (length_map item_record results), Hids, length_map. reflexivity. }
  split.
  { rewrite Hlen. unfold selected. rewrite length_take. lia. }
  split; [apply Forall_forall; intros r Hr; apply Hfacts, list_elem_of_In, Hr|].
  split; [exact Hev|]. cbn [total_processed successful failed].
  pose proof (filter_item_count results). repeat split; lia.
Qed.

(** ** Synchronising a batch *)

(** A scan that creates the invoice leaves a duplicate for its identifier. *)
Lemma scan_created_is_duplicate rt net pw acc cx url user_id w rid ref inv w1 :
  store_ok w ->
  process_qr_scan rt net pw acc cx url user_id w = (Ok (Created rid ref inv), w1) ->
  exists uuid, extract_uuid_from_url url = Some uuid /\
               is_Some (check_duplicate cx uuid w1).
Proof.
  intros Hok Hrun.
  destruct (extract_uuid_from_url url) as [[|c u]|] eqn:Hurl;
    try (unfold process_qr_scan in Hrun; rewrite Hurl in Hrun; discriminate).
  exists (c :: u). split; [reflexivity|].
  destruct (check_duplicate cx (c :: u) w) as [existing|] eqn:Hex.
  { destruct (process_qr_scan_duplicate_run rt net pw acc cx url user_id c u existing w
                Hok Hurl Hex) as (w' & Hrun' & _).
    rewrite Hrun' in Hrun. discriminate. }
  unfold process_qr_scan in Hrun. rewrite Hurl, Hex in Hrun.
  cbv [mbind mret M_bind M_ret lift log] in Hrun.
  set (w0 := World (records w) (next_id w) (sequence w) (chatter w)
                   (EFetch url :: events w)) in *.
  assert (H0 : store_ok w0) by (revert Hok; apply store_ok_same; reflexivity).
  destruct (fetch_invoice_data_from_dgi rt net pw url) as [d|e]; [|discriminate].
  destruct (negb (truthy (d !! "success"))).
  { destruct (create cx _ w0) as [[r|e] w2]; discriminate. }
  destruct (create cx (record_vals cx (c :: u) url user_id d) w0) as [[r|e] w2] eqn:Hcr;
    [|discriminate].
  pose proof (create_ok _ _ _ _ _ Hcr) as (_ & _ & _ & _ & Hu & _).
  apply create_head in Hcr as (Hr & Hid & _ & _ & Hco & Hinv).
  destruct (create_invoice_or_error_head acc w2 r (records w0) Hr)
    as (r' & res' & w3 & Hrun' & Hr' & Hco' & _ & Hu' & Hcase).
  - rewrite Hid. apply (fresh_id w0 H0).
  - exact Hinv.
  - rewrite Hrun' in Hrun.
    assert (Hw : w3 = w1) by congruence. assert (Hres : res' = Created rid ref inv) by congruence.
    subst w3 res'.
    destruct Hcase as [[Hs _]|[_ (msg & i & Hne)]]; [|discriminate].
    apply (check_duplicate_finds cx (c :: u) w1 r').
    + rewrite Hr'. left. reflexivity.
    + rewrite Hu', Hu. reflexivity.
    + rewrite Hs. reflexivity.
    + rewrite Hco', Hco. reflexivity.
Qed.

(** A scan of an identifier that has a duplicate answers [DUPLICATE]. *)
Lemma scan_known_is_duplicate rt net pw acc cx url user_id w uuid res w1 :
  store_ok w -> extract_uuid_from_url url = Some uuid ->
  is_Some (check_duplicate cx uuid w) ->
  process_qr_scan rt net pw acc cx url user_id w = (Ok res, w1) ->
  exists count snap, res = Duplicate count snap.
Proof.
  intros Hok Hurl [existing Hex] Hrun.
  destruct (extract_uuid_nonempty _ _ Hurl) as (c & u & ->).
  destruct (process_qr_scan_duplicate_run rt net pw acc cx url user_id c u existing w
              Hok Hurl Hex) as (w' & Hrun' & _).
  rewrite Hrun' in Hrun. injection Hrun as <- _. eauto.
Qed.

Lemma sync_each_spec rt net pw acc cx user scans : forall w results w',
  store_ok w ->
  sync_each rt net pw acc cx user scans w = (Ok results, w') ->
  store_ok w' /\ grows w w' /\ length results = length scans /\
  (forall j url at_ res uuid,
     results !! j = Some (SyncResult url at_ res) ->
     extract_uuid_from_url url = Some uuid -> is_Some (check_duplicate cx uuid w) ->
     exists count snap, res = Duplicate count snap) /\
  (forall i j url at_ rid ref inv url' at' res,
     (i < j)%nat ->
     results !! i = Some (SyncResult url at_ (Created rid ref inv)) ->
     results !! j = Some (SyncResult url' at' res) ->
     extract_uuid_from_url url' = extract_uuid_from_url url ->
     exists count snap, res = Duplicate count snap).
Proof.
  induction scans as [|[qr_url_arg scanned_at] rest IH]; intros w results w' Hok Hrun.
  - injection Hrun as <- <-. split; [exact Hok|]. split; [apply grows_refl|].
    split; [reflexivity|]. split; intros; discriminate.
  - cbn [sync_each] in Hrun. destruct (strip qr_url_arg) as [|a url0] eqn:Hstrip.
    + cbv [mbind mret M_bind M_ret] in Hrun.
      destruct (sync_each rt net pw acc cx user rest w) as [[items|e] w1] eqn:Hrest;
        [|discriminate].
      injection Hrun as <- <-.
      destruct (IH w items w1 Hok Hrest) as (Hok1 & Hg & Hlen & HA & HB).
      split; [exact Hok1|]. split; [exact Hg|]. split; [simpl; lia|]. split.
      * intros [|j] url at_ res uuid Hj; [discriminate|]. apply (HA j url at_ res uuid Hj).
      * intros [|i] [|j] url at_ rid ref inv url' at' res Hlt Hi Hj; try lia;
          try discriminate.
        apply (HB i j url at_ rid ref inv url' at' res); [lia|exact Hi|exact Hj].
    + cbv [mbind mret M_bind M_ret] in Hrun.
      pose proof (process_qr_scan_store_ok rt net pw acc cx (a :: url0) (Some user) w Hok)
        as Hok1.
      pose proof (process_qr_scan_grows rt net pw acc cx (a :: url0) (Some user) w Hok)
        as Hg1.
      destruct (process_qr_scan rt net pw acc cx (a :: url0) (Some user) w)
        as [[result|e] w1] eqn:Hscan; [|discriminate].
      cbn [snd] in Hok1, Hg1.
      destruct (sync_each rt net pw acc cx user rest w1) as [[items|e] w2] eqn:Hrest;
        [|discriminate].
      injection Hrun as <- <-.
      destruct (IH w1 items w2 Hok1 Hrest) as (Hok2 & Hg2 & Hlen & HA & HB).
      split; [exact Hok2|]. split; [exact (grows_trans _ _ _ Hg1 Hg2)|].
      split; [simpl; lia|]. split.
      * intros [|j] url at_ res uuid Hj Hurl Hdup.
        -- injection Hj as <- _ <-.
           exact (scan_known_is_duplicate _ _ _ _ _ _ _ _ _ _ _ Hok Hurl Hdup Hscan).
        -- apply (HA j url at_ res uuid Hj Hurl).
           exact (grows_duplicate cx uuid w w1 Hg1 Hdup).
      * intros [|i] [|j] url at_ rid ref inv url' at' res Hlt Hi Hj Hsame; try lia.
        -- injection Hi as <- _ ->.
           destruct (scan_created_is_duplicate _ _ _ _ _ _ _ _ _ _ _ _ Hok Hscan)
             as (uuid & Hurl & Hdup).
           apply (HA j url' at' res uuid Hj); [congruence|exact Hdup].
        -- apply (HB i j url at_ rid ref inv url' at' res); [lia|exact Hi|exact Hj|exact Hsame].
Qed.

Lemma sync_counts (results : list sync_item) :
  (length (List.filter sync_success results)
   + length (List.filter sync_duplicate results) <= length results)%nat.
Proof.
  induction results as [|x l IH]; [constructor|]. cbn [List.filter length].
  destruct x as [u|u a r]; cbn [sync_success sync_duplicate]; [lia|].
  destruct r; cbn [success error_code];
    try rewrite bool_decide_eq_false_2 by discriminate;
    try rewrite bool_decide_eq_true_2 by reflexivity; cbn [length]; lia.
Qed.

(** The entries of the loop, one per scan and in order: the refusal for an
    empty URL, and otherwise the stripped URL, the time given with the scan
    and the result of [process_qr_scan] in the store left by the scans before
    it. *)
Lemma sync_each_entries rt net pw acc cx user scans : forall w results w',
  sync_each rt net pw acc cx user scans w = (Ok results, w') ->
  forall i url_arg at_, scans !! i = Some (url_arg, at_) ->
    match strip url_arg with
    | [] => results !! i = Some (SyncMissing [])
    | url =>
        exists res,
          results !! i = Some (SyncResult url at_ res) /\
          fst (process_qr_scan rt net pw acc cx url (Some user)
                 (snd (sync_each rt net pw acc cx user (take i scans) w))) = Ok res
    end.
Proof.
  induction scans as [|[qr_url_arg scanned_at] rest IH]; intros w results w' Hrun i url_arg at_ Hi;
    [discriminate|].
  cbn [sync_each] in Hrun.
  destruct i as [|i].
  - injection Hi as -> ->. cbn [take sync_each].
    destruct (strip url_arg) as [|a url0] eqn:Hstrip.
    + cbv [mbind mret M_bind M_ret] in Hrun.
      destruct (sync_each rt net pw acc cx user rest w) as [[items|e] w1]; [|discriminate].
      injection Hrun as <- _. reflexivity.
    + cbv [mbind mret M_bind M_ret] in Hrun. cbv [mret M_ret]. cbn [snd].
      destruct (process_qr_scan rt net pw acc cx (a :: url0) (Some user) w)
        as [[result|e] w1]; [|discriminate].
      destruct (sync_each rt net pw acc cx user rest w1) as [[items|e] w2]; [|discriminate].
      injection Hrun as <- _. exists result. split; reflexivity.
  - cbn [lookup list_lookup] in Hi.
    change (take (S i) ((qr_url_arg, scanned_at) :: rest))
      with ((qr_url_arg, scanned_at) :: take i rest).
    cbn [sync_each].
    destruct (strip qr_url_arg) as [|a url0] eqn:Hstrip.
    + cbv [mbind mret M_bind M_ret] in Hrun |- *.
      destruct (sync_each rt net pw acc cx user rest w) as [[items|e] w1] eqn:Hrest;
        [|discriminate].
      injection Hrun as <- _.
      pose proof (IH w items w1 Hrest i url_arg at_ Hi) as Hspec.
      assert (Hsnd : snd (let (r, w2) := sync_each rt net pw acc cx user (take i rest) w in
                          match r with
                          | Ok a => (Ok (SyncMissing [] :: a), w2)
                          | Raise e => (Raise e, w2)
                          end)
                     = snd (sync_each rt net pw acc cx user (take i rest) w)).
      { destruct (sync_each rt net pw acc cx user (take i rest) w) as [[x|e] w2]; reflexivity. }
      rewrite Hsnd. exact Hspec.
    + cbv [mbind mret M_bind M_ret] in Hrun |- *.
      destruct (process_qr_scan rt net pw acc cx (a :: url0) (Some user) w)
        as [[result|e] w1]; [|discriminate].
      destruct (sync_each rt net pw acc cx user rest w1) as [[items|e] w2] eqn:Hrest;
        [|discriminate].
      injection Hrun as <- _.
      pose proof (IH w1 items w2 Hrest i url_arg at_ Hi) as Hspec.
      assert (Hsnd : snd (let (r, w3) := sync_each rt net pw acc cx user (take i rest) w1 in
                          match r with
                          | Ok a0 => (Ok (SyncResult (a :: url0) scanned_at result :: a0), w3)
                          | Raise e => (Raise e, w3)
                          end)
                     = snd (sync_each rt net pw acc cx user (take i rest) w1)).
      { destruct (sync_each rt net pw acc cx user (take i rest) w1) as [[x|e] w3]; reflexivity. }
      rewrite Hsnd. exact Hspec.
Qed.

(** X18. A synchronisation that replies with results has one entry per scan,
    in order: the entry of a scan whose URL is empty is the refusal, the
    entry of any other scan carries its stripped URL, the time given with it
    and the result of [process_qr_scan] on that URL in the store left by the
    scans before it. The summary adds up. No batch invoices an identifier
    twice: once a scan of the batch has created the invoice, every later scan
    of the batch with the same identifier is answered [DUPLICATE]. *)
Theorem sync_no_double_invoice (rt : runtime) (net : transport) (pw : playwright)
    (acc : accounting) (cx : context) (user : Z) (scans : list (pystr * json))
    (w w' : world) (results : list sync_item) (summary : sync_summary) :
  store_ok w ->
  sync_offline_scans rt net pw acc cx user scans w = (Ok (Synced results summary), w') ->
  length results = length scans /\
  (forall i url_arg at_, scans !! i = Some (url_arg, at_) ->
     match strip url_arg with
     | [] => results !! i = Some (SyncMissing [])
     | url =>
         exists res,
           results !! i = Some (SyncResult url at_ res) /\
           fst (process_qr_scan rt net pw acc cx url (Some user)
                  (snd (sync_each rt net pw acc cx user (take i scans) w))) = Ok res
     end) /\
  (length scans <= 50)%nat /\
  sync_total summary = Z.of_nat (length scans) /\
  (sync_successful summary + sync_duplicates summary + sync_errors summary
   = sync_total summary)%Z /\
  (0 <= sync_successful summary)%Z /\ (0 <= sync_duplicates summary)%Z /\
  (0 <= sync_errors summary)%Z /\
  (forall i j url at_ rid ref inv url' at' res,
     (i < j)%nat ->
     results !! i = Some (SyncResult url at_ (Created rid ref inv)) ->
     results !! j = Some (SyncResult url' at' res) ->
     extract_uuid_from_url url' = extract_uuid_from_url url ->
     exists count snap, res = Duplicate count snap) /\
  store_ok w'.
Proof.
  intros Hok Hrun. unfold sync_offline_scans in Hrun.
  destruct scans as [|s0 rest]; [discriminate|].
  destruct (Nat.ltb_spec 50 (length (s0 :: rest))) as [Hlen|Hlen]; [discriminate|].
  cbv [mbind mret M_bind M_ret] in Hrun.
  destruct (sync_each rt net pw acc cx user (s0 :: rest) w) as [[items|e] w1] eqn:Hloop;
    [|discriminate].
  destruct (sync_each_spec rt net pw acc cx user (s0 :: rest) w items w1 Hok Hloop)
    as (Hok1 & _ & Hl & _ & HB).
  assert (Hres : results = items) by congruence.
  assert (Hw : w' = w1) by congruence.
  assert (Hsum : summary
                 = {| sync_total := Z.of_nat (length items);
                      sync_successful := Z.of_nat (length (List.filter sync_success items));
                      sync_duplicates := Z.of_nat (length (List.filter sync_duplicate items));
                      sync_errors := (Z.of_nat (length items)
                                      - Z.of_nat (length (List.filter sync_success items))
                                      - Z.of_nat (length (List.filter sync_duplicate items)))%Z
                   |}) by congruence.
  subst results w' summary. cbn [sync_total sync_successful sync_duplicates sync_errors].
  pose proof (sync_counts items) as Hc.
  split; [exact Hl|].
  split; [exact (sync_each_entries rt net pw acc cx user (s0 :: rest) w items w1 Hloop)|].
  split; [exact Hlen|]. split; [rewrite Hl; reflexivity|].
  split; [lia|]. split; [lia|]. split; [lia|]. split; [lia|]. split; [exact HB|exact Hok1].
Qed.

Lemma oldest_first_permutes l : oldest_first l ≡ₚ l.
Proof. symmetry. apply Permutation_rev. Defined.

(** The bulk retry on the store whose one record is in error. *)
Lemma bulk_retry_visits_all_witness :
  exists results summary w',
    bulk_retry_errors oldest_first good_accounting cx0 [] 10 w_invoice_failed
    = (Ok (results, summary), w') /\
    List.map item_record results = [1%Z] /\
    events w' = EInvoice 1 :: events w_invoice_failed /\
    (successful summary + failed summary = total_processed summary)%Z.
Proof.
  destruct (bulk_retry_visits_all oldest_first good_accounting cx0 [] 10 w_invoice_failed
              store_ok_w_invoice_failed oldest_first_permutes)
    as (results & summary & w' & Hrun & Hids & _ & _ & Hev & _ & Hsum & _).
  exists results, summary, w'. split; [exact Hrun|]. split; [exact Hids|].
  split; [exact Hev|exact Hsum].
Defined.

(** The batch that holds the sample URL twice, on an empty store. *)
Lemma sync_no_double_invoice_witness :
  exists results summary w',
    sync_offline_scans ascii_runtime sample_net no_browser good_accounting cx0 5
      sample_batch w_empty
    = (Ok (Synced results summary), w') /\
    length results = 2%nat /\ sync_total summary = 2%Z /\
    (sync_successful summary + sync_duplicates summary + sync_errors summary = 2)%Z /\
    store_ok w'.
Proof.
  destruct (sync_offline_scans ascii_runtime sample_net no_browser good_accounting cx0 5
              sample_batch w_empty) as [[[code msg status|results summary]|e] w'] eqn:Hrun.
  - exfalso.
    apply (f_equal (fun x => match fst x with Ok (Synced _ _) => true | _ => false end))
      in Hrun.
    vm_compute in Hrun. discriminate.
  - destruct (sync_no_double_invoice ascii_runtime sample_net no_browser good_accounting
                cx0 5 sample_batch w_empty w' results summary store_ok_w_empty Hrun)
      as (Hl & _ & _ & Ht & Hsum & _ & _ & _ & _ & Hok).
    exists results, summary, w'. split; [reflexivity|]. split; [exact Hl|].
    split; [exact Ht|]. split; [rewrite Hsum, Ht; reflexivity|exact Hok].
  - exfalso. apply (f_equal (fun x => is_ok (fst x))) in Hrun.
    vm_compute in Hrun. discriminate.
Defined.

(** The scan of the sample URL on an empty store is the same on the sample
    transport and on the transport that refuses every request but the three
    of that URL. *)
Lemma scan_requests_only_dgi_witness :
  scan_qr_code ascii_runtime sample_net no_browser good_accounting cx0 5 sample_url w_empty
  = scan_qr_code ascii_runtime dgi_only_net no_browser good_accounting cx0 5 sample_url
      w_empty /\
  requests_get dgi_only_net 0 (py "https://example.org/") <>
  requests_get sample_net 0 (py "https://example.org/").
Proof.
  split.
  - apply (scan_requests_only_dgi ascii_runtime sample_net dgi_only_net no_browser
             good_accounting cx0 5 sample_url w_empty).
    + intros h. reflexivity.
    + intros uuid n u _ Hu _ Hin.
      assert (Hid : Some uuid = Some sample_uuid)
        by (rewrite <- Hu; vm_compute; reflexivity).
      injection Hid as ->.
      assert (Hstrip : strip sample_url = sample_url) by (vm_compute; reflexivity).
      rewrite Hstrip in Hin.
      unfold dgi_only_net. cbn [requests_get].
      assert (Hex : existsb (pystr_eqb u) (api_urls sample_uuid ++ [sample_url]) = true).
      { apply existsb_exists. exists u. split; [exact Hin|].
        unfold pystr_eqb. apply bool_decide_eq_true_2. reflexivity. }
      rewrite Hex. reflexivity.
  - vm_compute. discriminate.
Defined.

(** ** Dashboard *)

Lemma search_ext (p q : scan_record -> bool) w :
  (forall r, p r = q r) -> search p w = search q w.
Proof. intros H. unfold search. apply filter_ext. exact H. Qed.

Lemma dash_figures_all_time add cx w :
  let a := dash_figures_of add cx (fun _ => true) w in
  let s := get_stats add cx w in
  ds_total_scans a = total_scans s /\
  ds_successful_scans a = successful_scans s /\
  ds_processed_scans a = processed_scans s /\
  ds_duplicate_attempts a = duplicate_attempts s /\
  ds_records_with_duplicates a = records_with_duplicates s /\
  ds_error_scans a = error_scans s /\
  ds_total_amount a = total_amount s.
Proof.
  cbv zeta. unfold dash_figures_of, get_stats, search_count.
  cbn [ds_total_scans ds_successful_scans ds_processed_scans ds_duplicate_attempts
       ds_records_with_duplicates ds_error_scans ds_total_amount total_scans
       successful_scans processed_scans duplicate_attempts records_with_duplicates
       error_scans total_amount].
  rewrite (search_ext (fun r => in_company cx r && true && is_successful (state r))
             (fun r => in_company cx r && is_successful (state r)))
    by (intros r; rewrite andb_true_r; reflexivity).
  rewrite (search_ext (fun r => in_company cx r && true && state_is Processed r)
             (fun r => in_company cx r && state_is Processed r))
    by (intros r; rewrite andb_true_r; reflexivity).
  rewrite (search_ext (fun r => in_company cx r && true && state_is Error r)
             (fun r => in_company cx r && state_is Error r))
    by (intros r; rewrite andb_true_r; reflexivity).
  rewrite (search_ext (fun r => in_company cx r && true && (0 <? duplicate_count r)%Z)
             (fun r => in_company cx r && (0 <? duplicate_count r)%Z))
    by (intros r; rewrite andb_true_r; reflexivity).
  repeat split.
Qed.

(** X19. The all-time figures of the dashboard are the figures the mobile
    application shows for the same company and records: total, successful
    and processed scans, duplicate attempts, records with duplicates, error
    scans and total amount, whatever the period asked for. *)
Theorem dashboard_matches_mobile_stats (add : value -> value -> value)
    (cal : calendar) (cx : context) (period_arg : pystr) (w : world) :
  let a := dash_all_time_stats (get_dashboard_stats add cal cx period_arg w) in
  let s := get_stats add cx w in
  ds_total_scans a = total_scans s /\
  ds_successful_scans a = successful_scans s /\
  ds_processed_scans a = processed_scans s /\
  ds_duplicate_attempts a = duplicate_attempts s /\
  ds_records_with_duplicates a = records_with_duplicates s /\
  ds_error_scans a = error_scans s /\
  ds_total_amount a = total_amount s.
Proof. exact (dash_figures_all_time add cx w). Qed.

Lemma count_within (p q : scan_record -> bool) l :
  (forall r, p r = true -> q r = true) ->
  (length (List.filter p l) <= length (List.filter q l))%nat.
Proof.
  intros H. induction l as [|x l IH]; [constructor|]. cbn [List.filter].
  destruct (p x) eqn:Hp.
  - rewrite (H x Hp). simpl. lia.
  - destruct (q x); simpl; lia.
Qed.

Lemma attempts_within (p q : scan_record -> bool) l :
  (forall r, p r = true -> q r = true) ->
  (sum_Z (List.map duplicate_count
            (List.filter (fun r => p r && (0 <? duplicate_count r)%Z) l))
   <= sum_Z (List.map duplicate_count
               (List.filter (fun r => q r && (0 <? duplicate_count r)%Z) l)))%Z.
Proof.
  intros H. induction l as [|x l IH]; [reflexivity|]. cbn [List.filter].
  destruct (Z.ltb_spec 0 (duplicate_count x)) as [Hd|Hd].
  - destruct (p x) eqn:Hp.
    + rewrite (H x Hp). cbn [andb List.map]. rewrite !sum_Z_cons. lia.
    + destruct (q x); cbn [andb List.map]; rewrite ?sum_Z_cons; lia.
  - rewrite !andb_false_r. exact IH.
Qed.

(** X20. Whatever the period, no figure of the period exceeds the all-time
    figure beside it, and the three series of the chart have one value per
    label: 8 for a week, 31 for a month, one for a day and 12 for a year. *)
Theorem dashboard_period_within_all_time (add : value -> value -> value)
    (cal : calendar) (cx : context) (period_arg : pystr) (w : world) :
  let d := get_dashboard_stats add cal cx period_arg w in
  let s := dash_stats d in
  let a := dash_all_time_stats d in
  (ds_total_scans s <= ds_total_scans a)%Z /\
  (ds_successful_scans s <= ds_successful_scans a)%Z /\
  (ds_processed_scans s <= ds_processed_scans a)%Z /\
  (ds_duplicate_attempts s <= ds_duplicate_attempts a)%Z /\
  (ds_records_with_duplicates s <= ds_records_with_duplicates a)%Z /\
  (ds_error_scans s <= ds_error_scans a)%Z /\
  length (chart_scans (dash_chart d)) = length (chart_labels (dash_chart d)) /\
  length (chart_verified (dash_chart d)) = length (chart_labels (dash_chart d)) /\
  length (chart_labels (dash_chart d))
  = match period_of period_arg with
    | PDay => 1 | PWeek => 8 | PMonth => 31 | PYear => 12
    end%nat.
Proof.
  cbv zeta. unfold get_dashboard_stats.
  cbn [dash_stats dash_all_time_stats dash_chart].
  set (within := fun r : scan_record => (_ <=? scan_date r)%Z).
  assert (Hin : forall (p : scan_record -> bool) r,
            in_company cx r && within r && p r = true ->
            in_company cx r && true && p r = true).
  { intros p r H. apply andb_true_iff in H as [H Hp]. apply andb_true_iff in H as [Hc _].
    rewrite Hc, Hp. reflexivity. }
  assert (Hcount : forall p : scan_record -> bool,
            (search_count (fun r => in_company cx r && within r && p r) w
             <= search_count (fun r => in_company cx r && true && p r) w)%Z).
  { intros p. unfold search_count, search. apply inj_le, count_within, Hin. }
  assert (Hatt : (ds_duplicate_attempts (dash_figures_of add cx within w)
                  <= ds_duplicate_attempts (dash_figures_of add cx (fun _ => true) w))%Z).
  { unfold dash_figures_of, search. cbn [ds_duplicate_attempts].
    apply (attempts_within (fun r => in_company cx r && within r)
             (fun r => in_company cx r && true)).
    intros r H. apply andb_true_iff in H as [-> _]. reflexivity. }
  pose proof (Hcount (fun r => is_successful (state r))) as H1.
  pose proof (Hcount (state_is Processed)) as H2.
  pose proof (Hcount (state_is Error)) as H3.
  pose proof (Hcount (fun r => (0 <? duplicate_count r)%Z)) as H4.
  split; [|split; [exact H1|split; [exact H2|split; [exact Hatt|split; [exact H4|
           split; [exact H3|]]]]]].
  - unfold dash_figures_of in *. cbn [ds_total_scans ds_duplicate_attempts] in *. lia.
  - destruct (period_of period_arg); cbn [chart_scans chart_verified chart_labels];
      unfold chart_days; rewrite ?length_map, ?length_rev, ?length_seq; repeat split.
Qed.

(** The two actions, one after the other, on the one scanned record. *)
Lemma action_mark_round_trip_witness :
  exists d1 d2,
    action_mark_processed cx0 [1%Z] d_scanned = (Ok true, d1) /\
    action_mark_unprocessed cx0 [1%Z] d1 = (Ok true, d2) /\
    records (store d2) = records w_scanned /\
    processed d2 !! 1%Z = None.
Proof.
  destruct (action_mark_round_trip cx0 cx0 [1%Z] d_scanned store_ok_w_scanned)
    as (d1 & d2 & H1 & H2 & Hrec & Hp).
  - constructor; [exists scanned_record; reflexivity|constructor].
  - vm_compute. reflexivity.
  - vm_compute. reflexivity.
  - exists d1, d2. split; [exact H1|]. split; [exact H2|]. split; [exact Hrec|].
    apply (Hp scanned_record). left. reflexivity.
Defined.
